(** * Rasterlite create-copy: a shallow embedding and its properties

    The development follows [frmts/rasterlite/rasterlitecreatecopy.cpp]:
    the tile-driver option translation, [RasterliteInsertSRID],
    [RasterliteCreateTables] and [RasterliteCreateCopy]. The data source
    of [ogr/ogrsf_frmts/gpsbabel/ogrgpsbabeldatasource.cpp] follows in a
    module of its own, [GPSBabel].

    Conventions:
    - a C++ [int] is a [Z]; every arithmetic operation of the source is
      written with [int_add], [int_sub], [int_mul], [int_div], which wrap
      to 32 bits (signed overflow is undefined in C++; the wrap-around is
      what the usual targets compute);
    - a C++ [double] is a primitive binary64 [float];
    - a [char *] is a [string], [nullptr] being [None] of an [option];
    - a [GDALDatasetH] on the SQLite store is the path of the store, the
      store itself living in the [World]; [nullptr] is [None];
    - the collaborators that are not part of the file (source raster
      reads, tile codec, spatial reference parsing, row insertion,
      allocation) are fields of [Env], answers of the environment. *)

From Stdlib Require Import ZArith String Ascii List Floats Lia Bool.
From stdpp Require Import base option list gmap strings.

Local Open Scope string_scope.
Local Open Scope list_scope.
Local Open Scope Z_scope.

(** ** Machine integers *)

Module Int.

Definition INT_MAX : Z := 2147483647.
Definition INT_MIN : Z := -2147483648.

Definition wrap32 (z : Z) : Z := (z + 2^31) mod 2^32 - 2^31.

Definition in_range (z : Z) : Prop := INT_MIN <= z <= INT_MAX.

Definition int_add (a b : Z) : Z := wrap32 (a + b).
Definition int_sub (a b : Z) : Z := wrap32 (a - b).
Definition int_mul (a b : Z) : Z := wrap32 (a * b).
(** C++ division truncates toward zero. *)
Definition int_div (a b : Z) : Z := wrap32 (Z.quot a b).

End Int.
Export Int.

(** ** C strings and the CPL string helpers

    [EQUAL], [STARTS_WITH_CI], [CSLFetchNameValue], [CSLSetNameValue],
    [CPLTestBool], [CSLTokenizeStringComplex], [CPLGetBasenameSafe] and
    the C library's [atoi] are used by the source and defined in GDAL's
    port library, outside the files at hand. *)

Module CPL.

Definition toupper (c : ascii) : ascii :=
  let n := nat_of_ascii c in
  if (97 <=? n)%nat && (n <=? 122)%nat then ascii_of_nat (n - 32) else c.

Fixpoint chars (s : string) : list ascii :=
  match s with
  | EmptyString => []
  | String c r => c :: chars r
  end.

Fixpoint of_chars (l : list ascii) : string :=
  match l with
  | [] => EmptyString
  | c :: r => String c (of_chars r)
  end.

Definition upper (s : string) : string := of_chars (map toupper (chars s)).

(** Modelled from the spec: [EQUAL], the case-insensitive comparison of
    the port library (option keys and codec names are compared without
    regard to case). *)
Definition EQUAL (a b : string) : bool := String.eqb (upper a) (upper b).

(** Modelled from the spec: [STARTS_WITH_CI(a, b)], true when [a]
    begins with [b], case ignored. *)
Definition STARTS_WITH_CI (a b : string) : bool :=
  EQUAL (String.substring 0 (String.length b) a) b
  && (String.length b <=? String.length a)%nat.

(** The tail of [s] from position [n] on ([s + n] on a C string). *)
Definition skip (n : nat) (s : string) : string :=
  String.substring n (String.length s - n) s.

Definition is_sep (c : option ascii) : bool :=
  match c with
  | Some c => Ascii.eqb c "="%char || Ascii.eqb c ":"%char
  | None => false
  end.

(** Modelled from the spec: [CSLFetchNameValue], the value of the first
    [NAME=VALUE] entry whose name is [name], case ignored. *)
Fixpoint CSLFetchNameValue (l : list string) (name : string) : option string :=
  match l with
  | [] => None
  | e :: r =>
      if STARTS_WITH_CI e name && is_sep (String.get (String.length name) e)
      then Some (skip (S (String.length name)) e)
      else CSLFetchNameValue r name
  end.

Definition CSLFetchNameValueDef (l : list string) (name def : string) : string :=
  match CSLFetchNameValue l name with
  | Some v => v
  | None => def
  end.

(** Modelled from the spec: [CSLSetNameValue] with a value, which
    replaces the entry of that name or appends [NAME=VALUE]. *)
Fixpoint CSLSetNameValue (l : list string) (name value : string) : list string :=
  match l with
  | [] => [(name ++ "=" ++ value)%string]
  | e :: r =>
      if STARTS_WITH_CI e name && is_sep (String.get (String.length name) e)
      then (name ++ "=" ++ value)%string :: r
      else e :: CSLSetNameValue r name value
  end.

(** Modelled from the spec: [CPLTestBool], false for NO, FALSE, OFF and
    0, and true for every other text. *)
Definition CPLTestBool (s : string) : bool :=
  negb (EQUAL s "NO" || EQUAL s "FALSE" || EQUAL s "OFF" || EQUAL s "0").

Definition isspace (c : ascii) : bool :=
  let n := nat_of_ascii c in
  (n =? 32)%nat || ((9 <=? n)%nat && (n <=? 13)%nat).

Definition digit (c : ascii) : option Z :=
  let n := nat_of_ascii c in
  if (48 <=? n)%nat && (n <=? 57)%nat then Some (Z.of_nat (n - 48)) else None.

Fixpoint digits (acc : Z) (l : list ascii) : Z :=
  match l with
  | [] => acc
  | c :: r =>
      match digit c with
      | Some d => digits (10 * acc + d) r
      | None => acc
      end
  end.

Fixpoint skip_spaces (l : list ascii) : list ascii :=
  match l with
  | c :: r => if isspace c then skip_spaces r else l
  | [] => []
  end.

(** [atoi] of the C library: leading white space, an optional sign,
    then decimal digits; the value is cut to an [int]. For a digit
    string whose value is beyond a [long] the behaviour of [atoi] is
    undefined in C (glibc saturates before the cut); the model wraps
    there too. *)
Definition atoi (s : string) : Z :=
  match skip_spaces (chars s) with
  | c :: r =>
      if Ascii.eqb c "-"%char then wrap32 (- digits 0 r)
      else if Ascii.eqb c "+"%char then wrap32 (digits 0 r)
      else wrap32 (digits 0 (c :: r))
  | [] => 0
  end.

(** The pieces of a text between its commas, empty ones included. *)
Fixpoint split_commas (cur : list ascii) (l : list ascii) : list (list ascii) :=
  match l with
  | [] => [rev cur]
  | c :: r =>
      if Ascii.eqb c ","%char then rev cur :: split_commas [] r
      else split_commas (c :: cur) r
  end.

Definition nonempty (l : list ascii) : bool :=
  match l with [] => false | _ => true end.

(** Modelled from the spec: [CSLTokenizeStringComplex(s, ",", FALSE,
    FALSE)], the comma-separated tokens of [s]; quotes are not honoured
    and empty tokens are not kept. *)
Definition CSLTokenizeStringComplex (s : string) : list string :=
  map of_chars (filter (fun t => nonempty t = true) (split_commas [] (chars s))).

Definition is_dirsep (c : ascii) : bool :=
  Ascii.eqb c "/"%char || Ascii.eqb c "\"%char.

(** The characters after the last directory separator. *)
Fixpoint filename_part (cur : list ascii) (l : list ascii) : list ascii :=
  match l with
  | [] => rev cur
  | c :: r => if is_dirsep c then filename_part [] r else filename_part (c :: cur) r
  end.

(** Position of the last dot at an index above zero, if any. *)
Fixpoint last_dot (i : nat) (l : list ascii) : option nat :=
  match l with
  | [] => None
  | c :: r =>
      match last_dot (S i) r with
      | Some j => Some j
      | None => if Ascii.eqb c "."%char && (0 <? i)%nat then Some i else None
      end
  end.

(** Modelled from the spec: [CPLGetBasenameSafe], the file name without
    its directory and without its last extension. *)
Definition CPLGetBasenameSafe (s : string) : string :=
  let f := filename_part [] (chars s) in
  match last_dot 0 f with
  | Some i => of_chars (firstn i f)
  | None => of_chars f
  end.

End CPL.
Export CPL.


(** ** Doubles *)

Definition double := float.

(** Conversion of an [int] to a [double]; exact on 32-bit values. *)
Definition double_of_int (z : Z) : double :=
  if z <? 0 then PrimFloat.opp (PrimFloat.of_uint63 (Uint63.of_Z (- z)))
  else PrimFloat.of_uint63 (Uint63.of_Z z).

(** The six coefficients of [adfGeoTransform]. *)
Record GeoTransform := {
  gt0 : double; gt1 : double; gt2 : double;
  gt3 : double; gt4 : double; gt5 : double
}.

(** ** Error classes and the error log *)

Inductive CPLErr := CE_None | CE_Debug | CE_Warning | CE_Failure | CE_Fatal.

Definition CPLErr_eqb (a b : CPLErr) : bool :=
  match a, b with
  | CE_None, CE_None | CE_Debug, CE_Debug | CE_Warning, CE_Warning
  | CE_Failure, CE_Failure | CE_Fatal, CE_Fatal => true
  | _, _ => false
  end.

(** ** The tile store

    Rows of the two tables, the registry of reference systems and the
    table of geometry columns, as section 3 of the specification lists
    them and as the [CREATE TABLE] statements of the source declare
    them. *)

Definition Point := (double * double)%type.

Record MetadataFields := {
  source_name : string;
  tile_id : Z;
  width : Z;
  height : Z;
  pixel_x_size : double;
  pixel_y_size : double;
  geometry : list Point      (* the linear ring of the polygon *)
}.

Inductive Fields :=
| RasterFields (raster : list ascii)
| MetaFields (m : MetadataFields).

(** [OGRNullFID]: the feature has no identifier yet. *)
Definition OGRNullFID : Z := -1.

Record Feature := { FID : Z; fields : Fields }.

(** A table keeps the last identifier it gave out (AUTOINCREMENT). *)
Record Table := { seq : Z; rows : list Feature }.

Record SrsRow := {
  srid : Z;
  auth_name : string;
  auth_srid : Z;
  ref_sys_name : option string;
  proj4text : string
}.

Record Data := {
  spatial_ref_sys : option (list SrsRow);   (* [None]: no registry table *)
  geometry_columns : list (string * Z);     (* f_table_name, srid *)
  tables : gmap string Table
}.

(** The statements the source sends through [GDALDatasetExecuteSQL],
    one constructor per format string. *)
Inductive Stmt :=
| SelectSrid (nAuthorityCode : Z)
| InsertSrs (r : SrsRow)
| CreateRastersTable (name : string)
| CreateMetadataTable (name : string)
| AddGeometryColumn (name : string) (nSRSId : Z)
| CreateSpatialIndex (name : string)
| UpdateLayerStatistics
| SelectGeomSrid (name : string)
| UpdateGeomSrid (nSRSId : Z) (name : string)
| DeleteFrom (name : string)
| SelectOverlapCount (metadata table : string) (minx miny maxx maxy px py : double)
| Begin
| Commit
| Rollback.

Inductive Event :=
| EvError (eErrClass : CPLErr) (msg : string)
| EvSQL (s : Stmt)
| EvCreate (path : string)
| EvOpen (path : string)
| EvClose (path : string).

Inductive File :=
| OtherFile
| SQLiteDB (d : Data).

(** The world the operation runs in: the files by path, the snapshot of
    the transaction that is open on the connection (if one is), and
    what was logged. *)
Record World := {
  fs : gmap string File;
  txn : option Data;
  log : list Event
}.

Definition GDALDatasetH := option string.

(** The source raster and the answers of its methods. *)
Record SrcDS := {
  Description : string;
  RasterCount : Z;
  RasterXSize : Z;
  RasterYSize : Z;
  GetGeoTransform : option GeoTransform;    (* [None]: not [CE_None] *)
  GetProjectionRef : option string;
  DataTypeSize : Z;                         (* [GDALGetDataTypeSize] *)
  RasterIO : Z -> Z -> Z -> Z -> CPLErr * list ascii
}.

(** What [OSRNewSpatialReference] and the accessors give for a WKT. *)
Record SRS := {
  AuthorityName : option string;
  ProjCS : option string;
  AuthorityCode : option string;
  ExportToProj4 : option string             (* [None]: not [OGRERR_NONE] *)
}.

(** The in-memory tile handed to the codec. *)
Record MEMDataset := {
  mem_xsize : Z;
  mem_ysize : Z;
  mem_bands : Z;
  mem_type_size : Z;
  mem_buffer : list ascii
}.

(** Answers of the collaborators. *)
Record Env := {
  GDALGetDriverByName : string -> bool;
  OSRNewSpatialReference : string -> option SRS;
  (** the store a successful [GDALCreate] of the SQLite driver leaves *)
  GDALCreate : string -> option Data;
  (** spatial functions are available to SQL *)
  Spatialite : bool;
  (** a [SELECT] that matches no row gives no result set at all
      (rather than a result set without rows) *)
  EmptySelectIsNull : bool;
  CountOverlaps : Data -> string -> option (list Z);
  VSIMalloc3 : Z -> Z -> Z -> bool;
  (** [GDALCreateCopy] of the tile driver on an in-memory tile *)
  TileCreateCopy : string -> list string -> MEMDataset -> option (list ascii);
  (** whether [OGR_L_CreateFeature] accepts the feature *)
  CreateFeatureOK : string -> Table -> Feature -> bool;
  GDALOpen : string -> bool
}.


(** ** The store behind [GDALDatasetExecuteSQL] *)

Definition CPLError (c : CPLErr) (msg : string) (w : World) : World :=
  {| fs := fs w; txn := txn w; log := EvError c msg :: log w |}.

Definition emit (e : Event) (w : World) : World :=
  {| fs := fs w; txn := txn w; log := e :: log w |}.

Definition set_tables (d : Data) (t : gmap string Table) : Data :=
  {| spatial_ref_sys := spatial_ref_sys d;
     geometry_columns := geometry_columns d;
     tables := t |}.

Definition set_geometry_columns (d : Data) (g : list (string * Z)) : Data :=
  {| spatial_ref_sys := spatial_ref_sys d;
     geometry_columns := g;
     tables := tables d |}.

Definition set_spatial_ref_sys (d : Data) (r : option (list SrsRow)) : Data :=
  {| spatial_ref_sys := r;
     geometry_columns := geometry_columns d;
     tables := tables d |}.

(** The result set of a [SELECT] as the caller sees it: the values of
    field 0 of its rows, or no layer at all. *)
Definition select_result (env : Env) (l : list Z) : option (list Z) :=
  match l with
  | [] => if EmptySelectIsNull env then None else Some []
  | _ => Some l
  end.

Definition create_table (name : string) (d : Data) : Data :=
  match tables d !! name with
  | Some _ => d
  | None => set_tables d (<[name := {| seq := 0; rows := [] |}]> (tables d))
  end.

Definition delete_rows (t : Table) : Table := {| seq := seq t; rows := [] |}.

Definition bind_srid (nSRSId : Z) (name : string) (p : string * Z) : string * Z :=
  if String.eqb (fst p) name then (fst p, nSRSId) else p.

(** Modelled from the spec: the SQL store of section 6 (statements,
    begin, commit, rollback), whose code is the SQLite driver and not
    part of the files at hand. A statement maps the data and the open
    snapshot to the new ones and to the result layer; only a [SELECT]
    gives a layer. *)
Definition sql_exec (env : Env) (s : Stmt) (d : Data) (t : option Data)
  : Data * option Data * option (list Z) :=
  match s with
  | SelectSrid code =>
      match spatial_ref_sys d with
      | Some rs => (d, t, select_result env (map srid (filter (fun r => auth_srid r = code) rs)))
      | None => (d, t, None)
      end
  | InsertSrs r =>
      match spatial_ref_sys d with
      | Some rs =>
          if existsb (fun r' => srid r' =? srid r) rs then (d, t, None)
          else (set_spatial_ref_sys d (Some (rs ++ [r])), t, None)
      | None => (d, t, None)
      end
  | CreateRastersTable name => (create_table name d, t, None)
  | CreateMetadataTable name => (create_table name d, t, None)
  | AddGeometryColumn name nSRSId =>
      if Spatialite env then
        match tables d !! name with
        | Some _ =>
            if existsb (fun p => String.eqb (fst p) name) (geometry_columns d)
            then (d, t, Some [0])
            else (set_geometry_columns d (geometry_columns d ++ [(name, nSRSId)]), t, Some [1])
        | None => (d, t, Some [0])
        end
      else (d, t, None)
  | CreateSpatialIndex name =>
      if Spatialite env then (d, t, Some [1]) else (d, t, None)
  | UpdateLayerStatistics =>
      if Spatialite env then (d, t, Some [1]) else (d, t, None)
  | SelectGeomSrid name =>
      (d, t, select_result env
               (map snd (filter (fun p => fst p = name) (geometry_columns d))))
  | UpdateGeomSrid nSRSId name =>
      (set_geometry_columns d (map (bind_srid nSRSId name) (geometry_columns d)), t, None)
  | DeleteFrom name =>
      (set_tables d (alter delete_rows name (tables d)), t, None)
  | SelectOverlapCount _ table _ _ _ _ _ _ => (d, t, CountOverlaps env d table)
  | Begin =>
      match t with
      | None => (d, Some d, None)
      | Some _ => (d, t, None)
      end
  | Commit => (d, None, None)
  | Rollback =>
      match t with
      | Some d0 => (d0, None, None)
      | None => (d, None, None)
      end
  end.

(** The data of the store a handle names. *)
Definition store_of (w : World) (hDS : GDALDatasetH) : option Data :=
  match hDS with
  | Some p =>
      match fs w !! p with
      | Some (SQLiteDB d) => Some d
      | _ => None
      end
  | None => None
  end.

(** Modelled from the spec: the execute-statement entry of the generic
    store (section 6). The statement runs on the store the handle names
    and is logged; on a handle that names no store nothing happens and
    there is no result layer. *)
Definition GDALDatasetExecuteSQL (env : Env) (hDS : GDALDatasetH) (s : Stmt) (w : World)
  : World * option (list Z) :=
  match hDS, store_of w hDS with
  | Some p, Some d =>
      let '(d', t', r) := sql_exec env s d (txn w) in
      ({| fs := <[p := SQLiteDB d']> (fs w); txn := t'; log := EvSQL s :: log w |}, r)
  | _, _ => (w, None)
  end.

(** [OGR_L_GetNextFeature] on a fresh result layer, then field 0 of it. *)
Definition first_feature (l : list Z) : option Z := head l.

(** Modelled from the spec: the layer lookup of the generic store,
    which finds a layer exactly when the store has a table of that name
    ([false] is [nullptr]). *)
Definition GDALDatasetGetLayerByName (hDS : GDALDatasetH) (name : string) (w : World) : bool :=
  match store_of w hDS with
  | Some d => bool_decide (is_Some (tables d !! name))
  | None => false
  end.

Definition GDALGetDescription (hDS : GDALDatasetH) : string :=
  match hDS with
  | Some p => p
  | None => ""
  end.

(** Modelled from the spec: the close of the generic store. Closing
    the connection ends a transaction left open by undoing it. *)
Definition GDALClose (hDS : GDALDatasetH) (w : World) : World :=
  match hDS, store_of w hDS with
  | Some p, Some d =>
      match txn w with
      | Some d0 => {| fs := <[p := SQLiteDB d0]> (fs w); txn := None; log := EvClose p :: log w |}
      | None => emit (EvClose p) w
      end
  | _, _ => w
  end.

(** Modelled from the spec: [RasterliteOpenSQLiteDB] (declared in
    rasterlitedataset.h), which opens the store at a path in update
    mode and gives [nullptr] when there is no store there. *)
Definition RasterliteOpenSQLiteDB (name : string) (w : World) : World * GDALDatasetH :=
  match fs w !! name with
  | Some (SQLiteDB _) => ({| fs := fs w; txn := None; log := EvOpen name :: log w |}, Some name)
  | _ => (w, None)
  end.

(** Modelled from the spec: whether a file exists at a path ([true] is
    the result 0 of [VSIStat]). *)
Definition VSIStat (name : string) (w : World) : bool :=
  bool_decide (is_Some (fs w !! name)).

(** Modelled from the spec: the create-row entry of the generic store,
    [OGR_L_CreateFeature]. The environment says whether the row is
    accepted; an accepted row without identifier gets the next one of
    the table. The result is the new world, success, and the identifier
    the feature carries afterwards. *)
Definition OGR_L_CreateFeature (env : Env) (hDS : GDALDatasetH) (layer : string)
  (f : Feature) (w : World) : World * bool * Z :=
  match hDS, store_of w hDS with
  | Some p, Some d =>
      match tables d !! layer with
      | Some t =>
          if CreateFeatureOK env layer t f then
            let id := if FID f =? OGRNullFID then seq t + 1 else FID f in
            let t' := {| seq := Z.max (seq t) id;
                         rows := rows t ++ [{| FID := id; fields := fields f |}] |} in
            ({| fs := <[p := SQLiteDB (set_tables d (<[layer := t']> (tables d)))]> (fs w);
                txn := txn w; log := log w |}, true, id)
          else (w, false, FID f)
      | None => (w, false, FID f)
      end
  | _, _ => (w, false, FID f)
  end.

(** ** Tile driver options (lines 24-82) *)

Definition unexpected_option (pszOptionName pszDriverName : string) : string :=
  ("Unexpected option '" ++ pszOptionName ++ "' for driver '" ++ pszDriverName ++ "'")%string.

Definition RasterliteAddTileDriverOptionsForDriver (papszOptions : list string)
  (papszTileDriverOptions : list string) (pszOptionName pszExpectedDriverName : string)
  (w : World) : World * list string :=
  match CSLFetchNameValue papszOptions pszOptionName with
  | Some pszVal =>
      let pszDriverName := CSLFetchNameValueDef papszOptions "DRIVER" "GTiff" in
      if EQUAL pszDriverName pszExpectedDriverName
      then (w, CSLSetNameValue papszTileDriverOptions pszOptionName pszVal)
      else (CPLError CE_Warning (unexpected_option pszOptionName pszDriverName) w,
            papszTileDriverOptions)
  | None => (w, papszTileDriverOptions)
  end.

Definition RasterliteGetTileDriverOptions (papszOptions : list string) (w : World)
  : World * list string :=
  let pszDriverName := CSLFetchNameValueDef papszOptions "DRIVER" "GTiff" in
  let '(w, papszTileDriverOptions) :=
    match CSLFetchNameValue papszOptions "QUALITY" with
    | Some pszQuality =>
        if EQUAL pszDriverName "GTiff"
        then (w, CSLSetNameValue [] "JPEG_QUALITY" pszQuality)
        else if EQUAL pszDriverName "JPEG" || EQUAL pszDriverName "WEBP"
        then (w, CSLSetNameValue [] "QUALITY" pszQuality)
        else (CPLError CE_Warning (unexpected_option "QUALITY" pszDriverName) w, [])
    | None => (w, [])
    end in
  let '(w, papszTileDriverOptions) :=
    RasterliteAddTileDriverOptionsForDriver papszOptions papszTileDriverOptions
      "COMPRESS" "GTiff" w in
  RasterliteAddTileDriverOptionsForDriver papszOptions papszTileDriverOptions
    "PHOTOMETRIC" "GTiff" w.

(** ** RasterliteInsertSRID (lines 88-164) *)

Definition string_empty (s : string) : bool :=
  match s with EmptyString => true | _ => false end.

Definition or_empty (o : option string) : string :=
  match o with Some s => s | None => "" end.

(** What the first half of the function reads off the WKT:
    [nAuthorityCode], [osAuthorityName], [osProjCS], [osProj4]. *)
Definition srs_of_wkt (env : Env) (pszWKT : option string) : Z * string * string * string :=
  match pszWKT with
  | Some wkt =>
      if string_empty wkt then (0, "", "", "")
      else
        match OSRNewSpatialReference env wkt with
        | Some hSRS =>
            (match AuthorityCode hSRS with Some c => atoi c | None => 0 end,
             or_empty (AuthorityName hSRS),
             or_empty (ProjCS hSRS),
             or_empty (ExportToProj4 hSRS))
        | None => (0, "", "", "")
        end
  | None => (0, "", "", "")
  end.

Definition RasterliteInsertSRID (env : Env) (hDS : GDALDatasetH) (pszWKT : option string)
  (w : World) : World * Z :=
  let '(nAuthorityCode, osAuthorityName, osProjCS, osProj4) := srs_of_wkt env pszWKT in
  if negb (nAuthorityCode =? 0) && negb (string_empty osAuthorityName) then
    let '(w, hLyr) := GDALDatasetExecuteSQL env hDS (SelectSrid nAuthorityCode) w in
    match hLyr with
    | None =>
        let nSRSId := nAuthorityCode in
        let r := {| srid := nSRSId;
                    auth_name := osAuthorityName;
                    auth_srid := nAuthorityCode;
                    ref_sys_name := if string_empty osProjCS then None else Some osProjCS;
                    proj4text := osProj4 |} in
        let '(w, _) := GDALDatasetExecuteSQL env hDS (InsertSrs r) w in
        (w, nSRSId)
    | Some l =>
        match first_feature l with
        | Some v => (w, v)
        | None => (w, -1)
        end
    end
  else (w, -1).

(** The two errors of the schema stage. *)
Definition srs_mismatch_message : string :=
  "New data has not the same SRS as existing data".

Definition missing_tables_message : string :=
  "Cannot find metadata and/or raster tables".

(** ** RasterliteCreateTables (lines 170-304) *)

Definition rasters_of (pszTableName : string) : string := (pszTableName ++ "_rasters")%string.
Definition metadata_of (pszTableName : string) : string := (pszTableName ++ "_metadata")%string.

(** The branch taken when the raster layer is not there (lines 187-249). *)
Definition create_tables (env : Env) (hDS : GDALDatasetH) (osDBName : string)
  (osRasterLayer osMetadataLayer : string) (nSRSId : Z) (w : World) : World * GDALDatasetH :=
  let '(w, _) := GDALDatasetExecuteSQL env hDS (CreateRastersTable osRasterLayer) w in
  let '(w, _) := GDALDatasetExecuteSQL env hDS (CreateMetadataTable osMetadataLayer) w in
  let '(w, hLyr) := GDALDatasetExecuteSQL env hDS (AddGeometryColumn osMetadataLayer nSRSId) w in
  match hLyr with
  | None =>
      let w := CPLError CE_Failure "Check that the OGR SQLite driver has Spatialite support" w in
      (GDALClose hDS w, None)
  | Some _ =>
      let '(w, hLyr) := GDALDatasetExecuteSQL env hDS (CreateSpatialIndex osMetadataLayer) w in
      match hLyr with
      | None => (GDALClose hDS w, None)
      | Some _ =>
          let '(w, _) := GDALDatasetExecuteSQL env hDS UpdateLayerStatistics w in
          let w := GDALClose hDS w in
          RasterliteOpenSQLiteDB osDBName w
      end
  end.

(** The consistency check of the branch taken when the raster layer is
    there (lines 252-291): [inl] is the early [return nullptr], [inr]
    carries the handle the function goes on with. *)
Definition check_existing_srs (env : Env) (hDS : GDALDatasetH) (osDBName : string)
  (osMetadataLayer : string) (nSRSId : Z) (bWipeExistingData : bool) (w : World)
  : World * (unit + GDALDatasetH) :=
  let '(w, hLyr) := GDALDatasetExecuteSQL env hDS (SelectGeomSrid osMetadataLayer) w in
  match hLyr with
  | Some l =>
      let nExistingSRID := match first_feature l with Some v => v | None => -1 end in
      if negb (nExistingSRID =? nSRSId) then
        if bWipeExistingData then
          let '(w, _) := GDALDatasetExecuteSQL env hDS (UpdateGeomSrid nSRSId osMetadataLayer) w in
          let w := GDALClose hDS w in
          let '(w, hDS) := RasterliteOpenSQLiteDB osDBName w in
          (w, inr hDS)
        else
          let w := CPLError CE_Failure srs_mismatch_message w in
          (GDALClose hDS w, inl tt)
      else (w, inr hDS)
  | None => (w, inr hDS)
  end.

Definition RasterliteCreateTables (env : Env) (hDS : GDALDatasetH) (pszTableName : string)
  (nSRSId : Z) (bWipeExistingData : bool) (w : World) : World * GDALDatasetH :=
  let osDBName := GDALGetDescription hDS in
  let osRasterLayer := rasters_of pszTableName in
  let osMetadataLayer := metadata_of pszTableName in
  if negb (GDALDatasetGetLayerByName hDS osRasterLayer w) then
    create_tables env hDS osDBName osRasterLayer osMetadataLayer nSRSId w
  else
    match check_existing_srs env hDS osDBName osMetadataLayer nSRSId bWipeExistingData w with
    | (w, inl _) => (w, None)
    | (w, inr hDS) =>
        if bWipeExistingData then
          let '(w, _) := GDALDatasetExecuteSQL env hDS (DeleteFrom osRasterLayer) w in
          let '(w, _) := GDALDatasetExecuteSQL env hDS (DeleteFrom osMetadataLayer) w in
          (w, hDS)
        else (w, hDS)
    end.

(** ** RasterliteCreateCopy (lines 310-720) *)

(** *** Block size (lines 367-389) *)

Definition clamp_block (n : Z) : Z :=
  if n <? 64 then 64 else if n >? 4096 then 4096 else n.

Definition block_size (papszOptions : list string) (nXSize nYSize : Z) : Z * Z :=
  let bTiled := CPLTestBool (CSLFetchNameValueDef papszOptions "TILED" "YES") in
  if bTiled then
    (clamp_block (atoi (CSLFetchNameValueDef papszOptions "BLOCKXSIZE" "256")),
     clamp_block (atoi (CSLFetchNameValueDef papszOptions "BLOCKYSIZE" "256")))
  else (nXSize, nYSize).

(** *** The target specifier (lines 396-443) *)

(** The loop over the tokens after the first (lines 415-424). *)
Fixpoint scan_tokens (tokens : list string) (osTableName : string) (w : World)
  : World * string :=
  match tokens with
  | [] => (w, osTableName)
  | tok :: r =>
      if STARTS_WITH_CI tok "table=" then scan_tokens r (skip 6 tok) w
      else scan_tokens r osTableName
             (CPLError CE_Warning ("Invalid option : " ++ tok)%string w)
  end.

(** The target specifier without its optional scheme (lines 396-398). *)
Definition without_prefix (pszFilename : string) : string :=
  if STARTS_WITH_CI pszFilename "RASTERLITE:" then skip 11 pszFilename else pszFilename.

(** [osDBName], [osTableName] and [bExists], or the early return. *)
Definition analyze_filename (pszFilename : string) (w : World)
  : World * option (string * string * bool) :=
  let pszFilenameWithoutPrefix := without_prefix pszFilename in
  let papszTokens := CSLTokenizeStringComplex pszFilenameWithoutPrefix in
  let '(w, osDBName, osTableName) :=
    match papszTokens with
    | [] => (w, pszFilenameWithoutPrefix, CPLGetBasenameSafe pszFilenameWithoutPrefix)
    | t0 :: r => let '(w, osTableName) := scan_tokens r "" w in (w, t0, osTableName)
    end in
  let bExists := VSIStat osDBName w in
  if string_empty osTableName then
    if bExists then
      (CPLError CE_Failure
         "Database already exists. Explicit table name must be specified" w, None)
    else (w, Some (osDBName, CPLGetBasenameSafe osDBName, bExists))
  else (w, Some (osDBName, osTableName, bExists)).

(** *** Create or open the store (lines 455-481) *)

Definition open_store (env : Env) (osDBName : string) (bExists : bool) (w : World)
  : World * GDALDatasetH :=
  if negb (GDALGetDriverByName env "SQLite") then
    (CPLError CE_Failure "Cannot load OGR SQLite driver" w, None)
  else
    let '(w, hDS) :=
      if negb bExists then
        match GDALCreate env osDBName with
        | Some d => ({| fs := <[osDBName := SQLiteDB d]> (fs w); txn := None;
                        log := EvCreate osDBName :: log w |}, Some osDBName)
        | None => (w, None)
        end
      else RasterliteOpenSQLiteDB osDBName w in
    match hDS with
    | None => (CPLError CE_Failure "Cannot load or create SQLite database" w, None)
    | Some _ => (w, hDS)
    end.

(** *** Overlap advisory (lines 516-551) *)

Definition warn_overlaps (env : Env) (hDS : GDALDatasetH) (osTableName : string)
  (adfGeoTransform : GeoTransform) (nXSize nYSize : Z) (w : World) : World :=
  let minx := gt0 adfGeoTransform in
  let maxx := (gt0 adfGeoTransform + double_of_int nXSize * gt1 adfGeoTransform)%float in
  let maxy := gt3 adfGeoTransform in
  let miny := (gt3 adfGeoTransform + double_of_int nYSize * gt5 adfGeoTransform)%float in
  let '(w, hCountLyr) :=
    GDALDatasetExecuteSQL env hDS
      (SelectOverlapCount (metadata_of osTableName) osTableName minx miny maxx maxy
         (gt1 adfGeoTransform) (- gt5 adfGeoTransform)%float) w in
  let nOverlappingGeoms :=
    match hCountLyr with
    | Some l => match first_feature l with Some v => v | None => 0 end
    | None => 0
    end in
  if negb (nOverlappingGeoms =? 0) then
    CPLError CE_Warning
      ("Raster tiles already exist in the " ++ osTableName ++
       " table within the extent of the data to be inserted in")%string w
  else w.

(** *** The block loop and the transaction (lines 556-719) *)

(** [nReqXSize] and [nReqYSize] (lines 593-598). *)
Definition req_size (nBlockOff nBlockSize nSize : Z) : Z :=
  if int_mul (int_add nBlockOff 1) nBlockSize >? nSize
  then int_sub nSize (int_mul nBlockOff nBlockSize)
  else nBlockSize.

(** [nXBlocks] and [nYBlocks] (lines 556-557). *)
Definition block_count (nSize nBlockSize : Z) : Z :=
  int_div (int_sub (int_add nSize nBlockSize) 1) nBlockSize.

(** The blocks in row-major order: the blocks of one block-row from
    left to right, the block-rows from top to bottom. Each is the pair
    of its column and its row. *)
Definition row_major (nx ny : Z) : list (Z * Z) :=
  flat_map (fun y => map (fun x => (x, y)) (seqZ 0 nx)) (seqZ 0 ny).

(** The rows of the table [layer] of the store behind [hDS]. *)
Definition table_rows (w : World) (hDS : GDALDatasetH) (layer : string) : list Feature :=
  match store_of w hDS with
  | Some d =>
      match tables d !! layer with
      | Some t => rows t
      | None => []
      end
  | None => []
  end.

(** The tile number a metadata row carries. *)
Definition fields_tile_id (x : Fields) : option Z :=
  match x with
  | MetaFields m => Some (tile_id m)
  | RasterFields _ => None
  end.

Definition tile_id_of (f : Feature) : option Z := fields_tile_id (fields f).

(** The row a table keeps for a feature inserted under [id]. *)
Definition stored (id : Z) (f : Feature) : Feature := {| FID := id; fields := fields f |}.

(** The files of [w] differ from those of [w0] at most at [p]. *)
Definition same_files_but (p : string) (w0 w : World) : Prop :=
  forall q, q <> p -> fs w !! q = fs w0 !! q.

(** The variables the loop reads and writes across iterations. *)
Record LoopState := {
  ls_world : World;
  eErr : CPLErr;
  nTileId : Z;
  nBlocks : Z
}.

Section TileLoop.

Variable env : Env.
Variable poSrcDS : SrcDS.
Variable hDS : GDALDatasetH.
Variable pszDriverName : string.
Variable papszTileDriverOptions : list string.
Variable osRasterLayer osMetadataLayer : string.
Variable adfGeoTransform : GeoTransform.
Variable nBands nDataTypeSize : Z.
Variable nXSize nYSize nBlockXSize nBlockYSize : Z.
Variable nXBlocks nYBlocks nTotalBlocks : Z.
Variable pfnProgress : option (double -> bool).

(** The rectangle of a block (lines 671-678): minx, maxx, maxy, miny. *)
Definition block_minx (nBlockXOff : Z) : double :=
  (gt0 adfGeoTransform
   + double_of_int (int_mul nBlockXSize nBlockXOff) * gt1 adfGeoTransform)%float.

Definition block_maxx (nBlockXOff nReqXSize : Z) : double :=
  (gt0 adfGeoTransform
   + double_of_int (int_add (int_mul nBlockXSize nBlockXOff) nReqXSize)
     * gt1 adfGeoTransform)%float.

Definition block_maxy (nBlockYOff : Z) : double :=
  (gt3 adfGeoTransform
   + double_of_int (int_mul nBlockYSize nBlockYOff) * gt5 adfGeoTransform)%float.

Definition block_miny (nBlockYOff nReqYSize : Z) : double :=
  (gt3 adfGeoTransform
   + double_of_int (int_add (int_mul nBlockYSize nBlockYOff) nReqYSize)
     * gt5 adfGeoTransform)%float.

(** The linear ring of lines 680-687. *)
Definition rectangle (minx miny maxx maxy : double) : list Point :=
  [(minx, miny); (minx, maxy); (maxx, maxy); (maxx, miny); (minx, miny)].

(** The fields of the metadata feature (lines 664-689). *)
Definition metadata_fields (tileId nBlockXOff nBlockYOff nReqXSize nReqYSize : Z)
  : MetadataFields :=
  {| source_name := Description poSrcDS;
     tile_id := tileId;
     width := nReqXSize;
     height := nReqYSize;
     pixel_x_size := gt1 adfGeoTransform;
     pixel_y_size := (- gt5 adfGeoTransform)%float;
     geometry := rectangle (block_minx nBlockXOff) (block_miny nBlockYOff nReqYSize)
                   (block_maxx nBlockXOff nReqXSize) (block_maxy nBlockYOff) |}.

(** The metadata feature of lines 662-689. *)
Definition metadata_feature (nRasterID tileId nBlockXOff nBlockYOff nReqXSize nReqYSize : Z)
  : Feature :=
  {| FID := nRasterID;
     fields := MetaFields
                 (metadata_fields tileId nBlockXOff nBlockYOff nReqXSize nReqYSize) |}.

Definition set_err (st : LoopState) (e : CPLErr) : LoopState :=
  {| ls_world := ls_world st; eErr := e; nTileId := nTileId st; nBlocks := nBlocks st |}.

Definition progress_fraction (blocks : Z) : double :=
  (1 * double_of_int blocks / double_of_int nTotalBlocks)%float.

(** One pass through the body of the inner loop (lines 587-699), entered
    with [eErr = CE_None]. Every [break] of the body leaves with [eErr]
    other than [CE_None], which also ends both loops. *)
Definition tile_block (nBlockYOff nBlockXOff : Z) (st : LoopState) : LoopState :=
  let nReqXSize := req_size nBlockXOff nBlockXSize nXSize in
  let nReqYSize := req_size nBlockYOff nBlockYSize nYSize in
  let '(err, buffer) :=
    RasterIO poSrcDS (int_mul nBlockXOff nBlockXSize) (int_mul nBlockYOff nBlockYSize)
      nReqXSize nReqYSize in
  if negb (CPLErr_eqb err CE_None) then set_err st err
  else
    let poMEMDS := {| mem_xsize := nReqXSize; mem_ysize := nReqYSize;
                      mem_bands := nBands; mem_type_size := nDataTypeSize;
                      mem_buffer := buffer |} in
    match TileCreateCopy env pszDriverName papszTileDriverOptions poMEMDS with
    | None => set_err st CE_Failure
    | Some pabyData =>
        let hFeat := {| FID := OGRNullFID; fields := RasterFields pabyData |} in
        let '(w, ok, fid) := OGR_L_CreateFeature env hDS osRasterLayer hFeat (ls_world st) in
        let nRasterID := wrap32 fid in
        if negb ok then
          {| ls_world := w; eErr := CE_Failure; nTileId := nTileId st; nBlocks := nBlocks st |}
        else
          let hFeat := metadata_feature nRasterID (nTileId st) nBlockXOff nBlockYOff
                         nReqXSize nReqYSize in
          let '(w, ok, _) := OGR_L_CreateFeature env hDS osMetadataLayer hFeat w in
          let e := if ok then CE_None else CE_Failure in
          let blocks := int_add (nBlocks st) 1 in
          let e :=
            match pfnProgress with
            | Some f => if f (progress_fraction blocks) then e else CE_Failure
            | None => e
            end in
          {| ls_world := w; eErr := e; nTileId := int_add (nTileId st) 1; nBlocks := blocks |}
    end.

(** The inner loop from [nBlockXOff] on; [n] bounds the passes left
    ([nXBlocks - nBlockXOff] of them are enough). *)
Fixpoint for_x (n : nat) (nBlockYOff nBlockXOff : Z) (st : LoopState) : LoopState :=
  match n with
  | O => st
  | S n' =>
      if CPLErr_eqb (eErr st) CE_None && (nBlockXOff <? nXBlocks)
      then for_x n' nBlockYOff (int_add nBlockXOff 1) (tile_block nBlockYOff nBlockXOff st)
      else st
  end.

(** The outer loop from [nBlockYOff] on. *)
Fixpoint for_y (n : nat) (nBlockYOff : Z) (st : LoopState) : LoopState :=
  match n with
  | O => st
  | S n' =>
      if CPLErr_eqb (eErr st) CE_None && (nBlockYOff <? nYBlocks)
      then for_y n' (int_add nBlockYOff 1) (for_x (Z.to_nat nXBlocks) nBlockYOff 0 st)
      else st
  end.

Definition block_loop (w : World) : LoopState :=
  for_y (Z.to_nat nYBlocks) 0
    {| ls_world := w; eErr := CE_None; nTileId := 0; nBlocks := 0 |}.

(** Lines 579-719: the transaction around the loop, the close and the
    value returned. *)
Definition insert_tiles (pszFilename : string) (w : World) : World * option string :=
  let '(w, _) := GDALDatasetExecuteSQL env hDS Begin w in
  let st := block_loop w in
  let '(w, _) :=
    if CPLErr_eqb (eErr st) CE_None
    then GDALDatasetExecuteSQL env hDS Commit (ls_world st)
    else GDALDatasetExecuteSQL env hDS Rollback (ls_world st) in
  let w := GDALClose hDS w in
  if CPLErr_eqb (eErr st) CE_Failure then (w, None)
  else (w, if GDALOpen env pszFilename then Some pszFilename else None).

(** *** Vocabulary for the properties of the loop *)

(** One guarded pass: what an iteration of the inner loop does from a
    state, its condition on [eErr] included. *)
Definition step (st : LoopState) (b : Z * Z) : LoopState :=
  if CPLErr_eqb (eErr st) CE_None then tile_block (snd b) (fst b) st else st.

(** Every step of the pass for the block at ([nBlockXOff], [nBlockYOff])
    succeeds from [st]: the window read, the encoding, the insertion of
    the raster row, the insertion of the metadata row, and the progress
    callback (when there is one) does not ask to stop. *)
Definition block_succeeds (nBlockYOff nBlockXOff : Z) (st : LoopState) : Prop :=
  let nReqXSize := req_size nBlockXOff nBlockXSize nXSize in
  let nReqYSize := req_size nBlockYOff nBlockYSize nYSize in
  exists buffer pabyData w1 fid w2 fid2,
    RasterIO poSrcDS (int_mul nBlockXOff nBlockXSize) (int_mul nBlockYOff nBlockYSize)
      nReqXSize nReqYSize = (CE_None, buffer) /\
    TileCreateCopy env pszDriverName papszTileDriverOptions
      {| mem_xsize := nReqXSize; mem_ysize := nReqYSize; mem_bands := nBands;
         mem_type_size := nDataTypeSize; mem_buffer := buffer |} = Some pabyData /\
    OGR_L_CreateFeature env hDS osRasterLayer
      {| FID := OGRNullFID; fields := RasterFields pabyData |} (ls_world st)
      = (w1, true, fid) /\
    OGR_L_CreateFeature env hDS osMetadataLayer
      (metadata_feature (wrap32 fid) (nTileId st) nBlockXOff nBlockYOff nReqXSize nReqYSize)
      w1 = (w2, true, fid2) /\
    (forall f, pfnProgress = Some f ->
               f (progress_fraction (int_add (nBlocks st) 1)) = true).

(** Every step of every pass over the blocks [bs], taken in order from
    [st], succeeds. *)
Fixpoint run_succeeds (bs : list (Z * Z)) (st : LoopState) : Prop :=
  match bs with
  | [] => True
  | b :: r => block_succeeds (snd b) (fst b) st /\ run_succeeds r (tile_block (snd b) (fst b) st)
  end.

(** The metadata row of the block at ([x], [y]) under tile number [tid]. *)
Definition block_row (tid x y : Z) (f : Feature) : Prop :=
  fields f = MetaFields (metadata_fields tid x y (req_size x nBlockXSize nXSize)
                           (req_size y nBlockYSize nYSize)).

(** What one pass leaves: nothing logged, the transaction as it was,
    other files as they were, and at most one new metadata row, which
    is the one of the block; a pass that ends well added it and counted
    the tile. *)
Record pass_effect (y x : Z) (st st' : LoopState) : Prop := {
  pe_txn : txn (ls_world st') = txn (ls_world st);
  pe_log : log (ls_world st') = log (ls_world st);
  pe_files : forall p w0, hDS = Some p ->
               same_files_but p w0 (ls_world st) -> same_files_but p w0 (ls_world st');
  pe_store : is_Some (store_of (ls_world st) hDS) -> is_Some (store_of (ls_world st') hDS);
  pe_rows : osRasterLayer <> osMetadataLayer ->
            exists l, table_rows (ls_world st') hDS osMetadataLayer
                      = table_rows (ls_world st) hDS osMetadataLayer ++ l /\
                      (l = [] \/ exists f, l = [f] /\ block_row (nTileId st) x y f) /\
                      (eErr st' = CE_None -> l <> []);
  pe_count : eErr st' = CE_None -> nTileId st' = int_add (nTileId st) 1;
  pe_err : eErr st' = CE_None \/ eErr st' = CE_Failure \/
           exists a b c d, eErr st' = fst (RasterIO poSrcDS a b c d);
  pe_ok : eErr st' = CE_None <-> block_succeeds y x st
}.

(** The error class a run can end with. *)
Definition outcome (e : CPLErr) : Prop :=
  e = CE_None \/ e = CE_Failure \/ exists a b c d, e = fst (RasterIO poSrcDS a b c d).

End TileLoop.

(** *** The geotransform (lines 350-365): [None] is the early return. *)

Definition identity_geotransform : GeoTransform :=
  {| gt0 := 0%float; gt1 := 1%float; gt2 := 0%float;
     gt3 := 0%float; gt4 := 0%float; gt5 := (-1)%float |}.

Definition has_rotation (g : GeoTransform) : bool :=
  negb (PrimFloat.eqb (gt2 g) 0) || negb (PrimFloat.eqb (gt4 g) 0).

Definition source_geotransform (poSrcDS : SrcDS) : option GeoTransform :=
  match GetGeoTransform poSrcDS with
  | None => Some identity_geotransform
  | Some g => if has_rotation g then None else Some g
  end.

(** *** From the open store to the transaction (lines 483-577) *)

Definition ingest (env : Env) (pszFilename : string) (poSrcDS : SrcDS)
  (papszOptions : list string) (pfnProgress : option (double -> bool))
  (pszDriverName : string) (adfGeoTransform : GeoTransform)
  (nBlockXSize nBlockYSize : Z) (osTableName : string) (hDS : GDALDatasetH) (w : World)
  : World * option string :=
  let nBands := RasterCount poSrcDS in
  let nXSize := RasterXSize poSrcDS in
  let nYSize := RasterYSize poSrcDS in
  let osRasterLayer := rasters_of osTableName in
  let osMetadataLayer := metadata_of osTableName in
  let '(w, nSRSId) := RasterliteInsertSRID env hDS (GetProjectionRef poSrcDS) w in
  let bWipeExistingData := CPLTestBool (CSLFetchNameValueDef papszOptions "WIPE" "NO") in
  let '(w, hDS) := RasterliteCreateTables env hDS osTableName nSRSId bWipeExistingData w in
  match hDS with
  | None => (w, None)
  | Some _ =>
      if negb (GDALDatasetGetLayerByName hDS osRasterLayer w)
         || negb (GDALDatasetGetLayerByName hDS osMetadataLayer w)
      then
        let w := CPLError CE_Failure missing_tables_message w in
        (GDALClose hDS w, None)
      else
        let w := warn_overlaps env hDS osTableName adfGeoTransform nXSize nYSize w in
        let nXBlocks := block_count nXSize nBlockXSize in
        let nYBlocks := block_count nYSize nBlockYSize in
        let nDataTypeSize := int_div (DataTypeSize poSrcDS) 8 in
        if negb (VSIMalloc3 env nBlockXSize nBlockYSize (int_mul nBands nDataTypeSize))
        then (GDALClose hDS w, None)
        else
          let nTotalBlocks := int_mul nXBlocks nYBlocks in
          let '(w, papszTileDriverOptions) := RasterliteGetTileDriverOptions papszOptions w in
          insert_tiles env poSrcDS hDS pszDriverName papszTileDriverOptions
            osRasterLayer osMetadataLayer adfGeoTransform nBands nDataTypeSize
            nXSize nYSize nBlockXSize nBlockYSize nXBlocks nYBlocks nTotalBlocks
            pfnProgress pszFilename w
  end.

(** *** The whole operation *)

Definition RasterliteCreateCopy (env : Env) (pszFilename : string) (poSrcDS : SrcDS)
  (papszOptions : list string) (pfnProgress : option (double -> bool)) (w : World)
  : World * option string :=
  let nBands := RasterCount poSrcDS in
  if nBands =? 0 then (CPLError CE_Failure "nBands == 0" w, None)
  else
    let pszDriverName := CSLFetchNameValueDef papszOptions "DRIVER" "GTiff" in
    if EQUAL pszDriverName "MEM" || EQUAL pszDriverName "VRT" then
      (CPLError CE_Failure
         ("GDAL " ++ pszDriverName ++ " driver cannot be used as underlying driver")%string w,
       None)
    else if negb (GDALGetDriverByName env pszDriverName) then
      (CPLError CE_Failure ("Cannot load GDAL " ++ pszDriverName ++ " driver")%string w, None)
    else if negb (GDALGetDriverByName env "MEM") then
      (CPLError CE_Failure "Cannot load GDAL MEM driver" w, None)
    else
      let nXSize := RasterXSize poSrcDS in
      let nYSize := RasterYSize poSrcDS in
      match source_geotransform poSrcDS with
      | None =>
          (CPLError CE_Failure "Cannot use geotransform with rotational terms" w, None)
      | Some adfGeoTransform =>
          let '(nBlockXSize, nBlockYSize) := block_size papszOptions nXSize nYSize in
          match analyze_filename pszFilename w with
          | (w, None) => (w, None)
          | (w, Some (osDBName, osTableName, bExists)) =>
              match open_store env osDBName bExists w with
              | (w, None) => (w, None)
              | (w, Some p) =>
                  ingest env pszFilename poSrcDS papszOptions pfnProgress pszDriverName
                    adfGeoTransform nBlockXSize nBlockYSize osTableName (Some p) w
              end
          end
      end.

(** The checks of lines 315-365 let the source and the options through:
    there is a band, the tile driver is neither MEM nor VRT, it and the
    MEM driver are registered, and the geotransform has no rotation. *)
Definition accepted (env : Env) (poSrcDS : SrcDS) (papszOptions : list string) : Prop :=
  let pszDriverName := CSLFetchNameValueDef papszOptions "DRIVER" "GTiff" in
  RasterCount poSrcDS <> 0 /\
  EQUAL pszDriverName "MEM" = false /\
  EQUAL pszDriverName "VRT" = false /\
  GDALGetDriverByName env pszDriverName = true /\
  GDALGetDriverByName env "MEM" = true /\
  is_Some (source_geotransform poSrcDS).

(** The store path a specifier names: [osDBName] of lines 405-413. *)
Definition store_path (pszFilename : string) : string :=
  match CSLTokenizeStringComplex (without_prefix pszFilename) with
  | [] => without_prefix pszFilename
  | t0 :: _ => t0
  end.

(** The SRID the table of geometry columns binds a table to: the one
    of the first row for it. *)
Definition bound_srid (name : string) (g : list (string * Z)) : option Z :=
  head (map snd (filter (fun q => fst q = name) g)).

(** An event that neither creates a store or a table nor belongs to the
    transaction of the tiles. *)
Definition setup_event (e : Event) : Prop :=
  match e with
  | EvSQL Begin | EvSQL Commit | EvSQL Rollback
  | EvSQL (CreateRastersTable _) | EvSQL (CreateMetadataTable _)
  | EvCreate _ => False
  | _ => True
  end.

(** No token gives a table name. *)
Definition no_table_token (tokens : list string) : Prop :=
  Forall (fun t => STARTS_WITH_CI t "table=" = false) tokens.

(** The ceiling of [a / b], by the usual identity with the floor. *)
Definition ceil_div (a b : Z) : Z := - ((- a) / b).

(** The transaction of [w'] was committed, or rolled back, since [w]:
    what was logged since is the [BEGIN], the [COMMIT] or [ROLLBACK],
    and the closing of the store. *)
Definition committed (w w' : World) : Prop :=
  exists e, log w' = e :: EvSQL Commit :: EvSQL Begin :: log w.

Definition rolled_back (w w' : World) : Prop :=
  exists e, log w' = e :: EvSQL Rollback :: EvSQL Begin :: log w.

(** The world whose store at [p] holds [d], with transaction snapshot
    [t], log [l], and the files [m] elsewhere. *)
Definition opened (p : string) (d : Data) (t : option Data) (l : list Event)
  (m : gmap string File) : World :=
  {| fs := <[p := SQLiteDB d]> m; txn := t; log := l |}.

(** The row [RasterliteInsertSRID] inserts (lines 135-147). *)
Definition new_srs_row (code : Z) (name projcs proj4 : string) : SrsRow :=
  {| srid := code; auth_name := name; auth_srid := code;
     ref_sys_name := if string_empty projcs then None else Some projcs;
     proj4text := proj4 |}.

(** *** Vocabulary for the properties of the stages *)

(** The table a [CREATE TABLE] leaves. *)
Definition new_table : Table := {| seq := 0; rows := [] |}.

(** The entry of the tile driver options an option given by the caller
    becomes, under the name the tile driver knows it by. *)
Definition forwarded (name : string) (value : option string) : list string :=
  match value with
  | Some v => [(name ++ "=" ++ v)%string]
  | None => []
  end.

(** The warning logged for an option that is given and that the tile
    driver does not take. *)
Definition warned (papszOptions : list string) (name : string) : list Event :=
  match CSLFetchNameValue papszOptions name with
  | Some _ =>
      [EvError CE_Warning
         (unexpected_option name (CSLFetchNameValueDef papszOptions "DRIVER" "GTiff"))]
  | None => []
  end.

(** The last identifier the table [layer] of the store behind [hDS]
    gave out. *)
Definition table_seq (w : World) (hDS : GDALDatasetH) (layer : string) : option Z :=
  store_of w hDS ≫= fun d => seq <$> tables d !! layer.

(** The statement of the overlap advisory (lines 516-529): the extent
    of the whole raster and its pixel size. *)
Definition overlap_query (osTableName : string) (g : GeoTransform) (nXSize nYSize : Z) : Stmt :=
  SelectOverlapCount (metadata_of osTableName) osTableName
    (gt0 g) (gt3 g + double_of_int nYSize * gt5 g)%float
    (gt0 g + double_of_int nXSize * gt1 g)%float (gt3 g)
    (gt1 g) (- gt5 g)%float.

(** The collaborators of the loop never fail: every window read gives
    [CE_None], the codec encodes every tile, the store accepts every
    row, and the progress callback (when there is one) never asks to
    stop. *)
Definition cooperative (env : Env) (poSrcDS : SrcDS)
  (pfnProgress : option (double -> bool)) : Prop :=
  (forall a b c e, fst (RasterIO poSrcDS a b c e) = CE_None) /\
  (forall drv opts m, is_Some (TileCreateCopy env drv opts m)) /\
  (forall layer t f, CreateFeatureOK env layer t f = true) /\
  (forall f x, pfnProgress = Some f -> f x = true).

(** [w'] is [w] with events of setup logged since: no file and no
    transaction has changed. *)
Definition log_only (w w' : World) : Prop :=
  fs w' = fs w /\ txn w' = txn w /\
  exists new, log w' = new ++ log w /\ Forall setup_event new.

(** The rows of the table [layer] in the data of a store; a table that
    is not there has none. *)
Definition rows_in (d : Data) (layer : string) : list Feature :=
  match tables d !! layer with
  | Some t => rows t
  | None => []
  end.

(** The run reaches the transaction of the tiles: the schema manager
    has returned a handle, the two layers are found (lines 501-511) and
    the tile buffer is allocated (lines 561-568). *)
Definition reaches_transaction (env : Env) (poSrcDS : SrcDS) (nBlockXSize nBlockYSize : Z)
  (osTableName : string) (prepared : World * GDALDatasetH) : Prop :=
  snd prepared <> None /\
  GDALDatasetGetLayerByName (snd prepared) (rasters_of osTableName) (fst prepared) = true /\
  GDALDatasetGetLayerByName (snd prepared) (metadata_of osTableName) (fst prepared) = true /\
  VSIMalloc3 env nBlockXSize nBlockYSize
    (int_mul (RasterCount poSrcDS) (int_div (DataTypeSize poSrcDS) 8)) = true.

(** * The GPSBabel data source

    [ogr/ogrsf_frmts/gpsbabel/ogrgpsbabeldatasource.cpp]: a data source
    that runs the [gpsbabel] program on a file or a device and reads the
    GPX it writes. The child process, the tokenizer, the configuration
    and the GPX reader are answers of the environment; the class has its
    fields in a record, threaded through the calls. *)

Module GPSBabel.

(** [STARTS_WITH(a, b)]: [strncmp(a, b, strlen(b)) == 0]. *)
Definition STARTS_WITH (a b : string) : bool := String.prefix b a.

(** [strchr(s, c)] as the offset of the first [c] in [s]. *)
Fixpoint strchr_from (i : nat) (l : list ascii) (c : ascii) : option nat :=
  match l with
  | [] => None
  | x :: r => if Ascii.eqb x c then Some i else strchr_from (S i) r c
  end.

Definition strchr (s : string) (c : ascii) : option nat := strchr_from 0 (chars s) c.

(** [strstr(s, needle) != nullptr]. *)
Definition contains (s needle : string) : bool :=
  match String.index 0 needle s with
  | Some _ => true
  | None => false
  end.

Inductive CPLErrorNum := CPLE_AppDefined | CPLE_NotSupported | CPLE_Other (n : Z).

(** A layer of the GPX dataset, as far as the source looks at it. *)
Record OGRLayer := { GetFeatureCount : Z }.

Record GDALDataset := { GetLayerByName : string -> option OGRLayer }.

Inductive Event :=
| EvError (eErrClass : CPLErr) (err_no : CPLErrorNum) (msg : string)
| EvSpawn (argv : list string) (fin : option string) (fout : string)
| EvClose
| EvUnlink (path : string).

(** The files by path (memory files included), the last error the
    error machinery recorded, and what was reported and run. *)
Record World := {
  files : gmap string (list ascii);
  last_error : CPLErr * CPLErrorNum * string;
  log : list Event
}.

(** The answers of what the file does not define. A child process is
    its status (whether it is 0), what it wrote on its output, and the
    error the spawning reported, if any. *)
Record Env := {
  CSLTokenizeString : string -> list string;
  CPLGetConfigOption : string -> option string;
  CPLGenerateTempFilenameSafe : string;
  VSIMemGenerateHiddenFilename : string -> string;
  VSIStat : string -> bool;
  CPLSpawn : list string -> option (list ascii)
             -> bool * list ascii * option (CPLErr * CPLErrorNum * string);
  GDALOpenEx : list ascii -> option GDALDataset
}.

(** The fields of [OGRGPSBabelDataSource]; [apoLayers] is the array and
    [nLayers] the number of its slots in use. *)
Record OGRGPSBabelDataSource := {
  pszGPSBabelDriverName : option string;
  pszFilename : option string;
  osTmpFileName : string;
  poGPXDS : option GDALDataset;
  apoLayers : list (option OGRLayer);
  nLayers : Z
}.

Definition CPLError (c : CPLErr) (n : CPLErrorNum) (msg : string) (w : World) : World :=
  {| files := files w; last_error := (c, n, msg); log := EvError c n msg :: log w |}.

Definition emit (e : Event) (w : World) : World :=
  {| files := files w; last_error := last_error w; log := e :: log w |}.

Definition set_driver (st : OGRGPSBabelDataSource) (v : option string) :=
  {| pszGPSBabelDriverName := v; pszFilename := pszFilename st;
     osTmpFileName := osTmpFileName st; poGPXDS := poGPXDS st;
     apoLayers := apoLayers st; nLayers := nLayers st |}.

Definition set_filename (st : OGRGPSBabelDataSource) (v : option string) :=
  {| pszGPSBabelDriverName := pszGPSBabelDriverName st; pszFilename := v;
     osTmpFileName := osTmpFileName st; poGPXDS := poGPXDS st;
     apoLayers := apoLayers st; nLayers := nLayers st |}.

Definition set_tmp (st : OGRGPSBabelDataSource) (v : string) :=
  {| pszGPSBabelDriverName := pszGPSBabelDriverName st; pszFilename := pszFilename st;
     osTmpFileName := v; poGPXDS := poGPXDS st;
     apoLayers := apoLayers st; nLayers := nLayers st |}.

Definition set_dataset (st : OGRGPSBabelDataSource) (v : option GDALDataset) :=
  {| pszGPSBabelDriverName := pszGPSBabelDriverName st; pszFilename := pszFilename st;
     osTmpFileName := osTmpFileName st; poGPXDS := v;
     apoLayers := apoLayers st; nLayers := nLayers st |}.

(** ** CloseDependentDatasets (lines 50-58) *)

Definition CloseDependentDatasets (st : OGRGPSBabelDataSource) (w : World)
  : World * OGRGPSBabelDataSource * bool :=
  match poGPXDS st with
  | None => (w, st, false)
  | Some _ => (emit EvClose w, set_dataset st None, true)
  end.

(** ** The destructor (lines 34-44) *)

Definition VSIUnlink (path : string) (w : World) : World :=
  {| files := delete path (files w); last_error := last_error w;
     log := EvUnlink path :: log w |}.

Definition destroy (st : OGRGPSBabelDataSource) (w : World) : World :=
  let '(w, st, _) := CloseDependentDatasets st w in
  if negb (string_empty (osTmpFileName st)) then VSIUnlink (osTmpFileName st) w else w.

(** ** GetArgv (lines 64-88) *)

Definition GetArgv (bExplicitFeatures bWaypoints bRoutes bTracks : bool)
  (pszGPSBabelDriverName pszFilename : string) : list string :=
  let argv := ["gpsbabel"] in
  let argv :=
    if bExplicitFeatures then
      let argv := if bWaypoints then argv ++ ["-w"] else argv in
      let argv := if bRoutes then argv ++ ["-r"] else argv in
      if bTracks then argv ++ ["-t"] else argv
    else argv in
  argv ++ ["-i"; pszGPSBabelDriverName; "-f"; pszFilename; "-o"; "gpx,gpxver=1.1"; "-F"; "-"].

(** ** IsSpecialFile (lines 94-99) *)

Definition IsSpecialFile (pszFilename : string) : bool :=
  STARTS_WITH pszFilename "/dev/" || STARTS_WITH pszFilename "usb:" ||
  (STARTS_WITH pszFilename "COM" && (atoi (skip 3 pszFilename) >? 0)).

(** ** IsValidDriverName (lines 105-120) *)

Definition between (lo hi ch : ascii) : bool :=
  (nat_of_ascii lo <=? nat_of_ascii ch)%nat && (nat_of_ascii ch <=? nat_of_ascii hi)%nat.

(** The condition of lines 110-112 on a [char] (a character above 127
    is below every bound as a signed [char], and above ["z"] as an
    unsigned one). *)
Definition valid_char (ch : ascii) : bool :=
  between "A" "Z" ch || between "a" "z" ch || between "0" "9" ch ||
  Ascii.eqb ch "_" || Ascii.eqb ch "=" || Ascii.eqb ch "." || Ascii.eqb ch ",".

Fixpoint valid_from (l : list ascii) (w : World) : World * bool :=
  match l with
  | [] => (w, true)
  | ch :: r =>
      if negb (valid_char ch)
      then (CPLError CE_Failure CPLE_AppDefined "Invalid GPSBabel driver name" w, false)
      else valid_from r w
  end.

Definition IsValidDriverName (pszGPSBabelDriverName : string) (w : World) : World * bool :=
  valid_from (chars pszGPSBabelDriverName) w.

(** ** Open (lines 126-363) *)

Definition GPSBABEL_PREFIX : string := "GPSBABEL:".
Definition FEATURES_EQUAL : string := "features=".

(** The flags [bExplicitFeatures], [bWaypoints], [bTracks], [bRoutes]. *)
Record Features := {
  bExplicitFeatures : bool;
  bWaypoints : bool;
  bTracks : bool;
  bRoutes : bool
}.

Definition all_features : Features :=
  {| bExplicitFeatures := false; bWaypoints := true; bTracks := true; bRoutes := true |}.

(** The loop over the tokens of the [features=] list (lines 211-226);
    the last component is [bErr]. *)
Fixpoint features_loop (papszIter : list string) (f : Features) (bErr : bool) (w : World)
  : World * Features * bool :=
  match papszIter with
  | [] => (w, f, bErr)
  | tok :: r =>
      if EQUAL tok "waypoints" then
        features_loop r {| bExplicitFeatures := bExplicitFeatures f; bWaypoints := true;
                           bTracks := bTracks f; bRoutes := bRoutes f |} bErr w
      else if EQUAL tok "tracks" then
        features_loop r {| bExplicitFeatures := bExplicitFeatures f;
                           bWaypoints := bWaypoints f;
                           bTracks := true; bRoutes := bRoutes f |} bErr w
      else if EQUAL tok "routes" then
        features_loop r {| bExplicitFeatures := bExplicitFeatures f;
                           bWaypoints := bWaypoints f;
                           bTracks := bTracks f; bRoutes := true |} bErr w
      else
        features_loop r f true
          (CPLError CE_Failure CPLE_AppDefined "Wrong value for 'features' options" w)
  end.

(** The first stage (lines 131-159): the names given to the call or in
    the open options; the last component is false at [return FALSE].
    [CPLStrdup] of a null pointer is the empty string, and [CPLAssert]
    does nothing in a build without DEBUG. *)
Definition open_names (pszDatasourceName : string) (pszGPSBabelDriverNameIn : option string)
  (papszOpenOptionsIn : list string) (st : OGRGPSBabelDataSource) (w : World)
  : World * OGRGPSBabelDataSource * bool :=
  if negb (STARTS_WITH_CI pszDatasourceName GPSBABEL_PREFIX) then
    (w, set_filename (set_driver st (Some (or_empty pszGPSBabelDriverNameIn)))
          (Some pszDatasourceName), true)
  else
    let st :=
      match CSLFetchNameValue papszOpenOptionsIn "FILENAME" with
      | Some v => set_filename st (Some v)
      | None => st
      end in
    match CSLFetchNameValue papszOpenOptionsIn "GPSBABEL_DRIVER" with
    | Some _ =>
        match pszFilename st with
        | None => (CPLError CE_Failure CPLE_AppDefined "Missing FILENAME" w, st, false)
        | Some _ =>
            let name := or_empty (CSLFetchNameValue papszOpenOptionsIn "DRIVER") in
            let st := set_driver st (Some name) in
            let '(w, ok) := IsValidDriverName name w in
            (w, st, ok)
        end
    | None => (w, st, true)
    end.

(** The second stage (lines 161-238): the driver name, the features and
    the file name read off the data source name, when no driver name is
    known yet. *)
Definition open_syntax (env : Env) (pszDatasourceName : string)
  (st : OGRGPSBabelDataSource) (w : World)
  : World * OGRGPSBabelDataSource * option Features :=
  match pszGPSBabelDriverName st with
  | Some _ => (w, st, Some all_features)
  | None =>
      let pszDatasourceNameAfterPrefix :=
        skip (String.length GPSBABEL_PREFIX) pszDatasourceName in
      match strchr pszDatasourceNameAfterPrefix ":" with
      | None =>
          (CPLError CE_Failure CPLE_AppDefined
             "Wrong syntax. Expected GPSBabel:driver_name:file_name" w, st, None)
      | Some pszSep =>
          let name := String.substring 0 pszSep pszDatasourceNameAfterPrefix in
          let st := set_driver st (Some name) in
          let '(w, ok) := IsValidDriverName name w in
          if negb ok then (w, st, None)
          else
            let pszAfterSep := skip (S pszSep) pszDatasourceNameAfterPrefix in
            let parsed :=
              if STARTS_WITH_CI pszAfterSep FEATURES_EQUAL then
                let pszAfterFeaturesEqual :=
                  skip (String.length FEATURES_EQUAL) pszAfterSep in
                match strchr pszAfterFeaturesEqual ":" with
                | None =>
                    (CPLError CE_Failure CPLE_AppDefined
                       ("Wrong syntax. Expected " ++
                        "GPSBabel:driver_name[,options]*:[" ++
                        "features=waypoints,tracks,routes:]file_name") w, None)
                | Some pszNextSep =>
                    let pszFeatures := String.substring 0 pszNextSep pszAfterFeaturesEqual in
                    let '(w, f, bErr) :=
                      features_loop (CSLTokenizeString env pszFeatures)
                        {| bExplicitFeatures := true; bWaypoints := false;
                           bTracks := false; bRoutes := false |} false w in
                    if bErr then (w, None)
                    else (w, Some (f, skip (S pszNextSep) pszAfterFeaturesEqual))
                end
              else (w, Some (all_features, pszAfterSep)) in
            match parsed with
            | (w, None) => (w, st, None)
            | (w, Some (f, pszAfterSep)) =>
                match pszFilename st with
                | None => (w, set_filename st (Some pszAfterSep), Some f)
                | Some _ => (w, st, Some f)
                end
            end
      end
  end.

(** [osTmpFileName] (lines 240-245). *)
Definition temp_name (env : Env) : string :=
  match CPLGetConfigOption env "USE_TEMPFILE" with
  | Some v =>
      if CPLTestBool v then CPLGenerateTempFilenameSafe env
      else VSIMemGenerateHiddenFilename env "gpsbabel"
  | None => VSIMemGenerateHiddenFilename env "gpsbabel"
  end.

(** [VSIFOpenL(tmp, "wb")], [CPLSpawn(argv, fin, tmpfp, TRUE) == 0] and
    the two [VSIFCloseL]: the output file is created empty and receives
    what the process writes. With the quiet handler installed an error
    of the spawning is recorded and not reported. *)
Definition spawn (env : Env) (quiet : bool) (argv : list string) (fin : option string)
  (tmp : string) (w : World) : World * bool :=
  let '(status, output, err) := CPLSpawn env argv (fin ≫= fun f => files w !! f) in
  let w := {| files := <[tmp := output]> (files w); last_error := last_error w;
              log := EvSpawn argv fin tmp :: log w |} in
  match err with
  | Some (c, n, msg) =>
      if quiet
      then ({| files := files w; last_error := (c, n, msg); log := log w |}, status)
      else (CPLError c n msg w, status)
  | None => (w, status)
  end.

(** The conversion (lines 247-325): [None] is [return FALSE], otherwise
    [bRet]. *)
Definition convert (env : Env) (f : Features) (driver filename tmp : string) (w : World)
  : World * option bool :=
  let argv_for := GetArgv (bExplicitFeatures f) (bWaypoints f) (bRoutes f) (bTracks f) driver in
  if IsSpecialFile filename then
    let '(w, bRet) := spawn env false (argv_for filename) None tmp w in
    (w, Some bRet)
  else
    match files w !! filename with
    | None =>
        (CPLError CE_Failure CPLE_AppDefined ("Cannot open file " ++ filename) w, None)
    | Some _ =>
        let '(w, bRet) := spawn env true (argv_for "-") (Some filename) tmp w in
        let '(nLastErrorType, nLastErrorNo, osLastErrorMsg) := last_error w in
        if negb bRet then
          if negb (contains osLastErrorMsg "This format cannot be used in piped commands")
          then (CPLError nLastErrorType nLastErrorNo osLastErrorMsg w, Some bRet)
          else if negb (VSIStat env filename) then
            (CPLError CE_Failure CPLE_NotSupported
               ("Driver " ++ driver ++ " only supports real (non virtual) files") w, None)
          else
            let '(w, bRet) := spawn env false (argv_for filename) None tmp w in
            (w, Some bRet)
        else (w, Some bRet)
    end.

(** [apoLayers[nLayers++] = poLayer]; a slot outside the array is
    undefined in C++, the model then leaves the array as it is. *)
Definition push_layer (poLayer : OGRLayer) (st : OGRGPSBabelDataSource)
  : OGRGPSBabelDataSource :=
  {| pszGPSBabelDriverName := pszGPSBabelDriverName st; pszFilename := pszFilename st;
     osTmpFileName := osTmpFileName st; poGPXDS := poGPXDS st;
     apoLayers :=
       if (0 <=? nLayers st) && (nLayers st <? Z.of_nat (length (apoLayers st)))
       then <[Z.to_nat (nLayers st) := Some poLayer]> (apoLayers st)
       else apoLayers st;
     nLayers := int_add (nLayers st) 1 |}.

(** One [GetLayerByName] with its test (lines 335-337 and alike). *)
Definition take_layer (ds : GDALDataset) (name : string) (st : OGRGPSBabelDataSource)
  : OGRGPSBabelDataSource :=
  match GetLayerByName ds name with
  | Some poLayer => if negb (GetFeatureCount poLayer =? 0) then push_layer poLayer st else st
  | None => st
  end.

(** The layers taken from the GPX dataset (lines 333-358). *)
Definition take_layers (ds : GDALDataset) (f : Features) (st : OGRGPSBabelDataSource)
  : OGRGPSBabelDataSource :=
  let st := if bWaypoints f then take_layer ds "waypoints" st else st in
  let st := if bRoutes f
            then take_layer ds "route_points" (take_layer ds "routes" st) else st in
  if bTracks f then take_layer ds "track_points" (take_layer ds "tracks" st) else st.

(** The third stage (lines 240-362): the temporary file, the conversion
    and the layers. The result is [None] where the source passes a null
    [pszGPSBabelDriverName] or [pszFilename] on, which is undefined. *)
Definition open_run (env : Env) (f : Features) (st : OGRGPSBabelDataSource) (w : World)
  : World * OGRGPSBabelDataSource * option bool :=
  let st := set_tmp st (temp_name env) in
  match pszGPSBabelDriverName st, pszFilename st with
  | Some driver, Some filename =>
      match convert env f driver filename (osTmpFileName st) w with
      | (w, None) => (w, st, Some false)
      | (w, Some bRet) =>
          let st :=
            if bRet then
              let st := set_dataset st (files w !! osTmpFileName st ≫= GDALOpenEx env) in
              match poGPXDS st with
              | Some ds => take_layers ds f st
              | None => st
              end
            else st in
          (w, st, Some (0 <? nLayers st))
      end
  | _, _ => (w, st, None)
  end.

Definition Open (env : Env) (pszDatasourceName : string)
  (pszGPSBabelDriverNameIn : option string) (papszOpenOptionsIn : list string)
  (st : OGRGPSBabelDataSource) (w : World)
  : World * OGRGPSBabelDataSource * option bool :=
  let '(w, st, ok) := open_names pszDatasourceName pszGPSBabelDriverNameIn
                        papszOpenOptionsIn st w in
  if negb ok then (w, st, Some false)
  else
    match open_syntax env pszDatasourceName st w with
    | (w, st, None) => (w, st, Some false)
    | (w, st, Some f) => open_run env f st w
    end.

(** ** GetLayer (lines 369-376)

    A slot of [apoLayers] outside the array cannot be read in C++; the
    model gives no layer there. *)

Definition GetLayer (st : OGRGPSBabelDataSource) (iLayer : Z) : option OGRLayer :=
  if (iLayer <? 0) || (iLayer >=? nLayers st) then None
  else mjoin (apoLayers st !! Z.to_nat iLayer).

(** ** Vocabulary *)

(** A data source that has not been opened: no name, no temporary file,
    no dataset, no layer, and five slots in [apoLayers]. The constructor
    of lines 26-28 has an empty body, so these are the values the
    declaration of the class in [ogr_gpsbabel.h] has to give the
    members; the theorems take them as a hypothesis. *)
Definition fresh (st : OGRGPSBabelDataSource) : Prop :=
  pszGPSBabelDriverName st = None /\ pszFilename st = None /\
  osTmpFileName st = "" /\ poGPXDS st = None /\
  nLayers st = 0 /\ length (apoLayers st) = 5%nat.

(** The slots of [apoLayers] in use. *)
Definition exposed (st : OGRGPSBabelDataSource) : list (option OGRLayer) :=
  take (Z.to_nat (nLayers st)) (apoLayers st).

(** A slot in use holds a layer that has features. *)
Definition has_features (slot : option OGRLayer) : Prop :=
  exists poLayer, slot = Some poLayer /\ GetFeatureCount poLayer <> 0.

(** The first [k] slots are in use and hold layers with features. *)
Definition layers_ok (k : nat) (st : OGRGPSBabelDataSource) : Prop :=
  nLayers st = Z.of_nat k /\ length (apoLayers st) = 5%nat /\
  Forall has_features (take k (apoLayers st)).

Definition is_error (e : Event) : Prop :=
  match e with EvError _ _ _ => True | _ => False end.

(** [w'] is [w] with errors reported since. *)
Definition reported (w w' : World) : Prop :=
  files w' = files w /\ exists new, log w' = new ++ log w /\ Forall is_error new.

(** The temporary file name, the dataset and the layers of [st'] are
    those of [st]. *)
Definition same_layers (st st' : OGRGPSBabelDataSource) : Prop :=
  osTmpFileName st' = osTmpFileName st /\ poGPXDS st' = poGPXDS st /\
  apoLayers st' = apoLayers st /\ nLayers st' = nLayers st.

(** An event of the conversion: an error, or a process run on the
    command line [GetArgv] builds for the features and the driver, with
    its output in [tmp]. *)
Definition conversion_event (f : Features) (driver tmp : string) (e : Event) : Prop :=
  match e with
  | EvError _ _ _ => True
  | EvSpawn argv fin fout =>
      fout = tmp /\
      exists file, argv = GetArgv (bExplicitFeatures f) (bWaypoints f) (bRoutes f)
                            (bTracks f) driver file
  | _ => False
  end.

(** A token of the [features=] list that names a class of features. *)
Definition known_feature (tok : string) : bool :=
  EQUAL tok "waypoints" || EQUAL tok "tracks" || EQUAL tok "routes".

(** The features a list of tokens asks for. *)
Definition requested (toks : list string) : Features :=
  {| bExplicitFeatures := true;
     bWaypoints := existsb (fun t => EQUAL t "waypoints") toks;
     bTracks := existsb (fun t => EQUAL t "tracks") toks;
     bRoutes := existsb (fun t => EQUAL t "routes") toks |}.

Definition wrong_feature : Event :=
  EvError CE_Failure CPLE_AppDefined "Wrong value for 'features' options".

(** The data source with its two names set. *)
Definition named (st : OGRGPSBabelDataSource) (driver file : string)
  : OGRGPSBabelDataSource :=
  set_filename (set_driver st (Some driver)) (Some file).

End GPSBabel.

(** ** Sample inputs

    Concrete environments, sources and worlds on which the definitions
    are run and the theorems applied. *)

Module Sample.

Definition epsg4326 : SRS :=
  {| AuthorityName := Some "EPSG"; ProjCS := None; AuthorityCode := Some "4326";
     ExportToProj4 := Some "+proj=longlat +datum=WGS84 +no_defs" |}.

(** The store a fresh [GDALCreate] leaves: an empty registry, no table. *)
Definition fresh_store : Data :=
  {| spatial_ref_sys := Some []; geometry_columns := []; tables := ∅ |}.

(** Every collaborator answers; a [SELECT] without match gives a result
    set without rows. *)
Definition env : Env := {|
  GDALGetDriverByName := fun _ => true;
  OSRNewSpatialReference := fun _ => Some epsg4326;
  GDALCreate := fun _ => Some fresh_store;
  Spatialite := true;
  EmptySelectIsNull := false;
  CountOverlaps := fun _ _ => Some [0];
  VSIMalloc3 := fun _ _ _ => true;
  TileCreateCopy := fun _ _ _ => Some [];
  CreateFeatureOK := fun _ _ _ => true;
  GDALOpen := fun _ => true |}.

(** A single-band raster of 600 by 600 pixels without geotransform. *)
Definition src : SrcDS := {|
  Description := "src.tif";
  RasterCount := 1;
  RasterXSize := 600;
  RasterYSize := 600;
  GetGeoTransform := None;
  GetProjectionRef := Some "GEOGCS";
  DataTypeSize := 8;
  RasterIO := fun _ _ _ _ => (CE_None, []) |}.

(** A raster of 100 by 100 pixels whose rows run from south to north:
    no rotation, and a positive vertical coefficient. *)
Definition south_up : SrcDS := {|
  Description := "south_up.tif";
  RasterCount := 1;
  RasterXSize := 100;
  RasterYSize := 100;
  GetGeoTransform :=
    Some {| gt0 := 0%float; gt1 := 1%float; gt2 := 0%float;
            gt3 := 0%float; gt4 := 0%float; gt5 := 1%float |};
  GetProjectionRef := None;
  DataTypeSize := 8;
  RasterIO := fun _ _ _ _ => (CE_None, []) |}.

Definition empty_table : Table := {| seq := 0; rows := [] |}.

Definition one_tile : Table :=
  {| seq := 1; rows := [{| FID := 1; fields := RasterFields [] |}] |}.

Definition no_files : World := {| fs := ∅; txn := None; log := [] |}.

Definition world_of (path : string) (d : Data) : World :=
  {| fs := <[path := SQLiteDB d]> ∅; txn := None; log := [] |}.

(** A store with the two tables of [t], empty, bound to SRID -1. *)
Definition store : Data :=
  {| spatial_ref_sys := Some [];
     geometry_columns := [("t_metadata", -1)];
     tables := <["t_rasters" := empty_table]> (<["t_metadata" := empty_table]> ∅) |}.

Definition world : World := world_of "db.sqlite" store.

(** The same, with the geometry column bound to SRID 3857. *)
Definition store_3857 : Data :=
  {| spatial_ref_sys := Some [];
     geometry_columns := [("t_metadata", 3857)];
     tables := <["t_rasters" := one_tile]> (<["t_metadata" := empty_table]> ∅) |}.

(** A store whose registry knows EPSG:4326 under SRID 4326. *)
Definition row4326 : SrsRow :=
  {| srid := 4326; auth_name := "epsg"; auth_srid := 4326;
     ref_sys_name := Some "WGS 84"; proj4text := "+proj=longlat" |}.

Definition store_4326 : Data :=
  {| spatial_ref_sys := Some [row4326]; geometry_columns := []; tables := ∅ |}.

(** A store with the raster table of [t], holding one tile, and no
    metadata table. *)
Definition store_half : Data :=
  {| spatial_ref_sys := Some [];
     geometry_columns := [];
     tables := <["t_rasters" := one_tile]> ∅ |}.

(** The loop and the transaction of the 600 by 600 raster in blocks of
    256 by 256 on the tables of [t]. *)
Definition loop (w : World) : LoopState :=
  block_loop env src (Some "db.sqlite") "GTiff" [] "t_rasters" "t_metadata"
    identity_geotransform 1 1 600 600 256 256 3 3 9 None w.

Definition transaction (w : World) : World * option string :=
  insert_tiles env src (Some "db.sqlite") "GTiff" [] "t_rasters" "t_metadata"
    identity_geotransform 1 1 600 600 256 256 3 3 9 None "db.sqlite,table=t" w.

(** A source without bands. *)
Definition no_bands : SrcDS := {|
  Description := "empty.tif";
  RasterCount := 0;
  RasterXSize := 10;
  RasterYSize := 10;
  GetGeoTransform := None;
  GetProjectionRef := None;
  DataTypeSize := 8;
  RasterIO := fun _ _ _ _ => (CE_None, []) |}.

(** The environment of [env] without spatial functions. *)
Definition env_plain : Env := {|
  GDALGetDriverByName := fun _ => true;
  OSRNewSpatialReference := fun _ => Some epsg4326;
  GDALCreate := fun _ => Some fresh_store;
  Spatialite := false;
  EmptySelectIsNull := false;
  CountOverlaps := fun _ _ => Some [0];
  VSIMalloc3 := fun _ _ _ => true;
  TileCreateCopy := fun _ _ _ => Some [];
  CreateFeatureOK := fun _ _ _ => true;
  GDALOpen := fun _ => true |}.
(** The environment of [env] with a codec that refuses the tiles 88
    pixels wide, those of the last block-column of [src] in blocks of
    256. *)
Definition env_partial : Env := {|
  GDALGetDriverByName := fun _ => true;
  OSRNewSpatialReference := fun _ => Some epsg4326;
  GDALCreate := fun _ => Some fresh_store;
  Spatialite := true;
  EmptySelectIsNull := false;
  CountOverlaps := fun _ _ => Some [0];
  VSIMalloc3 := fun _ _ _ => true;
  TileCreateCopy := fun _ _ m => if mem_xsize m =? 88 then None else Some [];
  CreateFeatureOK := fun _ _ _ => true;
  GDALOpen := fun _ => true |}.

(** The metadata row of an earlier run. *)
Definition one_metadata : Table :=
  {| seq := 1;
     rows := [{| FID := 1;
                 fields := MetaFields
                   {| source_name := "old.tif"; tile_id := 0; width := 10; height := 10;
                      pixel_x_size := 1%float; pixel_y_size := 1%float; geometry := [] |} |}] |}.

(** A store with the two tables of [t], each holding the row of an
    earlier run, bound to SRID -1. *)
Definition store_tiles : Data :=
  {| spatial_ref_sys := Some [];
     geometry_columns := [("t_metadata", -1)];
     tables := <["t_rasters" := one_tile]> (<["t_metadata" := one_metadata]> ∅) |}.

End Sample.

(** ** Sample inputs for the GPSBabel data source *)

Module GPSSample.
Import GPSBabel.

(** The words of a text between its blanks. *)
Fixpoint words (cur : list ascii) (l : list ascii) : list (list ascii) :=
  match l with
  | [] => [rev cur]
  | c :: r =>
      if Ascii.eqb c " "%char then rev cur :: words [] r
      else words (c :: cur) r
  end.

Definition tokenize (s : string) : list string :=
  map of_chars (filter (fun t => nonempty t = true) (words [] (chars s))).

(** A GPX dataset with two waypoints, a track layer without feature
    and five track points. *)
Definition gpx : GDALDataset := {|
  GetLayerByName := fun name =>
    if String.eqb name "waypoints" then Some {| GetFeatureCount := 2 |}
    else if String.eqb name "tracks" then Some {| GetFeatureCount := 0 |}
    else if String.eqb name "track_points" then Some {| GetFeatureCount := 5 |}
    else None |}.

(** Every process succeeds and writes nothing; every output reads as
    [gpx]. *)
Definition env : Env := {|
  CSLTokenizeString := tokenize;
  CPLGetConfigOption := fun _ => None;
  CPLGenerateTempFilenameSafe := "/tmp/gpsbabel_1";
  VSIMemGenerateHiddenFilename := fun s => ("/vsimem/" ++ s)%string;
  VSIStat := fun _ => true;
  CPLSpawn := fun _ _ => (true, [], None);
  GDALOpenEx := fun _ => Some gpx |}.

(** A [gpsbabel] that cannot read its input from a pipe. *)
Definition env_no_pipe : Env := {|
  CSLTokenizeString := tokenize;
  CPLGetConfigOption := fun _ => None;
  CPLGenerateTempFilenameSafe := "/tmp/gpsbabel_1";
  VSIMemGenerateHiddenFilename := fun s => ("/vsimem/" ++ s)%string;
  VSIStat := fun _ => false;
  CPLSpawn := fun _ input =>
    match input with
    | Some _ => (false, [], Some (CE_Failure, CPLE_AppDefined,
                                  "This format cannot be used in piped commands"))
    | None => (true, [], None)
    end;
  GDALOpenEx := fun _ => Some gpx |}.

Definition unopened : OGRGPSBabelDataSource := {|
  pszGPSBabelDriverName := None;
  pszFilename := None;
  osTmpFileName := "";
  poGPXDS := None;
  apoLayers := [None; None; None; None; None];
  nLayers := 0 |}.

(** A world with the file [track.txt] and nothing logged. *)
Definition world : World := {|
  files := <["track.txt" := []]> ∅;
  last_error := (CE_None, CPLE_Other 0, "");
  log := [] |}.

End GPSSample.

(** * Properties *)

(** ** Machine integers and error classes *)

Lemma wrap32_id z : in_range z -> wrap32 z = z.
Proof.
  unfold in_range, INT_MIN, INT_MAX, wrap32. intros H.
  rewrite Z.mod_small; lia.
Qed.

Lemma wrap32_range z : in_range (wrap32 z).
Proof.
  unfold in_range, INT_MIN, INT_MAX, wrap32.
  pose proof (Z.mod_pos_bound (z + 2^31) (2^32) ltac:(lia)). lia.
Qed.

Lemma CPLErr_eqb_eq a b : CPLErr_eqb a b = true <-> a = b.
Proof. destruct a, b; simpl; split; intros H; try reflexivity; discriminate. Qed.

Lemma CPLErr_eqb_neq a b : CPLErr_eqb a b = false <-> a <> b.
Proof.
  rewrite <- CPLErr_eqb_eq. destruct (CPLErr_eqb a b); split; congruence.
Qed.

(** ** The string helpers on small inputs *)

Example atoi_256 : atoi "256" = 256.
Proof. reflexivity. Qed.
Example atoi_garbage : atoi "abc" = 0.
Proof. reflexivity. Qed.
Example tokens_plain : CSLTokenizeStringComplex "a.sqlite,table=t" = ["a.sqlite"; "table=t"].
Proof. reflexivity. Qed.
Example tokens_commas : CSLTokenizeStringComplex ",," = [].
Proof. reflexivity. Qed.
Example basename_ext : CPLGetBasenameSafe "/tmp/a.b.sqlite" = "a.b".
Proof. reflexivity. Qed.
Example basename_hidden : CPLGetBasenameSafe ".hidden" = ".hidden".
Proof. reflexivity. Qed.
Example fetch_ci : CSLFetchNameValueDef ["tiled=NO"] "TILED" "YES" = "NO".
Proof. reflexivity. Qed.

(** ** Block arithmetic *)


Lemma ceil_div_bounds a b : 0 < b -> (ceil_div a b - 1) * b < a <= ceil_div a b * b.
Proof.
  intros Hb. unfold ceil_div.
  pose proof (Z.div_mod (- a) b ltac:(lia)) as Hdm.
  pose proof (Z.mod_pos_bound (- a) b Hb) as Hm.
  nia.
Qed.

Lemma ceil_div_unique a b n : 0 < b -> (n - 1) * b < a <= n * b -> n = ceil_div a b.
Proof.
  intros Hb Hn. pose proof (ceil_div_bounds a b Hb) as Hc. nia.
Qed.

Lemma ceil_div_pos a b : 0 < a -> 0 < b -> 0 < ceil_div a b.
Proof.
  intros Ha Hb. pose proof (ceil_div_bounds a b Hb) as Hc. nia.
Qed.

(** Without overflow, [block_count] is the ceiling of the quotient. *)
Lemma block_count_ceil nSize nBlockSize :
  0 < nSize -> 0 < nBlockSize -> nSize + nBlockSize <= INT_MAX ->
  block_count nSize nBlockSize = ceil_div nSize nBlockSize.
Proof.
  intros Hs Hb Hmax. unfold block_count, int_div, int_sub, int_add, INT_MAX in *.
  rewrite (wrap32_id (nSize + nBlockSize)) by (unfold in_range, INT_MIN, INT_MAX; lia).
  rewrite (wrap32_id (nSize + nBlockSize - 1)) by (unfold in_range, INT_MIN, INT_MAX; lia).
  rewrite Z.quot_div_nonneg by lia.
  assert (Hq : (nSize + nBlockSize - 1) / nBlockSize = ceil_div nSize nBlockSize).
  { apply ceil_div_unique; [lia|].
    pose proof (Z.div_mod (nSize + nBlockSize - 1) nBlockSize ltac:(lia)) as Hdm.
    pose proof (Z.mod_pos_bound (nSize + nBlockSize - 1) nBlockSize Hb) as Hm.
    nia. }
  rewrite Hq. apply wrap32_id.
  pose proof (ceil_div_bounds nSize nBlockSize Hb) as Hc.
  unfold in_range, INT_MIN, INT_MAX. nia.
Qed.

(** Without overflow, [req_size] is the block size cut at the edge. *)
Lemma req_size_clip nSize nBlockSize nBlockOff :
  0 < nSize -> 0 < nBlockSize -> nSize + nBlockSize <= INT_MAX ->
  0 <= nBlockOff < ceil_div nSize nBlockSize ->
  req_size nBlockOff nBlockSize nSize = Z.min nBlockSize (nSize - nBlockOff * nBlockSize).
Proof.
  intros Hs Hb Hmax Hoff. unfold req_size, int_mul, int_add, int_sub, INT_MAX in *.
  pose proof (ceil_div_bounds nSize nBlockSize Hb) as Hc.
  rewrite (wrap32_id (nBlockOff + 1)) by (unfold in_range, INT_MIN, INT_MAX; nia).
  rewrite (wrap32_id ((nBlockOff + 1) * nBlockSize)) by (unfold in_range, INT_MIN, INT_MAX; nia).
  rewrite (wrap32_id (nBlockOff * nBlockSize)) by (unfold in_range, INT_MIN, INT_MAX; nia).
  rewrite (wrap32_id (nSize - nBlockOff * nBlockSize)) by (unfold in_range, INT_MIN, INT_MAX; nia).
  destruct (Z.gtb_spec ((nBlockOff + 1) * nBlockSize) nSize); lia.
Qed.

Lemma req_size_inner nSize nBlockSize nBlockOff :
  0 < nSize -> 0 < nBlockSize -> nSize + nBlockSize <= INT_MAX ->
  0 <= nBlockOff < ceil_div nSize nBlockSize - 1 ->
  req_size nBlockOff nBlockSize nSize = nBlockSize.
Proof.
  intros Hs Hb Hmax Hoff. rewrite req_size_clip by lia.
  pose proof (ceil_div_bounds nSize nBlockSize Hb) as Hc. nia.
Qed.

Lemma req_size_last nSize nBlockSize :
  0 < nSize -> 0 < nBlockSize -> nSize + nBlockSize <= INT_MAX ->
  req_size (ceil_div nSize nBlockSize - 1) nBlockSize nSize =
    if nSize mod nBlockSize =? 0 then nBlockSize else nSize mod nBlockSize.
Proof.
  intros Hs Hb Hmax.
  pose proof (ceil_div_pos nSize nBlockSize Hs Hb) as Hp.
  rewrite req_size_clip by lia.
  pose proof (ceil_div_bounds nSize nBlockSize Hb) as Hc.
  pose proof (Z.div_mod nSize nBlockSize ltac:(lia)) as Hdm.
  pose proof (Z.mod_pos_bound nSize nBlockSize Hb) as Hm.
  destruct (Z.eqb_spec (nSize mod nBlockSize) 0) as [Hz|Hnz].
  - assert (ceil_div nSize nBlockSize = nSize / nBlockSize) by nia. nia.
  - assert (ceil_div nSize nBlockSize = nSize / nBlockSize + 1) by nia. nia.
Qed.

(** ** Rows of a table, and what an insertion does to them *)


Lemma store_of_insert w p d (l : list Event) (t : option Data) :
  store_of {| fs := <[p := SQLiteDB d]> (fs w); txn := t; log := l |} (Some p) = Some d.
Proof. unfold store_of; simpl. by rewrite lookup_insert_eq. Qed.

Lemma create_feature_frame env hDS layer f w w' ok id :
  OGR_L_CreateFeature env hDS layer f w = (w', ok, id) ->
  txn w' = txn w /\ log w' = log w.
Proof.
  unfold OGR_L_CreateFeature. intros H.
  destruct hDS as [p|]; [|by inversion H].
  destruct (store_of w (Some p)) as [d|]; [|by inversion H].
  destruct (tables d !! layer) as [t|]; [|by inversion H].
  destruct (CreateFeatureOK env layer t f); by inversion H.
Qed.

Lemma create_feature_failed env hDS layer f w w' id :
  OGR_L_CreateFeature env hDS layer f w = (w', false, id) -> w' = w.
Proof.
  unfold OGR_L_CreateFeature. intros H.
  destruct hDS as [p|]; [|by inversion H].
  destruct (store_of w (Some p)) as [d|]; [|by inversion H].
  destruct (tables d !! layer) as [t|]; [|by inversion H].
  destruct (CreateFeatureOK env layer t f); by inversion H.
Qed.

(** A successful insertion adds the feature at the end of its table,
    under the identifier returned, and touches no other table and no
    other file. *)
Lemma create_feature_done env hDS layer f w w' id :
  OGR_L_CreateFeature env hDS layer f w = (w', true, id) ->
  exists p d t,
    hDS = Some p /\ store_of w hDS = Some d /\ tables d !! layer = Some t /\
    CreateFeatureOK env layer t f = true /\
    fs w' = <[p := SQLiteDB (set_tables d
               (<[layer := {| seq := Z.max (seq t) id; rows := rows t ++ [stored id f] |}]>
                  (tables d)))]> (fs w).
Proof.
  unfold OGR_L_CreateFeature. intros H.
  destruct hDS as [p|]; [|by inversion H].
  destruct (store_of w (Some p)) as [d|] eqn:Hd; [|by inversion H].
  destruct (tables d !! layer) as [t|] eqn:Ht; [|by inversion H].
  destruct (CreateFeatureOK env layer t f) eqn:Hok; [|by inversion H].
  inversion H; subst. exists p, d, t. by repeat split.
Qed.

Lemma create_feature_rows env hDS layer f w w' ok id :
  OGR_L_CreateFeature env hDS layer f w = (w', ok, id) ->
  table_rows w' hDS layer =
    table_rows w hDS layer ++ (if ok then [stored id f] else []).
Proof.
  intros H. destruct ok.
  - destruct (create_feature_done _ _ _ _ _ _ _ H) as (p & d & t & -> & Hd & Ht & _ & Hfs).
    unfold table_rows. rewrite Hd, Ht.
    unfold store_of in *. rewrite Hfs, lookup_insert_eq. simpl.
    by rewrite lookup_insert_eq.
  - rewrite (create_feature_failed _ _ _ _ _ _ _ H). by rewrite app_nil_r.
Qed.

Lemma create_feature_other env hDS layer layer' f w w' ok id :
  layer <> layer' ->
  OGR_L_CreateFeature env hDS layer f w = (w', ok, id) ->
  table_rows w' hDS layer' = table_rows w hDS layer'.
Proof.
  intros Hne H. destruct ok.
  - destruct (create_feature_done _ _ _ _ _ _ _ H) as (p & d & t & -> & Hd & Ht & _ & Hfs).
    unfold table_rows. rewrite Hd.
    unfold store_of in *. rewrite Hfs, lookup_insert_eq. simpl.
    by rewrite lookup_insert_ne.
  - by rewrite (create_feature_failed _ _ _ _ _ _ _ H).
Qed.


Lemma create_feature_files env p layer f w w' ok id w0 :
  OGR_L_CreateFeature env (Some p) layer f w = (w', ok, id) ->
  same_files_but p w0 w -> same_files_but p w0 w'.
Proof.
  intros H Hs q Hq. destruct ok.
  - destruct (create_feature_done _ _ _ _ _ _ _ H) as (p' & d & t & [= <-] & _ & _ & _ & Hfs).
    rewrite Hfs, lookup_insert_ne by done. by apply Hs.
  - rewrite (create_feature_failed _ _ _ _ _ _ _ H). by apply Hs.
Qed.

Lemma create_feature_store env hDS layer f w w' ok id :
  OGR_L_CreateFeature env hDS layer f w = (w', ok, id) ->
  is_Some (store_of w hDS) -> is_Some (store_of w' hDS).
Proof.
  intros H Hs. destruct ok.
  - destruct (create_feature_done _ _ _ _ _ _ _ H) as (p & d & t & -> & _ & _ & _ & Hfs).
    unfold store_of. rewrite Hfs, lookup_insert_eq. eauto.
  - by rewrite (create_feature_failed _ _ _ _ _ _ _ H).
Qed.

(** ** Doubles *)

(** The negation of a negative double is its absolute value, and is
    positive. *)
Lemma opp_negative (x : double) :
  PrimFloat.ltb x 0 = true ->
  PrimFloat.opp x = PrimFloat.abs x /\ PrimFloat.ltb 0 (PrimFloat.opp x) = true.
Proof.
  intros Hx. rewrite ltb_spec in Hx.
  change (Prim2SF 0) with (S754_zero false) in Hx.
  split.
  - apply Prim2SF_inj. rewrite opp_spec, abs_spec.
    destruct (Prim2SF x) as [s|s| |s m e]; try destruct s; try discriminate; reflexivity.
  - rewrite ltb_spec, opp_spec. change (Prim2SF 0) with (S754_zero false).
    destruct (Prim2SF x) as [s|s| |s m e]; try destruct s; try discriminate; reflexivity.
Qed.

Lemma row_major_length nx ny :
  length (row_major nx ny) = (Z.to_nat ny * Z.to_nat nx)%nat.
Proof.
  unfold row_major. rewrite <- (length_seqZ 0 ny), <- (length_seqZ 0 nx).
  induction (seqZ 0 ny) as [|y l IH]; simpl; [done|].
  by rewrite length_app, length_map, IH.
Qed.

Lemma row_major_elem nx ny b :
  In b (row_major nx ny) -> 0 <= fst b < nx /\ 0 <= snd b < ny.
Proof.
  unfold row_major. rewrite in_flat_map. intros (y & Hy & Hb).
  apply in_map_iff in Hb as (x & <- & Hx). simpl.
  apply list_elem_of_In, list_elem_of_lookup in Hx as [i Hx].
  apply list_elem_of_In, list_elem_of_lookup in Hy as [j Hy].
  apply lookup_seqZ in Hx, Hy. lia.
Qed.

Lemma flat_map_lookup_uniform {A B} (g : A -> list B) (n : nat) ys j i y :
  (forall y, length (g y) = n) -> ys !! j = Some y -> (i < n)%nat ->
  flat_map g ys !! (j * n + i)%nat = g y !! i.
Proof.
  intros Hlen. revert j. induction ys as [|y0 r IH]; intros j Hj Hi; [done|].
  destruct j as [|j]; simpl in *.
  - injection Hj as ->. rewrite lookup_app_l by (rewrite Hlen; lia). done.
  - rewrite lookup_app_r by (rewrite Hlen; lia). rewrite Hlen.
    replace (n + j * n + i - n)%nat with (j * n + i)%nat by lia. by apply IH.
Qed.

(** The block at column [bx] of block-row [by_] is the one the loops
    reach in pass number [by_ * nx + bx]. *)
Lemma row_major_lookup nx ny bx by_ :
  0 <= bx < nx -> 0 <= by_ < ny ->
  row_major nx ny !! Z.to_nat (by_ * nx + bx) = Some (bx, by_).
Proof.
  intros Hx Hy. unfold row_major.
  replace (Z.to_nat (by_ * nx + bx)) with (Z.to_nat by_ * Z.to_nat nx + Z.to_nat bx)%nat by nia.
  rewrite (flat_map_lookup_uniform _ (Z.to_nat nx) _ _ _ by_).
  - change (map ?f ?x) with (f <$> x). rewrite list_lookup_fmap.
    rewrite lookup_seqZ_lt by lia. simpl. f_equal. f_equal. lia.
  - intros y. by rewrite length_map, length_seqZ.
  - rewrite lookup_seqZ_lt by lia. f_equal. lia.
  - lia.
Qed.

(** ** The block loop *)

Section LoopFacts.

Variable env : Env.
Variable poSrcDS : SrcDS.
Variable hDS : GDALDatasetH.
Variable pszDriverName : string.
Variable papszTileDriverOptions : list string.
Variable osRasterLayer osMetadataLayer : string.
Variable adfGeoTransform : GeoTransform.
Variable nBands nDataTypeSize : Z.
Variable nXSize nYSize nBlockXSize nBlockYSize : Z.
Variable nXBlocks nYBlocks nTotalBlocks : Z.
Variable pfnProgress : option (double -> bool).

Local Abbreviation body :=
  (tile_block env poSrcDS hDS pszDriverName papszTileDriverOptions osRasterLayer
     osMetadataLayer adfGeoTransform nBands nDataTypeSize nXSize nYSize nBlockXSize
     nBlockYSize nTotalBlocks pfnProgress).
Local Abbreviation pass :=
  (step env poSrcDS hDS pszDriverName papszTileDriverOptions osRasterLayer
     osMetadataLayer adfGeoTransform nBands nDataTypeSize nXSize nYSize nBlockXSize
     nBlockYSize nTotalBlocks pfnProgress).
Local Abbreviation succeeds :=
  (block_succeeds env poSrcDS hDS pszDriverName papszTileDriverOptions osRasterLayer
     osMetadataLayer adfGeoTransform nBands nDataTypeSize nXSize nYSize nBlockXSize
     nBlockYSize nTotalBlocks pfnProgress).
Local Abbreviation all_succeed :=
  (run_succeeds env poSrcDS hDS pszDriverName papszTileDriverOptions osRasterLayer
     osMetadataLayer adfGeoTransform nBands nDataTypeSize nXSize nYSize nBlockXSize
     nBlockYSize nTotalBlocks pfnProgress).
Local Abbreviation loop_x :=
  (for_x env poSrcDS hDS pszDriverName papszTileDriverOptions osRasterLayer
     osMetadataLayer adfGeoTransform nBands nDataTypeSize nXSize nYSize nBlockXSize
     nBlockYSize nXBlocks nTotalBlocks pfnProgress).
Local Abbreviation loop_y :=
  (for_y env poSrcDS hDS pszDriverName papszTileDriverOptions osRasterLayer
     osMetadataLayer adfGeoTransform nBands nDataTypeSize nXSize nYSize nBlockXSize
     nBlockYSize nXBlocks nYBlocks nTotalBlocks pfnProgress).
Local Abbreviation loop :=
  (block_loop env poSrcDS hDS pszDriverName papszTileDriverOptions osRasterLayer
     osMetadataLayer adfGeoTransform nBands nDataTypeSize nXSize nYSize nBlockXSize
     nBlockYSize nXBlocks nYBlocks nTotalBlocks pfnProgress).
Local Abbreviation transaction :=
  (insert_tiles env poSrcDS hDS pszDriverName papszTileDriverOptions osRasterLayer
     osMetadataLayer adfGeoTransform nBands nDataTypeSize nXSize nYSize nBlockXSize
     nBlockYSize nXBlocks nYBlocks nTotalBlocks pfnProgress).
Local Abbreviation mfields :=
  (metadata_fields poSrcDS adfGeoTransform nBlockXSize nBlockYSize).
Local Abbreviation block_row :=
  (block_row poSrcDS adfGeoTransform nXSize nYSize nBlockXSize nBlockYSize).
Local Abbreviation pass_effect :=
  (pass_effect env poSrcDS hDS pszDriverName papszTileDriverOptions osRasterLayer
     osMetadataLayer adfGeoTransform nBands nDataTypeSize nXSize nYSize nBlockXSize
     nBlockYSize nTotalBlocks pfnProgress).
Local Abbreviation outcome := (outcome poSrcDS).
Local Abbreviation reqx x := (req_size x nBlockXSize nXSize).
Local Abbreviation reqy y := (req_size y nBlockYSize nYSize).

Lemma tile_block_effect y x st : pass_effect y x st (body y x st).
Proof.
  assert (Hsteps : succeeds y x st ->
    exists buffer pabyData w1 fid w2 fid2,
    RasterIO poSrcDS (int_mul x nBlockXSize) (int_mul y nBlockYSize) (reqx x) (reqy y)
      = (CE_None, buffer) /\
    TileCreateCopy env pszDriverName papszTileDriverOptions
      {| mem_xsize := reqx x; mem_ysize := reqy y; mem_bands := nBands;
         mem_type_size := nDataTypeSize; mem_buffer := buffer |} = Some pabyData /\
    OGR_L_CreateFeature env hDS osRasterLayer
      {| FID := OGRNullFID; fields := RasterFields pabyData |} (ls_world st)
      = (w1, true, fid) /\
    OGR_L_CreateFeature env hDS osMetadataLayer
      (metadata_feature poSrcDS adfGeoTransform nBlockXSize nBlockYSize
         (wrap32 fid) (nTileId st) x y (reqx x) (reqy y)) w1 = (w2, true, fid2) /\
    (forall f, pfnProgress = Some f ->
               f (progress_fraction nTotalBlocks (int_add (nBlocks st) 1)) = true))
    by (intros H; exact H).
  unfold tile_block.
  destruct (RasterIO poSrcDS (int_mul x nBlockXSize) (int_mul y nBlockYSize)
              (reqx x) (reqy y)) as [err buffer] eqn:Hread.
  destruct (CPLErr_eqb err CE_None) eqn:Herr; simpl.
  2:{ assert (err <> CE_None) by (intros ->; discriminate).
      split; simpl; try done.
      - intros _. exists []. rewrite app_nil_r. auto.
      - right; right. eexists _, _, _, _. by rewrite Hread.
      - split; [done|]. intros Hs.
        destruct (Hsteps Hs) as (b & ? & ? & ? & ? & ? & Hr & _). congruence. }
  apply CPLErr_eqb_eq in Herr. subst err.
  destruct (TileCreateCopy env pszDriverName papszTileDriverOptions _) as [pabyData|] eqn:Henc.
  2:{ split; simpl; try done.
      - intros _. exists []. rewrite app_nil_r. auto.
      - auto.
      - split; [done|]. intros Hs.
        destruct (Hsteps Hs) as (b & ? & ? & ? & ? & ? & Hr & Hc & _).
        injection Hr as <-. congruence. }
  destruct (OGR_L_CreateFeature env hDS osRasterLayer _ (ls_world st))
    as [[w1 ok1] fid] eqn:Hins1.
  pose proof (create_feature_frame _ _ _ _ _ _ _ _ Hins1) as [Ht1 Hl1].
  destruct ok1; simpl.
  2:{ rewrite (create_feature_failed _ _ _ _ _ _ _ Hins1).
      split; simpl; try done.
      - intros _. exists []. rewrite app_nil_r. auto.
      - auto.
      - split; [done|]. intros Hs.
        destruct (Hsteps Hs) as (b & ? & ? & ? & ? & ? & Hr & Hc & Hi & _).
        injection Hr as <-.
        rewrite Henc in Hc. injection Hc as <-. congruence. }
  destruct (OGR_L_CreateFeature env hDS osMetadataLayer _ w1) as [[w2 ok2] fid2] eqn:Hins2.
  pose proof (create_feature_frame _ _ _ _ _ _ _ _ Hins2) as [Ht2 Hl2].
  assert (Hcases : forall e : CPLErr,
    e = match pfnProgress with
        | Some f => if f (progress_fraction nTotalBlocks (int_add (nBlocks st) 1))
                    then (if ok2 then CE_None else CE_Failure) else CE_Failure
        | None => if ok2 then CE_None else CE_Failure
        end ->
    (e = CE_None <->
       ok2 = true /\ forall f, pfnProgress = Some f ->
                      f (progress_fraction nTotalBlocks (int_add (nBlocks st) 1)) = true)).
  { intros e ->. destruct pfnProgress as [f|].
    - destruct (f _) eqn:Hf; destruct ok2; split; try done.
      + intros _. split; [done|]. by intros ? [= <-].
      + by intros [? _].
      + intros [_ Hp]. specialize (Hp f eq_refl). congruence.
      + by intros [? _].
    - destruct ok2; split; try done. by intros [? _]. }
  split; simpl.
  - congruence.
  - congruence.
  - intros p w0 -> Hs. eapply create_feature_files; [exact Hins2|].
    eapply create_feature_files; [exact Hins1|]. exact Hs.
  - intros Hs. eapply create_feature_store; [exact Hins2|].
    eapply create_feature_store; [exact Hins1|]. exact Hs.
  - intros Hne.
    rewrite (create_feature_rows _ _ _ _ _ _ _ _ Hins2).
    rewrite (create_feature_other _ _ _ _ _ _ _ _ _ Hne Hins1).
    eexists; split; [reflexivity|]. split.
    + destruct ok2; [right|by left]. eexists; split; [reflexivity|]. reflexivity.
    + intros He. apply (Hcases _ eq_refl) in He as [-> _]. done.
  - done.
  - destruct pfnProgress as [f|]; [destruct (f _)|]; destruct ok2; auto.
  - rewrite (Hcases _ eq_refl). split.
    + intros [-> Hp]. by exists buffer, pabyData, w1, fid, w2, fid2.
    + intros Hs.
      destruct (Hsteps Hs) as (b & pd & w1' & fid' & w2' & fid2' & Hr & Hc & Hi1 & Hi2 & Hp).
      injection Hr as <-.
      rewrite Henc in Hc. injection Hc as <-.
      rewrite Hins1 in Hi1. injection Hi1 as <- <-.
      rewrite Hins2 in Hi2. injection Hi2 as _ Hok _. by split.
Qed.

Lemma pass_entered st b : eErr st = CE_None -> pass st b = body (snd b) (fst b) st.
Proof. intros H. unfold step. by rewrite H. Qed.

Lemma pass_skipped st b : eErr st <> CE_None -> pass st b = st.
Proof.
  intros H. unfold step. apply CPLErr_eqb_neq in H. by rewrite H.
Qed.

Lemma passes_skipped bs st : eErr st <> CE_None -> fold_left pass bs st = st.
Proof.
  induction bs as [|b bs IH]; simpl; [done|].
  intros H. rewrite pass_skipped by done. by apply IH.
Qed.

(** The inner loop is the sequence of guarded passes over the blocks of
    one block-row, from left to right; the bound given to [for_x] is
    never what ends it. *)
Lemma for_x_passes n y x0 st :
  0 <= x0 -> Z.of_nat n = Z.max 0 (nXBlocks - x0) -> nXBlocks <= INT_MAX ->
  loop_x n y x0 st = fold_left pass (map (fun x => (x, y)) (seqZ x0 (Z.of_nat n))) st.
Proof.
  revert x0 st. induction n as [|n IH]; intros x0 st Hx0 Hn Hmax; [done|].
  rewrite seqZ_cons by lia. simpl map. simpl fold_left.
  cbn [for_x].
  assert (Hlt : (x0 <? nXBlocks) = true) by (apply Z.ltb_lt; lia).
  rewrite Hlt, andb_true_r.
  destruct (CPLErr_eqb (eErr st) CE_None) eqn:He.
  - apply CPLErr_eqb_eq in He. rewrite pass_entered by done. simpl.
    unfold int_add. rewrite wrap32_id by (unfold in_range, INT_MIN, INT_MAX in *; lia).
    replace (Z.pred (Z.of_nat (S n))) with (Z.of_nat n) by lia.
    replace (Z.succ x0) with (x0 + 1) by lia.
    apply IH; lia.
  - apply CPLErr_eqb_neq in He. rewrite pass_skipped by done.
    by rewrite passes_skipped.
Qed.

Lemma for_y_passes n y0 st :
  0 <= y0 -> Z.of_nat n = Z.max 0 (nYBlocks - y0) ->
  nXBlocks <= INT_MAX -> nYBlocks <= INT_MAX ->
  loop_y n y0 st =
    fold_left pass
      (flat_map (fun y => map (fun x => (x, y)) (seqZ 0 nXBlocks)) (seqZ y0 (Z.of_nat n))) st.
Proof.
  revert y0 st. induction n as [|n IH]; intros y0 st Hy0 Hn HmaxX HmaxY; [done|].
  rewrite (seqZ_cons y0) by lia. cbn [flat_map]. rewrite fold_left_app.
  cbn [for_y].
  assert (Hlt : (y0 <? nYBlocks) = true) by (apply Z.ltb_lt; lia).
  rewrite Hlt, andb_true_r.
  destruct (CPLErr_eqb (eErr st) CE_None) eqn:He.
  - unfold int_add. rewrite wrap32_id by (unfold in_range, INT_MIN, INT_MAX in *; lia).
    replace (Z.pred (Z.of_nat (S n))) with (Z.of_nat n) by lia.
    replace (Z.succ y0) with (y0 + 1) by lia.
    rewrite IH by lia. f_equal.
    rewrite for_x_passes by lia.
    destruct (Z.le_gt_cases 0 nXBlocks).
    + by rewrite Z2Nat.id by lia.
    + replace (Z.to_nat nXBlocks) with 0%nat by lia.
      by rewrite (seqZ_nil 0 nXBlocks) by lia.
  - apply CPLErr_eqb_neq in He.
    by rewrite (passes_skipped _ st He), (passes_skipped _ st He).
Qed.

(** The two loops are the guarded passes over the blocks in row-major
    order. *)
Lemma block_loop_passes w :
  nXBlocks <= INT_MAX -> nYBlocks <= INT_MAX ->
  loop w = fold_left pass (row_major nXBlocks nYBlocks)
             {| ls_world := w; eErr := CE_None; nTileId := 0; nBlocks := 0 |}.
Proof.
  intros HX HY. unfold block_loop, row_major.
  rewrite for_y_passes by lia.
  destruct (Z.le_gt_cases 0 nYBlocks).
  - by rewrite Z2Nat.id by lia.
  - replace (Z.to_nat nYBlocks) with 0%nat by lia.
    by rewrite (seqZ_nil 0 nYBlocks) by lia.
Qed.

(** *** What the passes over a list of blocks leave *)

Lemma passes_frame bs st :
  txn (ls_world (fold_left pass bs st)) = txn (ls_world st) /\
  log (ls_world (fold_left pass bs st)) = log (ls_world st) /\
  (forall p w0, hDS = Some p -> same_files_but p w0 (ls_world st) ->
                same_files_but p w0 (ls_world (fold_left pass bs st))) /\
  (is_Some (store_of (ls_world st) hDS) ->
   is_Some (store_of (ls_world (fold_left pass bs st)) hDS)).
Proof.
  revert st. induction bs as [|b bs IH]; intros st; simpl; [done|].
  destruct (IH (pass st b)) as (Ht & Hl & Hf & Hs).
  assert (Hp : txn (ls_world (pass st b)) = txn (ls_world st) /\
               log (ls_world (pass st b)) = log (ls_world st) /\
               (forall p w0, hDS = Some p -> same_files_but p w0 (ls_world st) ->
                             same_files_but p w0 (ls_world (pass st b))) /\
               (is_Some (store_of (ls_world st) hDS) ->
                is_Some (store_of (ls_world (pass st b)) hDS))).
  { unfold step. destruct (CPLErr_eqb (eErr st) CE_None); [|done].
    destruct (tile_block_effect (snd b) (fst b) st). done. }
  destruct Hp as (Ht' & Hl' & Hf' & Hs').
  repeat split; try congruence; eauto.
Qed.

Lemma passes_outcome bs st : outcome (eErr st) -> outcome (eErr (fold_left pass bs st)).
Proof.
  revert st. induction bs as [|b bs IH]; intros st Ho; simpl; [done|].
  apply IH. unfold step. destruct (CPLErr_eqb (eErr st) CE_None); [|done].
  destruct (tile_block_effect (snd b) (fst b) st). done.
Qed.

(** The passes end without error exactly when every step of every pass
    succeeds. *)
Lemma passes_ok bs st :
  eErr st = CE_None ->
  (eErr (fold_left pass bs st) = CE_None <-> all_succeed bs st).
Proof.
  revert st. induction bs as [|b bs IH]; intros st He; simpl; [done|].
  rewrite pass_entered by done.
  destruct (tile_block_effect (snd b) (fst b) st) as [_ _ _ _ _ _ _ Hok].
  destruct (CPLErr_eqb (eErr (body (snd b) (fst b) st)) CE_None) eqn:Hb.
  - apply CPLErr_eqb_eq in Hb. rewrite (IH _ Hb). split.
    + intros Hr. split; [by apply Hok|done].
    + by intros [_ Hr].
  - apply CPLErr_eqb_neq in Hb. rewrite passes_skipped by done. split.
    + done.
    + intros [Hs _]. by apply Hok in Hs.
Qed.

(** Every row the passes add to the metadata table is the row of one
    of the blocks. *)
Lemma passes_rows bs st :
  osRasterLayer <> osMetadataLayer ->
  exists l,
    table_rows (ls_world (fold_left pass bs st)) hDS osMetadataLayer
      = table_rows (ls_world st) hDS osMetadataLayer ++ l /\
    Forall (fun f => exists tid b, In b bs /\ block_row tid (fst b) (snd b) f) l.
Proof.
  intros Hne. revert st. induction bs as [|b bs IH]; intros st; simpl.
  { exists []. by rewrite app_nil_r. }
  destruct (IH (pass st b)) as (l & Hl & Hall).
  assert (Hp : exists l0,
             table_rows (ls_world (pass st b)) hDS osMetadataLayer
               = table_rows (ls_world st) hDS osMetadataLayer ++ l0 /\
             Forall (fun f => exists tid, block_row tid (fst b) (snd b) f) l0).
  { unfold step. destruct (CPLErr_eqb (eErr st) CE_None).
    - destruct (tile_block_effect (snd b) (fst b) st) as [_ _ _ _ Hr _ _ _].
      destruct (Hr Hne) as (l0 & Hl0 & [-> | (f & -> & Hf)] & _).
      + exists []. by split; [|constructor].
      + exists [f]. split; [done|]. constructor; [|constructor]. by eexists.
    - exists []. by rewrite app_nil_r. }
  destruct Hp as (l0 & Hl0 & Hall0).
  exists (l0 ++ l). split.
  - by rewrite Hl, Hl0, app_assoc.
  - apply Forall_app. split.
    + eapply Forall_impl; [exact Hall0|]. intros f [tid Hf]. exists tid, b. auto.
    + eapply Forall_impl; [exact Hall|]. intros f (tid & b' & Hin & Hf). exists tid, b'. auto.
Qed.

(** When the passes end without error they have added one row for each
    block, in the order of the blocks, numbered from the tile number
    they started with. *)
Lemma passes_rows_ok bs st :
  osRasterLayer <> osMetadataLayer ->
  eErr st = CE_None ->
  eErr (fold_left pass bs st) = CE_None ->
  0 <= nTileId st -> nTileId st + Z.of_nat (length bs) <= INT_MAX ->
  exists l,
    table_rows (ls_world (fold_left pass bs st)) hDS osMetadataLayer
      = table_rows (ls_world st) hDS osMetadataLayer ++ l /\
    map fields l =
      imap (fun i b => MetaFields (mfields (nTileId st + Z.of_nat i) (fst b) (snd b)
                                     (reqx (fst b)) (reqy (snd b)))) bs.
Proof.
  intros Hne. revert st. induction bs as [|b bs IH]; intros st He Hend Hpos Hmax; simpl.
  { exists []. by rewrite app_nil_r. }
  simpl in Hend, Hmax. rewrite pass_entered in * by done.
  destruct (tile_block_effect (snd b) (fst b) st) as [_ _ _ _ Hr Hc _ _].
  assert (Hb : eErr (body (snd b) (fst b) st) = CE_None).
  { destruct (CPLErr_eqb (eErr (body (snd b) (fst b) st)) CE_None) eqn:Hb.
    - by apply CPLErr_eqb_eq.
    - apply CPLErr_eqb_neq in Hb. by rewrite passes_skipped in Hend. }
  specialize (Hc Hb).
  unfold int_add in Hc.
  rewrite wrap32_id in Hc by (unfold in_range, INT_MIN, INT_MAX in *; lia).
  destruct (Hr Hne) as (l0 & Hl0 & Hshape & Hnonempty).
  destruct Hshape as [-> | (f & -> & Hf)]; [by destruct (Hnonempty Hb)|].
  destruct (IH _ Hb Hend) as (l & Hl & Hfields); [lia | lia |].
  exists (f :: l). split.
  - rewrite Hl, Hl0. by rewrite <- app_assoc.
  - simpl. f_equal.
    + rewrite Z.add_0_r. exact Hf.
    + rewrite Hfields. apply imap_ext. intros i b' _. simpl.
      rewrite Hc. do 2 f_equal. lia.
Qed.

(** The rows the passes add to the metadata table are, in order, the
    rows of the first blocks of the list, numbered from the tile number
    the passes started with: the row number [i] is the row of the block
    number [i]. When the passes end without error there is a row for
    every block. *)
Lemma passes_rows_by_block bs st :
  osRasterLayer <> osMetadataLayer ->
  eErr st = CE_None ->
  0 <= nTileId st -> nTileId st + Z.of_nat (length bs) <= INT_MAX ->
  exists l,
    table_rows (ls_world (fold_left pass bs st)) hDS osMetadataLayer
      = table_rows (ls_world st) hDS osMetadataLayer ++ l /\
    (length l <= length bs)%nat /\
    (eErr (fold_left pass bs st) = CE_None -> length l = length bs) /\
    forall i f b, l !! i = Some f -> bs !! i = Some b ->
      block_row (nTileId st + Z.of_nat i) (fst b) (snd b) f.
Proof.
  intros Hne. revert st. induction bs as [|b bs IH]; intros st He Hpos Hmax; simpl.
  { exists []. rewrite app_nil_r. repeat split; try done. }
  simpl in Hmax. rewrite pass_entered by done.
  destruct (tile_block_effect (snd b) (fst b) st) as [_ _ _ _ Hr Hc _ _].
  destruct (Hr Hne) as (l0 & Hl0 & Hshape & Hnonempty).
  destruct (CPLErr_eqb (eErr (body (snd b) (fst b) st)) CE_None) eqn:Hb.
  - apply CPLErr_eqb_eq in Hb. specialize (Hc Hb).
    unfold int_add in Hc.
    rewrite wrap32_id in Hc by (unfold in_range, INT_MIN, INT_MAX in *; lia).
    destruct Hshape as [-> | (f0 & -> & Hf0)]; [by destruct (Hnonempty Hb)|].
    destruct (IH _ Hb) as (l & Hl & Hle & Hall & Hrows); [lia | lia |].
    exists (f0 :: l). split; [by rewrite Hl, Hl0, <- app_assoc|].
    split; [simpl; lia|]. split; [intros Hend; simpl; by rewrite Hall|].
    intros i f b' Hi Hb'. destruct i as [|i]; simpl in Hi, Hb'.
    + injection Hi as <-. injection Hb' as <-. by rewrite Z.add_0_r.
    + replace (nTileId st + Z.of_nat (S i)) with (nTileId (body (snd b) (fst b) st) + Z.of_nat i)
        by lia.
      by apply Hrows.
  - apply CPLErr_eqb_neq in Hb. rewrite passes_skipped by done.
    exists l0. split; [exact Hl0|].
    split; [destruct Hshape as [-> | (f0 & -> & _)]; simpl; lia|].
    split; [done|].
    intros i f b' Hi Hb'.
    destruct Hshape as [-> | (f0 & -> & Hf0)]; [done|].
    destruct i as [|i]; [|done]. simpl in Hi, Hb'.
    injection Hi as <-. injection Hb' as <-. by rewrite Z.add_0_r.
Qed.

(** *** The transaction around the loop *)

Lemma same_files_restore p d w0 w :
  fs w0 !! p = Some (SQLiteDB d) -> same_files_but p w0 w ->
  <[p := SQLiteDB d]> (fs w) = fs w0.
Proof.
  intros Hp Hs. apply map_eq. intros q.
  destruct (decide (p = q)) as [<-|Hne].
  - by rewrite lookup_insert_eq.
  - rewrite lookup_insert_ne by done. by apply Hs.
Qed.

Lemma same_files_begin p d w :
  same_files_but p w {| fs := <[p := SQLiteDB d]> (fs w); txn := Some d;
                        log := EvSQL Begin :: log w |}.
Proof. intros q Hq. simpl. by rewrite lookup_insert_ne. Qed.

(** From here on the block counts are those of lines 556-557. *)
Hypothesis HnXBlocks : nXBlocks = block_count nXSize nBlockXSize.
Hypothesis HnYBlocks : nYBlocks = block_count nYSize nBlockYSize.

Lemma loop_passes w :
  loop w = fold_left pass (row_major nXBlocks nYBlocks)
             {| ls_world := w; eErr := CE_None; nTileId := 0; nBlocks := 0 |}.
Proof.
  apply block_loop_passes.
  - rewrite HnXBlocks. apply wrap32_range.
  - rewrite HnYBlocks. apply wrap32_range.
Qed.

(** What [insert_tiles] comes to from a world in which the handle names
    a store and no transaction is open. *)
Lemma insert_tiles_unfold pszFilename w p d :
  hDS = Some p -> fs w !! p = Some (SQLiteDB d) -> txn w = None ->
  let w1 := {| fs := <[p := SQLiteDB d]> (fs w); txn := Some d;
               log := EvSQL Begin :: log w |} in
  GDALDatasetExecuteSQL env hDS Begin w = (w1, None) /\
  exists dk,
    store_of (ls_world (loop w1)) hDS = Some dk /\
    transaction pszFilename w =
      if CPLErr_eqb (eErr (loop w1)) CE_None then
        ({| fs := <[p := SQLiteDB dk]> (fs (ls_world (loop w1))); txn := None;
            log := EvClose p :: EvSQL Commit :: EvSQL Begin :: log w |},
         if CPLErr_eqb (eErr (loop w1)) CE_Failure then None
         else if GDALOpen env pszFilename then Some pszFilename else None)
      else
        ({| fs := fs w; txn := None;
            log := EvClose p :: EvSQL Rollback :: EvSQL Begin :: log w |},
         if CPLErr_eqb (eErr (loop w1)) CE_Failure then None
         else if GDALOpen env pszFilename then Some pszFilename else None).
Proof.
  intros Hh Hp Htxn w1.
  assert (Hbegin : GDALDatasetExecuteSQL env hDS Begin w = (w1, None)).
  { rewrite Hh. unfold GDALDatasetExecuteSQL, store_of. rewrite Hp. simpl. by rewrite Htxn. }
  split; [done|].
  unfold insert_tiles. rewrite Hbegin.
  pose proof (loop_passes w1) as Hloop.
  destruct (passes_frame (row_major nXBlocks nYBlocks)
              {| ls_world := w1; eErr := CE_None; nTileId := 0; nBlocks := 0 |})
    as (Ht & Hl & Hf & Hs).
  rewrite <- Hloop in Ht, Hl, Hf, Hs. simpl in Ht, Hl, Hf, Hs.
  destruct Hs as [dk Hdk].
  { rewrite Hh. unfold store_of. simpl. rewrite lookup_insert_eq. eauto. }
  exists dk. split; [done|].
  set (st := loop w1) in *. clearbody st.
  specialize (Hf p w Hh (same_files_begin p d w)).
  rewrite Hh in Hdk.
  destruct (CPLErr_eqb (eErr st) CE_None).
  - unfold GDALDatasetExecuteSQL. rewrite Hh, Hdk. simpl.
    rewrite Hl, lookup_insert_eq. unfold emit. simpl.
    by destruct (CPLErr_eqb (eErr st) CE_Failure).
  - unfold GDALDatasetExecuteSQL. rewrite Hh, Hdk. simpl. rewrite Ht, Hl. simpl.
    rewrite lookup_insert_eq. unfold emit. simpl.
    rewrite (same_files_restore p d w (ls_world st)) by done.
    by destruct (CPLErr_eqb (eErr st) CE_Failure).
Qed.

(** Lines 579-719 commit the transaction exactly when every step of
    every block (window read, encoding, insertion of the raster row,
    insertion of the metadata row) succeeded and the progress callback
    never asked to stop; the store then holds what the loop inserted.
    Otherwise the transaction is rolled back and every file is as it
    was before the [BEGIN]; the operation then returns [nullptr], a
    window read answering [CE_None] or [CE_Failure], the two results
    [RasterIO] documents. The handle names an open store with no
    transaction open. *)
Lemma insert_tiles_atomic (pszFilename : string) (w : World) (p : string) (d : Data) :
  hDS = Some p -> fs w !! p = Some (SQLiteDB d) -> txn w = None ->
  let w1 := fst (GDALDatasetExecuteSQL env hDS Begin w) in
  let ok := all_succeed (row_major nXBlocks nYBlocks)
              {| ls_world := w1; eErr := CE_None; nTileId := 0; nBlocks := 0 |} in
  let w' := fst (transaction pszFilename w) in
  let r := snd (transaction pszFilename w) in
  (committed w w' <-> ok) /\
  (ok -> store_of w' hDS = store_of (ls_world (loop w1)) hDS /\
         r = if GDALOpen env pszFilename then Some pszFilename else None) /\
  (~ ok ->
   rolled_back w w' /\ fs w' = fs w /\ txn w' = None /\
   ((forall a b c e, fst (RasterIO poSrcDS a b c e) = CE_None \/
                     fst (RasterIO poSrcDS a b c e) = CE_Failure) ->
    r = None)).
Proof.
  intros Hh Hp Htxn.
  destruct (insert_tiles_unfold pszFilename w p d Hh Hp Htxn) as (Hbegin & dk & Hdk & Hrun).
  rewrite Hbegin, Hrun. cbn [fst]. clear Hrun.
  set (w1 := {| fs := <[p := SQLiteDB d]> (fs w); txn := Some d;
                log := EvSQL Begin :: log w |}) in *.
  pose proof (passes_ok (row_major nXBlocks nYBlocks)
                {| ls_world := w1; eErr := CE_None; nTileId := 0; nBlocks := 0 |} eq_refl)
    as Hok.
  pose proof (passes_outcome (row_major nXBlocks nYBlocks)
                {| ls_world := w1; eErr := CE_None; nTileId := 0; nBlocks := 0 |}
                (or_introl eq_refl)) as Hout.
  rewrite <- (loop_passes w1) in Hok, Hout.
  destruct (CPLErr_eqb (eErr (loop w1)) CE_None) eqn:He; cbn [fst snd].
  - apply CPLErr_eqb_eq in He. pose proof (proj1 Hok He) as Hall.
    rewrite He. simpl. split; [|split].
    + split; [done|]. intros _. by exists (EvClose p).
    + intros _. split; [|done]. rewrite Hh in *. unfold store_of at 1. simpl.
      by rewrite lookup_insert_eq.
    + intros Hn. by destruct Hn.
  - apply CPLErr_eqb_neq in He.
    assert (Hnot : ~ all_succeed (row_major nXBlocks nYBlocks)
                     {| ls_world := w1; eErr := CE_None; nTileId := 0; nBlocks := 0 |})
      by (intros Hall; by apply Hok in Hall).
    split; [|split].
    + split; [|done]. intros [e Hlog]. simpl in Hlog. discriminate.
    + done.
    + intros _. split; [by exists (EvClose p)|]. split; [done|]. split; [done|].
      intros Hread.
      assert (Hfail : eErr (loop w1) = CE_Failure).
      { destruct Hout as [Ho | [Ho | (a & b & c & e & Ho)]]; [done|done|].
        destruct (Hread a b c e) as [Hr|Hr]; congruence. }
      by rewrite Hfail.
Qed.

(** A committed run ended its loop without error, and its store shows
    the tables as the loop left them. *)
Lemma committed_run pszFilename w p d :
  hDS = Some p -> fs w !! p = Some (SQLiteDB d) -> txn w = None ->
  committed w (fst (transaction pszFilename w)) ->
  let w1 := {| fs := <[p := SQLiteDB d]> (fs w); txn := Some d;
               log := EvSQL Begin :: log w |} in
  eErr (loop w1) = CE_None /\
  (forall layer, table_rows w1 hDS layer = table_rows w hDS layer) /\
  (forall layer, table_rows (fst (transaction pszFilename w)) hDS layer
                 = table_rows (ls_world (loop w1)) hDS layer).
Proof.
  intros Hh Hp Htxn Hc w1.
  destruct (insert_tiles_unfold pszFilename w p d Hh Hp Htxn) as (_ & dk & Hdk & Hrun).
  fold w1 in Hdk, Hrun. rewrite Hrun in *. clear Hrun.
  destruct (CPLErr_eqb (eErr (loop w1)) CE_None) eqn:He.
  - split; [by apply CPLErr_eqb_eq|]. split.
    + intros layer. unfold table_rows. rewrite Hh. unfold store_of. simpl.
      by rewrite lookup_insert_eq, Hp.
    + intros layer. unfold table_rows. rewrite Hdk. rewrite Hh.
      unfold store_of. simpl. by rewrite lookup_insert_eq.
  - destruct Hc as [e Hlog]. simpl in Hlog. discriminate.
Qed.

(** C2. In a committed run over a raster of [nXSize] by [nYSize] pixels
    with blocks of [nBlockXSize] by [nBlockYSize], the metadata rows
    inserted are as many as the product of the two ceilings, they are
    the rows of the blocks in row-major order (the blocks of a block-row
    from left to right, the block-rows from top to bottom), and their
    tile numbers are 0, 1, ..., N-1 in that order. Sizes are positive and
    the [int] computations of the block counts and of the tile number do
    not overflow. *)
Theorem tile_ids_row_major (pszFilename : string) (w : World) (p : string) (d : Data) :
  hDS = Some p -> fs w !! p = Some (SQLiteDB d) -> txn w = None ->
  osRasterLayer <> osMetadataLayer ->
  0 < nXSize -> 0 < nYSize -> 0 < nBlockXSize -> 0 < nBlockYSize ->
  nXSize + nBlockXSize <= INT_MAX -> nYSize + nBlockYSize <= INT_MAX ->
  ceil_div nXSize nBlockXSize * ceil_div nYSize nBlockYSize <= INT_MAX ->
  committed w (fst (transaction pszFilename w)) ->
  let nx := ceil_div nXSize nBlockXSize in
  let ny := ceil_div nYSize nBlockYSize in
  exists l,
    table_rows (fst (transaction pszFilename w)) hDS osMetadataLayer
      = table_rows w hDS osMetadataLayer ++ l /\
    Z.of_nat (length l) = nx * ny /\
    map fields l =
      imap (fun i b => MetaFields (mfields (Z.of_nat i) (fst b) (snd b)
                                     (reqx (fst b)) (reqy (snd b))))
        (row_major nx ny) /\
    map tile_id_of l = map Some (seqZ 0 (nx * ny)).
Proof.
  intros Hh Hp Htxn Hne HX HY HbX HbY HmaxX HmaxY HmaxN Hc nx ny.
  destruct (committed_run pszFilename w p d Hh Hp Htxn Hc) as (He & Hw1 & Hfin).
  set (w1 := {| fs := <[p := SQLiteDB d]> (fs w); txn := Some d;
                log := EvSQL Begin :: log w |}) in *.
  assert (HnX : nXBlocks = nx) by (rewrite HnXBlocks; by apply block_count_ceil).
  assert (HnY : nYBlocks = ny) by (rewrite HnYBlocks; by apply block_count_ceil).
  pose proof (ceil_div_pos nXSize nBlockXSize HX HbX) as Hnx.
  pose proof (ceil_div_pos nYSize nBlockYSize HY HbY) as Hny.
  fold nx in Hnx, HmaxN. fold ny in Hny, HmaxN.
  assert (Hlen : Z.of_nat (length (row_major nx ny)) = nx * ny)
    by (rewrite row_major_length; lia).
  rewrite (loop_passes w1), HnX, HnY in He.
  destruct (passes_rows_ok (row_major nx ny)
              {| ls_world := w1; eErr := CE_None; nTileId := 0; nBlocks := 0 |}
              Hne eq_refl He) as (l & Hl & Hfields); simpl; [lia | lia |].
  rewrite <- HnX, <- HnY, <- (loop_passes w1) in Hl. simpl in Hl, Hfields.
  exists l. rewrite Hfin, Hl, Hw1.
  assert (Hll : length l = length (row_major nx ny)).
  { rewrite <- (length_map fields l), Hfields. apply length_imap. }
  split; [done|]. split; [lia|]. split; [exact Hfields|].
  unfold tile_id_of.
  change (map (fun f => fields_tile_id (fields f)) l)
    with (map (fields_tile_id ∘ fields) l).
  rewrite <- (map_map fields fields_tile_id), Hfields.
  change (map fields_tile_id ?x) with (fields_tile_id <$> x).
  rewrite fmap_imap. simpl.
  rewrite (imap_ext _ (fun j _ => Some (Z.of_nat j))) by done.
  rewrite (imap_seq_0 (row_major nx ny) (fun j => Some (Z.of_nat j))).
  unfold seqZ. rewrite <- Hlen, Nat2Z.id.
  change (map Some ?x) with (Some <$> x).
  rewrite <- list_fmap_compose. apply list_fmap_ext. intros i j _. simpl.
  f_equal. lia.
Qed.

(** *** The rows the loop adds *)

(** Every metadata row the loop adds is the row of a block of the
    lattice. *)
Lemma loop_rows w :
  osRasterLayer <> osMetadataLayer ->
  exists l,
    table_rows (ls_world (loop w)) hDS osMetadataLayer
      = table_rows w hDS osMetadataLayer ++ l /\
    Forall (fun f => exists tid bx by_,
              0 <= bx < nXBlocks /\ 0 <= by_ < nYBlocks /\ block_row tid bx by_ f) l.
Proof.
  intros Hne. rewrite loop_passes.
  destruct (passes_rows (row_major nXBlocks nYBlocks)
              {| ls_world := w; eErr := CE_None; nTileId := 0; nBlocks := 0 |} Hne)
    as (l & Hl & Hall).
  exists l. split; [exact Hl|].
  eapply Forall_impl; [exact Hall|].
  intros f (tid & b & Hin & Hf). apply row_major_elem in Hin.
  exists tid, (fst b), (snd b). destruct Hin as [Hx Hy].
  split; [exact Hx|]. split; [exact Hy|]. exact Hf.
Qed.

(** The rows the loop adds to the metadata table, by pass: the row
    number [i] among the rows added is the row of the block number [i]
    in row-major order, under the tile number [i]. A loop that ends
    without error has added a row for every block. *)
Lemma loop_rows_by_pass w :
  osRasterLayer <> osMetadataLayer ->
  0 < nXSize -> 0 < nYSize -> 0 < nBlockXSize -> 0 < nBlockYSize ->
  nXSize + nBlockXSize <= INT_MAX -> nYSize + nBlockYSize <= INT_MAX ->
  let nx := ceil_div nXSize nBlockXSize in
  let ny := ceil_div nYSize nBlockYSize in
  nx * ny <= INT_MAX ->
  exists l,
    table_rows (ls_world (loop w)) hDS osMetadataLayer
      = table_rows w hDS osMetadataLayer ++ l /\
    Z.of_nat (length l) <= nx * ny /\
    (eErr (loop w) = CE_None -> Z.of_nat (length l) = nx * ny) /\
    forall i f, l !! i = Some f ->
      exists bx by_,
        row_major nx ny !! i = Some (bx, by_) /\
        0 <= bx < nx /\ 0 <= by_ < ny /\
        block_row (Z.of_nat i) bx by_ f.
Proof.
  intros Hne HX HY HbX HbY HmaxX HmaxY nx ny HmaxN.
  assert (HnX : nXBlocks = nx) by (rewrite HnXBlocks; by apply block_count_ceil).
  assert (HnY : nYBlocks = ny) by (rewrite HnYBlocks; by apply block_count_ceil).
  pose proof (ceil_div_pos nXSize nBlockXSize HX HbX) as Hnx.
  pose proof (ceil_div_pos nYSize nBlockYSize HY HbY) as Hny.
  fold nx in Hnx. fold ny in Hny.
  assert (Hlen : Z.of_nat (length (row_major nx ny)) = nx * ny)
    by (rewrite row_major_length; lia).
  rewrite (loop_passes w), HnX, HnY.
  destruct (passes_rows_by_block (row_major nx ny)
              {| ls_world := w; eErr := CE_None; nTileId := 0; nBlocks := 0 |}
              Hne eq_refl) as (l & Hl & Hle & Hall & Hrows); simpl; [lia | lia |].
  exists l. split; [exact Hl|]. split; [lia|]. split; [intros He; rewrite Hall by done; lia|].
  intros i f Hf.
  destruct (lookup_lt_is_Some_2 (row_major nx ny) i) as [[bx by_] Hb].
  { apply lookup_lt_Some in Hf. lia. }
  pose proof (row_major_elem nx ny (bx, by_)) as Hin. simpl in Hin.
  destruct Hin as [Hx Hy].
  { apply list_elem_of_In. by eapply list_elem_of_lookup_2. }
  exists bx, by_. split; [exact Hb|]. split; [exact Hx|]. split; [exact Hy|].
  exact (Hrows i f (bx, by_) Hf Hb).
Qed.

(** C3. The loop adds the metadata rows in the order of its passes, one
    for each block it gets through, and a loop that ends without error
    has added the row of every block. The block at column [bx] of
    block-row [by_] is the block number [by_ * nx + bx] in row-major
    order, and its row is the row of that number among the rows added.
    That row records the actual size (w, h) of the block, the block size
    cut at the edge of the raster, and carries the ring of the rectangle
    with
    minx = x0 + bx*blockW*px, maxx = x0 + (bx*blockW + w)*px,
    maxy = y0 + by*blockH*py, miny = y0 + (by*blockH + h)*py,
    where (x0, y0) is the origin [gt0], [gt3] of the transform, px =
    [gt1] and py = [gt5] the signed vertical coefficient. The products
    of integers are exact (sizes are positive and the [int]
    computations do not overflow); the sums and products with px and py
    are those of doubles. *)
Theorem block_rectangle_formula (w : World) :
  osRasterLayer <> osMetadataLayer ->
  0 < nXSize -> 0 < nYSize -> 0 < nBlockXSize -> 0 < nBlockYSize ->
  nXSize + nBlockXSize <= INT_MAX -> nYSize + nBlockYSize <= INT_MAX ->
  let nx := ceil_div nXSize nBlockXSize in
  let ny := ceil_div nYSize nBlockYSize in
  nx * ny <= INT_MAX ->
  let x0 := gt0 adfGeoTransform in
  let px := gt1 adfGeoTransform in
  let y0 := gt3 adfGeoTransform in
  let py := gt5 adfGeoTransform in
  exists l,
    table_rows (ls_world (loop w)) hDS osMetadataLayer
      = table_rows w hDS osMetadataLayer ++ l /\
    Z.of_nat (length l) <= nx * ny /\
    (eErr (loop w) = CE_None -> Z.of_nat (length l) = nx * ny) /\
    forall bx by_, 0 <= bx < nx -> 0 <= by_ < ny ->
      row_major nx ny !! Z.to_nat (by_ * nx + bx) = Some (bx, by_) /\
      forall f, l !! Z.to_nat (by_ * nx + bx) = Some f ->
        exists m,
          fields f = MetaFields m /\
          tile_id m = by_ * nx + bx /\
          width m = Z.min nBlockXSize (nXSize - bx * nBlockXSize) /\
          height m = Z.min nBlockYSize (nYSize - by_ * nBlockYSize) /\
          let minx := (x0 + double_of_int (bx * nBlockXSize) * px)%float in
          let maxx := (x0 + double_of_int (bx * nBlockXSize + width m) * px)%float in
          let maxy := (y0 + double_of_int (by_ * nBlockYSize) * py)%float in
          let miny := (y0 + double_of_int (by_ * nBlockYSize + height m) * py)%float in
          geometry m = [(minx, miny); (minx, maxy); (maxx, maxy); (maxx, miny); (minx, miny)].
Proof.
  intros Hne HX HY HbX HbY HmaxX HmaxY nx ny HmaxN x0 px y0 py.
  destruct (loop_rows_by_pass w Hne HX HY HbX HbY HmaxX HmaxY HmaxN)
    as (l & Hl & Hle & Hall & Hrows).
  exists l. split; [exact Hl|]. split; [exact Hle|]. split; [exact Hall|].
  intros bx by_ Hx Hy.
  pose proof (row_major_lookup nx ny bx by_ Hx Hy) as Hb.
  split; [exact Hb|]. intros f Hf.
  destruct (Hrows _ f Hf) as (bx' & by' & Hb' & _ & _ & Hrow).
  pose proof (eq_trans (eq_sym Hb') Hb) as Heq. injection Heq as -> ->.
  rewrite Z2Nat.id in Hrow by nia.
  eexists. split; [exact Hrow|]. cbn [tile_id width height geometry metadata_fields].
  split; [done|].
  rewrite !req_size_clip by done.
  split; [done|]. split; [done|]. cbn zeta.
  unfold rectangle, block_minx, block_maxx, block_miny, block_maxy, int_mul, int_add.
  pose proof (ceil_div_bounds nXSize nBlockXSize HbX) as HcX.
  pose proof (ceil_div_bounds nYSize nBlockYSize HbY) as HcY.
  fold nx in HcX. fold ny in HcY.
  rewrite (wrap32_id (nBlockXSize * bx)) by (unfold in_range, INT_MIN, INT_MAX in *; nia).
  rewrite (wrap32_id (nBlockYSize * by_)) by (unfold in_range, INT_MIN, INT_MAX in *; nia).
  rewrite (wrap32_id (nBlockXSize * bx + _)) by (unfold in_range, INT_MIN, INT_MAX in *; nia).
  rewrite (wrap32_id (nBlockYSize * by_ + _)) by (unfold in_range, INT_MIN, INT_MAX in *; nia).
  by rewrite (Z.mul_comm nBlockXSize bx), (Z.mul_comm nBlockYSize by_).
Qed.

(** C7. The loop adds the metadata rows in the order of its passes, one
    for each block it gets through, and a loop that ends without error
    has added the row of every block. The row number [i] among the rows
    added is the row of the block number [i] in row-major order, at
    column [bx] of block-row [by_]. It records a width of at most
    [nBlockXSize] and a height of at most [nBlockYSize]; the width is
    [nBlockXSize] in every block-column but the last, where it is
    [nXSize mod nBlockXSize], or [nBlockXSize] when that is zero;
    likewise for the height and the last block-row. Sizes are positive
    and the [int] computations do not overflow. *)
Theorem tile_size_bounds (w : World) :
  osRasterLayer <> osMetadataLayer ->
  0 < nXSize -> 0 < nYSize -> 0 < nBlockXSize -> 0 < nBlockYSize ->
  nXSize + nBlockXSize <= INT_MAX -> nYSize + nBlockYSize <= INT_MAX ->
  let nx := ceil_div nXSize nBlockXSize in
  let ny := ceil_div nYSize nBlockYSize in
  nx * ny <= INT_MAX ->
  exists l,
    table_rows (ls_world (loop w)) hDS osMetadataLayer
      = table_rows w hDS osMetadataLayer ++ l /\
    Z.of_nat (length l) <= nx * ny /\
    (eErr (loop w) = CE_None -> Z.of_nat (length l) = nx * ny) /\
    forall i f, l !! i = Some f ->
      exists bx by_ m,
        row_major nx ny !! i = Some (bx, by_) /\
        0 <= bx < nx /\ 0 <= by_ < ny /\
        fields f = MetaFields m /\
        tile_id m = Z.of_nat i /\
        0 < width m <= nBlockXSize /\
        0 < height m <= nBlockYSize /\
        (bx < nx - 1 -> width m = nBlockXSize) /\
        (bx = nx - 1 ->
         width m = if nXSize mod nBlockXSize =? 0 then nBlockXSize
                   else nXSize mod nBlockXSize) /\
        (by_ < ny - 1 -> height m = nBlockYSize) /\
        (by_ = ny - 1 ->
         height m = if nYSize mod nBlockYSize =? 0 then nBlockYSize
                    else nYSize mod nBlockYSize).
Proof.
  intros Hne HX HY HbX HbY HmaxX HmaxY nx ny HmaxN.
  destruct (loop_rows_by_pass w Hne HX HY HbX HbY HmaxX HmaxY HmaxN)
    as (l & Hl & Hle & Hall & Hrows).
  exists l. split; [exact Hl|]. split; [exact Hle|]. split; [exact Hall|].
  intros i f Hf.
  destruct (Hrows i f Hf) as (bx & by_ & Hb & Hx & Hy & Hrow).
  eexists bx, by_, _. split; [exact Hb|]. split; [exact Hx|]. split; [exact Hy|].
  split; [exact Hrow|]. cbn [tile_id width height metadata_fields].
  split; [done|].
  pose proof (ceil_div_bounds nXSize nBlockXSize HbX) as HcX.
  pose proof (ceil_div_bounds nYSize nBlockYSize HbY) as HcY.
  fold nx in HcX. fold ny in HcY.
  repeat split.
  - rewrite req_size_clip by done. nia.
  - rewrite req_size_clip by done. lia.
  - rewrite req_size_clip by done. nia.
  - rewrite req_size_clip by done. lia.
  - intros Hin. apply req_size_inner; try done. fold nx. lia.
  - intros ->. by apply req_size_last.
  - intros Hin. apply req_size_inner; try done. fold ny. lia.
  - intros ->. by apply req_size_last.
Qed.

(** C6, as amended. The metadata row the loop adds records as
    [pixel_y_size] the negation of the signed vertical coefficient
    [gt5] of the transform. When that coefficient is negative (a
    north-up raster) the value is its absolute value and is positive. *)
Theorem pixel_y_size_negated (w : World) :
  osRasterLayer <> osMetadataLayer ->
  exists l,
    table_rows (ls_world (loop w)) hDS osMetadataLayer
      = table_rows w hDS osMetadataLayer ++ l /\
    Forall (fun f => exists m,
      fields f = MetaFields m /\
      pixel_y_size m = PrimFloat.opp (gt5 adfGeoTransform) /\
      (PrimFloat.ltb (gt5 adfGeoTransform) 0 = true ->
       pixel_y_size m = PrimFloat.abs (gt5 adfGeoTransform) /\
       PrimFloat.ltb 0 (pixel_y_size m) = true)) l.
Proof.
  intros Hne.
  destruct (loop_rows w Hne) as (l & Hl & Hall).
  exists l. split; [exact Hl|].
  eapply Forall_impl; [exact Hall|].
  intros f (tid & bx & by_ & _ & _ & Hf).
  eexists. split; [exact Hf|]. simpl. split; [done|].
  apply opp_negative.
Qed.

End LoopFacts.

(** ** Block size *)

Lemma clamp_block_minmax n : clamp_block n = Z.max 64 (Z.min 4096 n).
Proof.
  unfold clamp_block.
  destruct (Z.ltb_spec n 64); [lia|]. destruct (Z.gtb_spec n 4096); lia.
Qed.

(** C8. With TILED true, which it is when the option is not given, the
    block dimensions are the values of BLOCKXSIZE and BLOCKYSIZE (each
    256 when not given), each brought into [64, 4096] on its own. With
    TILED false the block has the width and height of the raster as
    they are, and the raster is then one block: one block-column and
    one block-row, of the full width and height (for sizes whose
    doubling fits an [int]). *)
Theorem block_size_options (papszOptions : list string) (nXSize nYSize : Z) :
  let bTiled := CPLTestBool (CSLFetchNameValueDef papszOptions "TILED" "YES") in
  let x := atoi (CSLFetchNameValueDef papszOptions "BLOCKXSIZE" "256") in
  let y := atoi (CSLFetchNameValueDef papszOptions "BLOCKYSIZE" "256") in
  (CSLFetchNameValue papszOptions "TILED" = None -> bTiled = true) /\
  (CSLFetchNameValue papszOptions "BLOCKXSIZE" = None -> x = 256) /\
  (CSLFetchNameValue papszOptions "BLOCKYSIZE" = None -> y = 256) /\
  (bTiled = true ->
   block_size papszOptions nXSize nYSize = (Z.max 64 (Z.min 4096 x), Z.max 64 (Z.min 4096 y))) /\
  (bTiled = false ->
   block_size papszOptions nXSize nYSize = (nXSize, nYSize) /\
   (0 < nXSize -> nXSize + nXSize <= INT_MAX ->
    block_count nXSize nXSize = 1 /\ req_size 0 nXSize nXSize = nXSize) /\
   (0 < nYSize -> nYSize + nYSize <= INT_MAX ->
    block_count nYSize nYSize = 1 /\ req_size 0 nYSize nYSize = nYSize)).
Proof.
  intros bTiled x y.
  assert (Hone : forall n, 0 < n -> n + n <= INT_MAX ->
                   block_count n n = 1 /\ req_size 0 n n = n).
  { intros n Hn Hmax.
    assert (Hc : ceil_div n n = 1) by (symmetry; apply ceil_div_unique; lia).
    split.
    - by rewrite block_count_ceil.
    - rewrite req_size_clip by lia. lia. }
  unfold bTiled, x, y, block_size, CSLFetchNameValueDef.
  split; [by intros ->|]. split; [by intros ->|]. split; [by intros ->|].
  split.
  - intros ->. by rewrite !clamp_block_minmax.
  - intros ->. split; [done|]. split; apply Hone.
Qed.

(** ** The target specifier *)

Lemma scan_tokens_no_table tokens osTableName w :
  no_table_token tokens ->
  exists w', scan_tokens tokens osTableName w = (w', osTableName) /\
             fs w' = fs w /\ txn w' = txn w.
Proof.
  intros H. revert w. induction H as [|t r Ht _ IH]; intros w; simpl.
  - by exists w.
  - rewrite Ht. destruct (IH (CPLError CE_Warning ("Invalid option : " ++ t)%string w))
      as (w' & -> & Hfs & Htxn).
    by exists w'.
Qed.

(** Before the store is opened the operation fails without touching a
    file, and once the source and the options are let through, what it
    returns is what the analysis of the specifier leaves. *)
Lemma create_copy_early env pszFilename poSrcDS papszOptions pfnProgress w w' :
  analyze_filename pszFilename w = (w', None) ->
  fs w' = fs w -> txn w' = txn w ->
  let out := RasterliteCreateCopy env pszFilename poSrcDS papszOptions pfnProgress w in
  snd out = None /\ fs (fst out) = fs w /\ txn (fst out) = txn w /\
  (accepted env poSrcDS papszOptions -> fst out = w').
Proof.
  intros Ha Hfs Htxn. unfold RasterliteCreateCopy, accepted.
  destruct (RasterCount poSrcDS =? 0) eqn:Hb.
  { apply Z.eqb_eq in Hb. simpl. repeat split; try done. by intros [? _]. }
  destruct (EQUAL _ "MEM") eqn:Hm.
  { simpl. repeat split; try done. by intros (_ & ? & _). }
  destruct (EQUAL _ "VRT") eqn:Hv.
  { simpl. repeat split; try done. by intros (_ & _ & ? & _). }
  simpl.
  destruct (GDALGetDriverByName env (CSLFetchNameValueDef papszOptions "DRIVER" "GTiff")) eqn:Hd.
  2:{ simpl. repeat split; try done. by intros (_ & _ & _ & ? & _). }
  destruct (GDALGetDriverByName env "MEM") eqn:Hmem.
  2:{ simpl. repeat split; try done. by intros (_ & _ & _ & _ & ? & _). }
  simpl.
  destruct (source_geotransform poSrcDS) as [g|] eqn:Hg.
  2:{ simpl. repeat split; try done. intros (_ & _ & _ & _ & _ & [? ?]). done. }
  destruct (block_size papszOptions (RasterXSize poSrcDS) (RasterYSize poSrcDS)).
  rewrite Ha. simpl. by repeat split.
Qed.

(** C9, as amended. A target specifier with no [table=] token after
    its first token. When it has a first token (it is not made of commas
    only) and the store file it names exists, the operation fails, no
    file is touched, and for a source and options that pass the earlier
    checks the error logged last is the one asking for an explicit table
    name. When the store file does not exist, the table name is the base
    name of the store path. A specifier without any token takes its own
    base name as table name when that is not empty, whether the file
    exists or not, and does not fail here. *)
Theorem ambiguous_target (env : Env) (pszFilename : string) (poSrcDS : SrcDS)
  (papszOptions : list string) (pfnProgress : option (double -> bool)) (w : World) :
  let tokens := CSLTokenizeStringComplex (without_prefix pszFilename) in
  let osDBName := store_path pszFilename in
  no_table_token (tail tokens) ->
  (tokens <> [] -> VSIStat osDBName w = true ->
   let out := RasterliteCreateCopy env pszFilename poSrcDS papszOptions pfnProgress w in
   snd out = None /\ fs (fst out) = fs w /\ txn (fst out) = txn w /\
   (accepted env poSrcDS papszOptions ->
    head (log (fst out)) =
      Some (EvError CE_Failure
              "Database already exists. Explicit table name must be specified"))) /\
  (VSIStat osDBName w = false ->
   exists w', analyze_filename pszFilename w
                = (w', Some (osDBName, CPLGetBasenameSafe osDBName, false)) /\
              fs w' = fs w) /\
  (tokens = [] -> CPLGetBasenameSafe osDBName <> "" ->
   analyze_filename pszFilename w
     = (w, Some (osDBName, CPLGetBasenameSafe osDBName, VSIStat osDBName w))).
Proof.
  intros tokens osDBName Hno. unfold osDBName, store_path. fold tokens.
  destruct tokens as [|t0 rest] eqn:Htok; simpl in Hno.
  - split; [done|]. split.
    + intros Hex. exists w. split; [|done].
      unfold analyze_filename. fold tokens. rewrite Htok. cbn zeta. rewrite Hex.
      by destruct (string_empty (CPLGetBasenameSafe (without_prefix pszFilename))).
    + intros _ Hne. unfold analyze_filename. fold tokens. rewrite Htok. cbn zeta.
      destruct (CPLGetBasenameSafe (without_prefix pszFilename)); [done|]. done.
  - destruct (scan_tokens_no_table rest "" w Hno) as (w1 & Hscan & Hfs & Htxn).
    assert (Hstat : VSIStat t0 w1 = VSIStat t0 w)
      by (unfold VSIStat; by rewrite Hfs).
    split; [|split; [|done]].
    + intros _ Hex.
      assert (Ha : analyze_filename pszFilename w =
                   (CPLError CE_Failure
                      "Database already exists. Explicit table name must be specified" w1,
                    None)).
      { unfold analyze_filename. fold tokens.
        rewrite Htok, Hscan. simpl. by rewrite Hstat, Hex. }
      destruct (create_copy_early env pszFilename poSrcDS papszOptions pfnProgress w _ Ha)
        as (Hr & Hf & Ht & Hlog); [done|done|].
      split; [done|]. split; [done|]. split; [done|].
      intros Hacc. by rewrite (Hlog Hacc).
    + intros Hex. exists w1. split; [|done].
      unfold analyze_filename. fold tokens.
      rewrite Htok, Hscan. simpl. by rewrite Hstat, Hex.
Qed.

(** ** Worlds in which a store is open

    [opened p d t l m] is the world whose store at [p] holds [d], with
    transaction snapshot [t], log [l], and the files [m] elsewhere. The
    lemmas of the database [world] say what each call does to it. *)

Lemma opened_here w p d :
  fs w !! p = Some (SQLiteDB d) -> w = opened p d (txn w) (log w) (fs w).
Proof.
  intros H. unfold opened. rewrite insert_id by done. by destruct w.
Qed.

Lemma opened_store p d t l m : store_of (opened p d t l m) (Some p) = Some d.
Proof. unfold store_of, opened. simpl. by rewrite lookup_insert_eq. Qed.

Lemma opened_exec env s p d t l m :
  GDALDatasetExecuteSQL env (Some p) s (opened p d t l m) =
    (opened p (fst (fst (sql_exec env s d t))) (snd (fst (sql_exec env s d t)))
       (EvSQL s :: l) m,
     snd (sql_exec env s d t)).
Proof.
  unfold GDALDatasetExecuteSQL. rewrite opened_store.
  unfold opened. simpl.
  destruct (sql_exec env s d t) as [[d' t'] r]. simpl.
  by rewrite insert_insert_eq.
Qed.

Lemma opened_close p d l m :
  GDALClose (Some p) (opened p d None l m) = opened p d None (EvClose p :: l) m.
Proof. unfold GDALClose. by rewrite opened_store. Qed.

Lemma opened_reopen p d t l m :
  RasterliteOpenSQLiteDB p (opened p d t l m) = (opened p d None (EvOpen p :: l) m, Some p).
Proof.
  unfold RasterliteOpenSQLiteDB, opened. simpl. by rewrite lookup_insert_eq.
Qed.

Lemma opened_layer p d t l m name :
  GDALDatasetGetLayerByName (Some p) name (opened p d t l m)
    = bool_decide (is_Some (tables d !! name)).
Proof. unfold GDALDatasetGetLayerByName. by rewrite opened_store. Qed.

Lemma opened_error c msg p d t l m :
  CPLError c msg (opened p d t l m) = opened p d t (EvError c msg :: l) m.
Proof. reflexivity. Qed.

Lemma opened_rows p d t l m layer :
  table_rows (opened p d t l m) (Some p) layer =
    match tables d !! layer with Some tb => rows tb | None => [] end.
Proof. unfold table_rows. by rewrite opened_store. Qed.

Create Rewrite HintDb world.
#[local] Hint Rewrite opened_store opened_exec opened_close opened_reopen opened_layer
  opened_error : world.

(** ** The spatial reference registrar *)

Lemma string_empty_iff s : string_empty s = true <-> s = "".
Proof. destruct s; simpl; split; congruence. Qed.

Lemma insert_srid_untracked env hDS pszWKT w code name projcs proj4 :
  srs_of_wkt env pszWKT = (code, name, projcs, proj4) ->
  code = 0 \/ name = "" ->
  RasterliteInsertSRID env hDS pszWKT w = (w, -1).
Proof.
  intros Hs Hc. unfold RasterliteInsertSRID. rewrite Hs.
  destruct Hc as [-> | ->]; simpl; [done|]. by rewrite andb_false_r.
Qed.

(** What the function does on an open store, by the answer to its
    lookup. *)
Lemma insert_srid_opened env pszWKT p d t l m code name projcs proj4 :
  srs_of_wkt env pszWKT = (code, name, projcs, proj4) ->
  code <> 0 -> name <> "" ->
  RasterliteInsertSRID env (Some p) pszWKT (opened p d t l m) =
    match snd (sql_exec env (SelectSrid code) d t) with
    | None =>
        (opened p (fst (fst (sql_exec env (InsertSrs (new_srs_row code name projcs proj4)) d t)))
           t (EvSQL (InsertSrs (new_srs_row code name projcs proj4))
                :: EvSQL (SelectSrid code) :: l) m, code)
    | Some lst =>
        (opened p d t (EvSQL (SelectSrid code) :: l) m,
         match head lst with Some v => v | None => -1 end)
    end.
Proof.
  intros Hs Hc Hn. unfold RasterliteInsertSRID. rewrite Hs.
  assert (Hcond : negb (code =? 0) && negb (string_empty name) = true).
  { apply andb_true_intro. split; apply negb_true_iff.
    - by apply Z.eqb_neq.
    - destruct (string_empty name) eqn:He; [|done]. by apply string_empty_iff in He. }
  rewrite Hcond. rewrite opened_exec.
  assert (Hsel : fst (sql_exec env (SelectSrid code) d t) = (d, t))
    by (simpl; by destruct (spatial_ref_sys d)).
  destruct (sql_exec env (SelectSrid code) d t) as [[d1 t1] r].
  injection Hsel as -> ->. cbn [fst snd].
  destruct r as [lst|].
  - unfold first_feature. by destruct (head lst).
  - rewrite opened_exec. fold (new_srs_row code name projcs proj4).
    f_equal. f_equal. simpl.
    destruct (spatial_ref_sys d); [|done]. by destruct (existsb _ _).
Qed.


Lemma insert_srid_frame env pszWKT p d t l m :
  exists d' new,
    fst (RasterliteInsertSRID env (Some p) pszWKT (opened p d t l m))
      = opened p d' t (new ++ l) m /\
    tables d' = tables d /\ geometry_columns d' = geometry_columns d /\
    Forall setup_event new.
Proof.
  destruct (srs_of_wkt env pszWKT) as [[[code name] projcs] proj4] eqn:Hs.
  destruct (Z.eq_dec code 0) as [Hc|Hc].
  { rewrite (insert_srid_untracked env _ pszWKT _ code name projcs proj4 Hs) by auto.
    by exists d, []. }
  destruct (decide (name = "")) as [Hn|Hn].
  { rewrite (insert_srid_untracked env _ pszWKT _ code name projcs proj4 Hs) by auto.
    by exists d, []. }
  rewrite (insert_srid_opened env pszWKT p d t l m code name projcs proj4 Hs Hc Hn).
  destruct (snd (sql_exec env (SelectSrid code) d t)) as [lst|]; cbn [fst].
  - exists d, [EvSQL (SelectSrid code)]. repeat split; try done.
    by repeat constructor.
  - eexists _, [EvSQL (InsertSrs _); EvSQL (SelectSrid code)].
    split; [reflexivity|]. simpl.
    destruct (spatial_ref_sys d); [destruct (existsb _ _)|]; simpl;
      repeat split; by repeat constructor.
Qed.

(** ** The schema manager on existing tables *)

(** The consistency check on an open store with no transaction open, by
    the answer to the query on the geometry columns. *)
Lemma check_existing_opened env p osMetadataLayer nSRSId bWipe d l m :
  check_existing_srs env (Some p) p osMetadataLayer nSRSId bWipe (opened p d None l m) =
    let q := EvSQL (SelectGeomSrid osMetadataLayer) in
    match select_result env
            (map snd (filter (fun q => fst q = osMetadataLayer) (geometry_columns d))) with
    | Some lst =>
        if negb (match head lst with Some v => v | None => -1 end =? nSRSId) then
          if bWipe then
            (opened p
               (set_geometry_columns d
                  (map (bind_srid nSRSId osMetadataLayer) (geometry_columns d)))
               None
               (EvOpen p :: EvClose p :: EvSQL (UpdateGeomSrid nSRSId osMetadataLayer)
                  :: q :: l) m,
             inr (Some p))
          else
            (opened p d None (EvClose p :: EvError CE_Failure srs_mismatch_message :: q :: l) m,
             inl tt)
        else (opened p d None (q :: l) m, inr (Some p))
    | None => (opened p d None (q :: l) m, inr (Some p))
    end.
Proof.
  unfold check_existing_srs. rewrite opened_exec. cbn [sql_exec fst snd].
  destruct (select_result env _) as [lst|]; [|done].
  unfold first_feature.
  destruct (negb (_ =? nSRSId)); [|done].
  destruct bWipe.
  - rewrite opened_exec. cbn [sql_exec fst snd].
    rewrite opened_close, opened_reopen. done.
  - by rewrite opened_error, opened_close.
Qed.

Lemma bound_srid_select env name g v :
  bound_srid name g = Some v ->
  exists rest, select_result env (map snd (filter (fun q => fst q = name) g))
               = Some (v :: rest).
Proof.
  unfold bound_srid. destruct (map snd _) as [|v' rest]; [done|].
  intros [= ->]. by exists rest.
Qed.

Lemma bound_srid_rebound name nSRSId g v :
  bound_srid name g = Some v ->
  bound_srid name (map (bind_srid nSRSId name) g) = Some nSRSId.
Proof.
  unfold bound_srid. induction g as [|[n s] g IH]; [done|].
  simpl. unfold bind_srid at 1. simpl. rewrite !filter_cons. simpl.
  destruct (String.eqb_spec n name) as [->|Hne].
  - simpl. by rewrite !decide_True.
  - simpl. rewrite !decide_False by done. exact IH.
Qed.

Lemma create_tables_reuse env p pszTableName nSRSId bWipe d l m :
  is_Some (tables d !! rasters_of pszTableName) ->
  RasterliteCreateTables env (Some p) pszTableName nSRSId bWipe (opened p d None l m) =
    match check_existing_srs env (Some p) p (metadata_of pszTableName) nSRSId bWipe
            (opened p d None l m) with
    | (w, inl _) => (w, None)
    | (w, inr hDS) =>
        if bWipe then
          let '(w, _) := GDALDatasetExecuteSQL env hDS (DeleteFrom (rasters_of pszTableName)) w in
          let '(w, _) := GDALDatasetExecuteSQL env hDS (DeleteFrom (metadata_of pszTableName)) w in
          (w, hDS)
        else (w, hDS)
    end.
Proof.
  intros Hr. unfold RasterliteCreateTables. rewrite opened_layer.
  by rewrite bool_decide_eq_true_2.
Qed.

(** The reuse branch when the geometry column is bound to another SRID. *)
Lemma create_tables_mismatch env p pszTableName nSRSId bWipe d l m existing :
  is_Some (tables d !! rasters_of pszTableName) ->
  bound_srid (metadata_of pszTableName) (geometry_columns d) = Some existing ->
  existing <> nSRSId ->
  RasterliteCreateTables env (Some p) pszTableName nSRSId bWipe (opened p d None l m) =
    let q := EvSQL (SelectGeomSrid (metadata_of pszTableName)) in
    if bWipe then
      (opened p
         (set_tables
            (set_geometry_columns d
               (map (bind_srid nSRSId (metadata_of pszTableName)) (geometry_columns d)))
            (alter delete_rows (metadata_of pszTableName)
               (alter delete_rows (rasters_of pszTableName) (tables d))))
         None
         (EvSQL (DeleteFrom (metadata_of pszTableName))
            :: EvSQL (DeleteFrom (rasters_of pszTableName))
            :: EvOpen p :: EvClose p
            :: EvSQL (UpdateGeomSrid nSRSId (metadata_of pszTableName)) :: q :: l) m,
       Some p)
    else
      (opened p d None (EvClose p :: EvError CE_Failure srs_mismatch_message :: q :: l) m,
       None).
Proof.
  intros Hr Hb Hne. rewrite create_tables_reuse by done.
  rewrite check_existing_opened. cbn zeta.
  destruct (bound_srid_select env _ _ _ Hb) as [rest ->]. cbn [head].
  assert (Hm : negb (existing =? nSRSId) = true)
    by (apply negb_true_iff; by apply Z.eqb_neq).
  rewrite Hm. destruct bWipe; [|done].
  by rewrite !opened_exec.
Qed.


(** ** A raster table without its metadata table *)


(** * Further properties of the create-copy

    What the stages of [RasterliteCreateCopy] do beyond the claims of
    the specification: the option translation, the checks, the analysis
    of the target, the registrar and the schema manager on their other
    branches, and the composition of the stages on a store that
    cooperates. *)

(** ** Tile driver options (lines 24-82) *)

(** X1. For the GTiff tile driver (the default) the options handed to
    the tile driver are QUALITY under the name JPEG_QUALITY, then
    COMPRESS, then PHOTOMETRIC, each when the caller gave it and with
    the value given; nothing is logged. *)
Theorem tile_options_gtiff (papszOptions : list string) (w : World) :
  EQUAL (CSLFetchNameValueDef papszOptions "DRIVER" "GTiff") "GTiff" = true ->
  RasterliteGetTileDriverOptions papszOptions w =
    (w, forwarded "JPEG_QUALITY" (CSLFetchNameValue papszOptions "QUALITY")
        ++ forwarded "COMPRESS" (CSLFetchNameValue papszOptions "COMPRESS")
        ++ forwarded "PHOTOMETRIC" (CSLFetchNameValue papszOptions "PHOTOMETRIC")).
Proof.
  intros Hd.
  unfold RasterliteGetTileDriverOptions, RasterliteAddTileDriverOptionsForDriver.
  rewrite Hd.
  destruct (CSLFetchNameValue papszOptions "QUALITY") as [q|];
    destruct (CSLFetchNameValue papszOptions "COMPRESS") as [c|];
    destruct (CSLFetchNameValue papszOptions "PHOTOMETRIC") as [ph|];
    reflexivity.
Qed.

(** X2. For a tile driver other than GTiff, COMPRESS and PHOTOMETRIC
    are never handed on, and QUALITY is handed on, under its own name,
    to JPEG and WEBP only; every option given and not handed on is
    answered by one warning, in the order QUALITY, COMPRESS,
    PHOTOMETRIC, and no file is touched. *)
Theorem tile_options_other (papszOptions : list string) (w : World) :
  let drv := CSLFetchNameValueDef papszOptions "DRIVER" "GTiff" in
  let lossy := EQUAL drv "JPEG" || EQUAL drv "WEBP" in
  EQUAL drv "GTiff" = false ->
  let out := RasterliteGetTileDriverOptions papszOptions w in
  snd out = (if lossy then forwarded "QUALITY" (CSLFetchNameValue papszOptions "QUALITY")
             else []) /\
  fs (fst out) = fs w /\ txn (fst out) = txn w /\
  log (fst out) =
    warned papszOptions "PHOTOMETRIC" ++ warned papszOptions "COMPRESS"
      ++ (if lossy then [] else warned papszOptions "QUALITY") ++ log w.
Proof.
  intros drv lossy Hd out. unfold out, lossy, warned.
  unfold RasterliteGetTileDriverOptions, RasterliteAddTileDriverOptionsForDriver.
  fold drv. rewrite Hd.
  destruct (EQUAL drv "JPEG" || EQUAL drv "WEBP");
  destruct (CSLFetchNameValue papszOptions "QUALITY") as [q|];
    destruct (CSLFetchNameValue papszOptions "COMPRESS") as [c|];
    destruct (CSLFetchNameValue papszOptions "PHOTOMETRIC") as [ph|];
    repeat split; reflexivity.
Qed.

(** ** The checks and the target specifier (lines 315-443) *)

(** X3. A source or options that do not pass the checks of lines
    315-365 (no band, MEM or VRT as tile driver, a driver that is not
    registered, a geotransform with rotation) make the operation return
    [nullptr] with exactly one error logged, before the specifier is
    read: no file and no transaction is touched. *)
Theorem configuration_errors (env : Env) (pszFilename : string) (poSrcDS : SrcDS)
  (papszOptions : list string) (pfnProgress : option (double -> bool)) (w : World) :
  ~ accepted env poSrcDS papszOptions ->
  let out := RasterliteCreateCopy env pszFilename poSrcDS papszOptions pfnProgress w in
  snd out = None /\ exists msg, fst out = CPLError CE_Failure msg w.
Proof.
  intros Hn. unfold RasterliteCreateCopy. unfold accepted in Hn.
  destruct (RasterCount poSrcDS =? 0) eqn:Hb; [simpl; eauto|].
  apply Z.eqb_neq in Hb.
  destruct (EQUAL _ "MEM") eqn:Hm; [simpl; eauto|].
  destruct (EQUAL _ "VRT") eqn:Hv; [simpl; eauto|].
  cbn [orb].
  destruct (GDALGetDriverByName env (CSLFetchNameValueDef papszOptions "DRIVER" "GTiff")) eqn:Hd;
    [|simpl; eauto].
  destruct (GDALGetDriverByName env "MEM") eqn:Hmem; [|simpl; eauto].
  cbn [negb].
  destruct (source_geotransform poSrcDS) as [g|] eqn:Hg; [|simpl; eauto].
  exfalso. apply Hn. repeat split; try done; eauto.
Qed.

Lemma scan_tokens_app l1 l2 name w :
  scan_tokens (l1 ++ l2) name w =
    scan_tokens l2 (snd (scan_tokens l1 name w)) (fst (scan_tokens l1 name w)).
Proof.
  revert name w. induction l1 as [|t r IH]; intros name w; [done|].
  simpl. by destruct (STARTS_WITH_CI t "table=").
Qed.

(** X4. When the specifier has several [table=] tokens the last one
    gives the table name, whatever came before it; the tokens that are
    not [table=] tokens only log warnings. *)
Theorem last_table_token_wins (before after : list string) (tok osTableName : string)
  (w : World) :
  STARTS_WITH_CI tok "table=" = true -> no_table_token after ->
  let out := scan_tokens (before ++ tok :: after) osTableName w in
  snd out = skip 6 tok /\ fs (fst out) = fs w /\ txn (fst out) = txn w.
Proof.
  intros Ht Hno out. unfold out. rewrite scan_tokens_app. simpl. rewrite Ht.
  destruct (scan_tokens_no_table after (skip 6 tok) (fst (scan_tokens before osTableName w)) Hno)
    as (w' & -> & Hfs & Htxn).
  simpl. split; [done|]. rewrite Hfs, Htxn.
  clear. revert osTableName w.
  induction before as [|t r IH]; intros name w; [done|].
  simpl. destruct (STARTS_WITH_CI t "table="); [apply IH|].
  destruct (IH name (CPLError CE_Warning ("Invalid option : " ++ t) w)) as [H1 H2].
  by rewrite H1, H2.
Qed.

(** *** C strings *)

Lemma substring_all s : String.substring 0 (String.length s) s = s.
Proof. induction s as [|c s IH]; [done|]. simpl. by rewrite IH. Qed.

Lemma substring_prefix a b : String.substring 0 (String.length a) (a ++ b) = a.
Proof.
  induction a as [|c a IH]; simpl.
  - by destruct b.
  - by rewrite IH.
Qed.

Lemma string_length_app a b : String.length (a ++ b) = (String.length a + String.length b)%nat.
Proof. induction a as [|c a IH]; simpl; [done|]. by rewrite IH. Qed.

Lemma skip_prefix a b : skip (String.length a) (a ++ b) = b.
Proof.
  unfold skip. rewrite string_length_app.
  replace (String.length a + String.length b - String.length a)%nat
    with (String.length b) by lia.
  induction a as [|c a IH]; simpl.
  - apply substring_all.
  - exact IH.
Qed.

(** X5. The scheme [RASTERLITE:] in front of the specifier is optional
    and its case does not matter: with it the analysis gives the store,
    the table name and the messages it gives without it. The target is
    one that does not itself begin with the scheme. *)
Theorem scheme_prefix_optional (scheme target : string) (w : World) :
  String.length scheme = 11%nat -> EQUAL scheme "RASTERLITE:" = true ->
  STARTS_WITH_CI target "RASTERLITE:" = false ->
  analyze_filename (scheme ++ target) w = analyze_filename target w.
Proof.
  intros Hlen Heq Hno.
  assert (Hw : without_prefix (scheme ++ target) = without_prefix target).
  { unfold without_prefix. rewrite Hno.
    assert (Hs : STARTS_WITH_CI (scheme ++ target) "RASTERLITE:" = true).
    { unfold STARTS_WITH_CI.
      change (String.length "RASTERLITE:") with 11%nat. rewrite <- Hlen.
      rewrite substring_prefix, Heq, string_length_app. simpl.
      apply Nat.leb_le. lia. }
    rewrite Hs. rewrite <- Hlen. apply skip_prefix. }
  unfold analyze_filename. by rewrite Hw.
Qed.

(** ** The spatial reference registrar, called again *)

(** X6. Registering the same descriptor a second time returns the SRID
    the first call returned and leaves the store as the first call left
    it: at most one registry row is inserted, whatever the lookup
    answers. *)
Theorem insert_srid_idempotent (env : Env) (p : string) (w : World) (d : Data)
  (pszWKT : option string) :
  fs w !! p = Some (SQLiteDB d) ->
  let first := RasterliteInsertSRID env (Some p) pszWKT w in
  let second := RasterliteInsertSRID env (Some p) pszWKT (fst first) in
  snd second = snd first /\
  store_of (fst second) (Some p) = store_of (fst first) (Some p).
Proof.
  intros Hp first second. unfold second, first. clear first second.
  destruct (srs_of_wkt env pszWKT) as [[[code name] projcs] proj4] eqn:Hs.
  destruct (Z.eq_dec code 0) as [Hc|Hc].
  { by rewrite !(insert_srid_untracked env _ pszWKT _ code name projcs proj4 Hs) by auto. }
  destruct (decide (name = "")) as [Hn|Hn].
  { by rewrite !(insert_srid_untracked env _ pszWKT _ code name projcs proj4 Hs) by auto. }
  rewrite (opened_here w p d Hp).
  rewrite (insert_srid_opened env pszWKT p d _ _ _ code name projcs proj4 Hs Hc Hn).
  destruct (snd (sql_exec env (SelectSrid code) d (txn w))) as [lst|] eqn:Hsel; cbn [fst snd].
  - rewrite (insert_srid_opened env pszWKT p d _ _ _ code name projcs proj4 Hs Hc Hn).
    rewrite Hsel. cbn [fst snd]. by rewrite !opened_store.
  - set (r := new_srs_row code name projcs proj4).
    assert (Hcases :
      (fst (fst (sql_exec env (InsertSrs r) d (txn w))) = d) \/
      (exists rs, spatial_ref_sys d = Some rs /\
         filter (fun r' => auth_srid r' = code) rs = [] /\
         fst (fst (sql_exec env (InsertSrs r) d (txn w)))
           = set_spatial_ref_sys d (Some (rs ++ [r])))).
    { simpl in Hsel |- *. destruct (spatial_ref_sys d) as [rs|] eqn:Hrs; [|by left].
      destruct (existsb _ rs); [by left|]. right. exists rs.
      split; [done|]. split; [|done].
      unfold select_result in Hsel.
      by destruct (filter (fun r' => auth_srid r' = code) rs). }
    destruct Hcases as [Hsame | (rs & Hrs & Hhits & Hnew)].
    + rewrite Hsame.
      rewrite (insert_srid_opened env pszWKT p d _ _ _ code name projcs proj4 Hs Hc Hn).
      rewrite Hsel. cbn [fst snd]. fold r. rewrite Hsame. by rewrite !opened_store.
    + rewrite Hnew.
      rewrite (insert_srid_opened env pszWKT p _ _ _ _ code name projcs proj4 Hs Hc Hn).
      assert (Hsel2 : snd (sql_exec env (SelectSrid code)
                             (set_spatial_ref_sys d (Some (rs ++ [r]))) (txn w))
                      = Some [code]).
      { simpl. rewrite filter_app, Hhits. simpl. rewrite filter_cons. simpl.
        by rewrite decide_True. }
      rewrite Hsel2. cbn [fst snd head]. by rewrite !opened_store.
Qed.

(** ** The schema manager on its other branches (lines 170-304) *)

Lemma rasters_metadata_differ T : rasters_of T <> metadata_of T.
Proof.
  unfold rasters_of, metadata_of. induction T as [|c T IH]; simpl; [done|].
  intros [= H]. by apply IH.
Qed.

Lemma bound_srid_none name g :
  bound_srid name g = None -> existsb (fun q => String.eqb (fst q) name) g = false.
Proof.
  unfold bound_srid. induction g as [|[n s] g IH]; [done|].
  rewrite filter_cons. simpl.
  destruct (String.eqb_spec n name) as [->|Hne].
  - by rewrite decide_True.
  - rewrite decide_False by done. exact IH.
Qed.

Lemma bound_srid_app name g v :
  bound_srid name g = None -> bound_srid name (g ++ [(name, v)]) = Some v.
Proof.
  unfold bound_srid. intros H. rewrite filter_app, map_app.
  destruct (map snd (filter (fun q => fst q = name) g)); [|done].
  simpl. rewrite filter_cons. simpl. by rewrite decide_True.
Qed.

(** The create branch on an open store in which neither table is there. *)
Lemma create_tables_absent env p pszTableName nSRSId bWipe d l m :
  tables d !! rasters_of pszTableName = None ->
  tables d !! metadata_of pszTableName = None ->
  RasterliteCreateTables env (Some p) pszTableName nSRSId bWipe (opened p d None l m) =
    let osRasterLayer := rasters_of pszTableName in
    let osMetadataLayer := metadata_of pszTableName in
    let created := <[osMetadataLayer := new_table]>
                     (<[osRasterLayer := new_table]> (tables d)) in
    let l2 := EvSQL (AddGeometryColumn osMetadataLayer nSRSId)
                :: EvSQL (CreateMetadataTable osMetadataLayer)
                :: EvSQL (CreateRastersTable osRasterLayer) :: l in
    if Spatialite env then
      (opened p
         (if existsb (fun q => String.eqb (fst q) osMetadataLayer) (geometry_columns d)
          then set_tables d created
          else set_geometry_columns (set_tables d created)
                 (geometry_columns d ++ [(osMetadataLayer, nSRSId)]))
         None
         (EvOpen p :: EvClose p :: EvSQL UpdateLayerStatistics
            :: EvSQL (CreateSpatialIndex osMetadataLayer) :: l2) m,
       Some p)
    else
      (opened p (set_tables d created) None
         (EvClose p
            :: EvError CE_Failure "Check that the OGR SQLite driver has Spatialite support"
            :: l2) m,
       None).
Proof.
  intros Hr Hm. pose proof (rasters_metadata_differ pszTableName) as Hne.
  unfold RasterliteCreateTables. rewrite opened_layer, Hr.
  rewrite bool_decide_eq_false_2 by (by intros [? ?]).
  cbn [negb]. unfold create_tables, GDALGetDescription.
  assert (H1 : create_table (rasters_of pszTableName) d
               = set_tables d (<[rasters_of pszTableName := new_table]> (tables d)))
    by (unfold create_table; by rewrite Hr).
  assert (H2 : create_table (metadata_of pszTableName)
                 (set_tables d (<[rasters_of pszTableName := new_table]> (tables d)))
               = set_tables d (<[metadata_of pszTableName := new_table]>
                                 (<[rasters_of pszTableName := new_table]> (tables d)))).
  { unfold create_table. cbn [tables set_tables].
    by rewrite lookup_insert_ne, Hm by done. }
  rewrite opened_exec. cbn [sql_exec fst snd]. rewrite H1.
  rewrite opened_exec. cbn [sql_exec fst snd]. rewrite H2.
  rewrite opened_exec. cbn [sql_exec fst snd]. cbn zeta.
  destruct (Spatialite env) eqn:Hsp.
  - cbn [tables set_tables geometry_columns]. rewrite lookup_insert_eq.
    destruct (existsb _ (geometry_columns d)); cbn [fst snd];
      rewrite opened_exec; cbn [sql_exec fst snd]; rewrite Hsp; cbn [fst snd];
      rewrite opened_exec; cbn [sql_exec fst snd]; rewrite Hsp; cbn [fst snd];
      by rewrite opened_close, opened_reopen.
  - cbn [fst snd]. by rewrite opened_error, opened_close.
Qed.

(** The reuse branch when the geometry column is bound to the SRID of
    the new data. *)
Lemma create_tables_same_srs env p pszTableName nSRSId bWipe d l m :
  is_Some (tables d !! rasters_of pszTableName) ->
  bound_srid (metadata_of pszTableName) (geometry_columns d) = Some nSRSId ->
  RasterliteCreateTables env (Some p) pszTableName nSRSId bWipe (opened p d None l m) =
    let q := EvSQL (SelectGeomSrid (metadata_of pszTableName)) in
    if bWipe then
      (opened p
         (set_tables d
            (alter delete_rows (metadata_of pszTableName)
               (alter delete_rows (rasters_of pszTableName) (tables d))))
         None
         (EvSQL (DeleteFrom (metadata_of pszTableName))
            :: EvSQL (DeleteFrom (rasters_of pszTableName)) :: q :: l) m,
       Some p)
    else (opened p d None (q :: l) m, Some p).
Proof.
  intros Hr Hb. rewrite create_tables_reuse by done.
  rewrite check_existing_opened. cbn zeta.
  destruct (bound_srid_select env _ _ _ Hb) as [rest ->]. cbn [head].
  rewrite Z.eqb_refl. cbn [negb].
  destruct bWipe; [|done]. by rewrite !opened_exec.
Qed.




(** ** The opening of the store and the overlap advisory *)

(** X11. What [open_store] (lines 455-481) returns. A handle names the
    store at [osDBName], open with no transaction, and needs the SQLite
    driver; an existing store is opened with the data it has and is not
    created again, a missing one is the store [GDALCreate] leaves, and
    no other file is touched. Without handle exactly one error is logged
    and no file is touched: so it is for an existing file that is not a
    store. *)
Theorem open_store_handle (env : Env) (osDBName : string) (w : World) :
  let out := open_store env osDBName (VSIStat osDBName w) w in
  (forall h, snd out = Some h ->
     GDALGetDriverByName env "SQLite" = true /\
     h = osDBName /\ txn (fst out) = None /\
     same_files_but osDBName w (fst out) /\
     (forall d, fs w !! osDBName = Some (SQLiteDB d) ->
                store_of (fst out) (Some h) = Some d /\
                log (fst out) = EvOpen osDBName :: log w) /\
     (fs w !! osDBName = None ->
      store_of (fst out) (Some h) = GDALCreate env osDBName /\
      log (fst out) = EvCreate osDBName :: log w)) /\
  (snd out = None ->
     fs (fst out) = fs w /\ txn (fst out) = txn w /\
     exists msg, log (fst out) = EvError CE_Failure msg :: log w).
Proof.
  intros out. unfold out, open_store, VSIStat, RasterliteOpenSQLiteDB. clear out.
  destruct (GDALGetDriverByName env "SQLite"); cbn [negb].
  2:{ split; [done|]. intros _. simpl. eauto. }
  destruct (fs w !! osDBName) as [[|d]|] eqn:Hf.
  - rewrite bool_decide_eq_true_2 by eauto. cbn [negb]. split; [done|].
    intros _. simpl. eauto.
  - rewrite bool_decide_eq_true_2 by eauto. cbn [negb]. split; [|done].
    intros h [= <-]. simpl. split; [done|]. split; [done|]. split; [done|].
    split; [done|]. split; [|done].
    intros d' [= <-]. unfold store_of. simpl. by rewrite Hf.
  - rewrite bool_decide_eq_false_2 by (by intros [? ?]). cbn [negb].
    destruct (GDALCreate env osDBName) as [d|].
    + split; [|done]. intros h [= <-]. simpl. split; [done|]. split; [done|].
      split; [done|]. split; [intros q Hq; simpl; by rewrite lookup_insert_ne|].
      split; [done|]. intros _. unfold store_of. simpl. by rewrite lookup_insert_eq.
    + split; [done|]. intros _. simpl. eauto.
Qed.

(** X10. The overlap advisory (lines 516-551) asks the store once, for
    the extent of the whole raster and its pixel size, and changes no
    file and no transaction. It logs its warning exactly when the first
    row of the answer is a count other than zero; no answer, or an
    answer without rows, counts as zero. *)
Theorem overlap_advisory (env : Env) (p osTableName : string) (adfGeoTransform : GeoTransform)
  (nXSize nYSize : Z) (w : World) (d : Data) :
  fs w !! p = Some (SQLiteDB d) ->
  let w' := warn_overlaps env (Some p) osTableName adfGeoTransform nXSize nYSize w in
  let nOverlappingGeoms :=
    match CountOverlaps env d osTableName with
    | Some (v :: _) => v
    | _ => 0
    end in
  fs w' = fs w /\ txn w' = txn w /\
  log w' =
    (if nOverlappingGeoms =? 0 then []
     else [EvError CE_Warning
             ("Raster tiles already exist in the " ++ osTableName ++
              " table within the extent of the data to be inserted in")])
    ++ EvSQL (overlap_query osTableName adfGeoTransform nXSize nYSize) :: log w.
Proof.
  intros Hp w' n. unfold w', n. clear w' n.
  assert (Hfs : <[p := SQLiteDB d]> (fs w) = fs w) by (by apply insert_id).
  unfold warn_overlaps, GDALDatasetExecuteSQL, store_of. rewrite Hp.
  cbn [sql_exec]. fold (overlap_query osTableName adfGeoTransform nXSize nYSize).
  rewrite Hfs.
  destruct (CountOverlaps env d osTableName) as [[|v l]|]; cbn [first_feature head];
    try done.
  by destruct (v =? 0).
Qed.

(** ** The identifiers of the rows the loop adds (lines 641-665) *)

(** An insertion without identifier into a table takes the identifier
    after the last one given out. *)
Lemma create_feature_next env hDS layer f w w' id s :
  FID f = OGRNullFID -> table_seq w hDS layer = Some s -> 0 <= s ->
  OGR_L_CreateFeature env hDS layer f w = (w', true, id) ->
  id = s + 1 /\ table_seq w' hDS layer = Some (s + 1).
Proof.
  intros Hf Hs Hpos H.
  destruct (create_feature_done _ _ _ _ _ _ _ H) as (p & d & t & -> & Hd & Ht & _ & Hfs).
  unfold table_seq in *. rewrite Hd in Hs. simpl in Hs. rewrite Ht in Hs.
  injection Hs as <-.
  assert (Hid : id = seq t + 1).
  { unfold OGR_L_CreateFeature in H. rewrite Hd, Ht in H.
    destruct (CreateFeatureOK env layer t f); [|done].
    rewrite Hf in H. simpl in H. by injection H as _ <-. }
  split; [done|].
  unfold store_of. rewrite Hfs, lookup_insert_eq. simpl. rewrite lookup_insert_eq.
  simpl. f_equal. lia.
Qed.

Lemma create_feature_seq_other env hDS layer layer' f w w' ok id :
  layer <> layer' ->
  OGR_L_CreateFeature env hDS layer f w = (w', ok, id) ->
  table_seq w' hDS layer' = table_seq w hDS layer'.
Proof.
  intros Hne H. destruct ok.
  - destruct (create_feature_done _ _ _ _ _ _ _ H) as (p & d & t & -> & Hd & Ht & _ & Hfs).
    unfold table_seq. rewrite Hd.
    unfold store_of in *. rewrite Hfs, lookup_insert_eq. simpl.
    by rewrite lookup_insert_ne.
  - by rewrite (create_feature_failed _ _ _ _ _ _ _ H).
Qed.

(** An insertion under an identifier keeps it. *)
Lemma create_feature_keeps_id env hDS layer f w w' ok id :
  FID f <> OGRNullFID ->
  OGR_L_CreateFeature env hDS layer f w = (w', ok, id) -> id = FID f.
Proof.
  intros Hf H. unfold OGR_L_CreateFeature in H.
  destruct hDS as [p|]; [|by inversion H].
  destruct (store_of w (Some p)) as [d|]; [|by inversion H].
  destruct (tables d !! layer) as [t|]; [|by inversion H].
  destruct (CreateFeatureOK env layer t f); [|by inversion H].
  apply Z.eqb_neq in Hf. rewrite Hf in H. by inversion H.
Qed.

Section TileIds.

Variable env : Env.
Variable poSrcDS : SrcDS.
Variable hDS : GDALDatasetH.
Variable pszDriverName : string.
Variable papszTileDriverOptions : list string.
Variable osRasterLayer osMetadataLayer : string.
Variable adfGeoTransform : GeoTransform.
Variable nBands nDataTypeSize : Z.
Variable nXSize nYSize nBlockXSize nBlockYSize : Z.
Variable nXBlocks nYBlocks nTotalBlocks : Z.
Variable pfnProgress : option (double -> bool).

Local Abbreviation body :=
  (tile_block env poSrcDS hDS pszDriverName papszTileDriverOptions osRasterLayer
     osMetadataLayer adfGeoTransform nBands nDataTypeSize nXSize nYSize nBlockXSize
     nBlockYSize nTotalBlocks pfnProgress).
Local Abbreviation pass :=
  (step env poSrcDS hDS pszDriverName papszTileDriverOptions osRasterLayer
     osMetadataLayer adfGeoTransform nBands nDataTypeSize nXSize nYSize nBlockXSize
     nBlockYSize nTotalBlocks pfnProgress).
Local Abbreviation loop :=
  (block_loop env poSrcDS hDS pszDriverName papszTileDriverOptions osRasterLayer
     osMetadataLayer adfGeoTransform nBands nDataTypeSize nXSize nYSize nBlockXSize
     nBlockYSize nXBlocks nYBlocks nTotalBlocks pfnProgress).
Local Abbreviation rasters st := (table_rows (ls_world st) hDS osRasterLayer).
Local Abbreviation metadata st := (table_rows (ls_world st) hDS osMetadataLayer).

(** What one pass does to the two tables: nothing, or a raster row
    under the next identifier, alone when the pass then fails, or with a
    metadata row under the same identifier. *)
Lemma tile_block_ids y x st s :
  osRasterLayer <> osMetadataLayer ->
  table_seq (ls_world st) hDS osRasterLayer = Some s -> 0 <= s < INT_MAX ->
  let st' := body y x st in
  (rasters st' = rasters st /\ metadata st' = metadata st /\
   table_seq (ls_world st') hDS osRasterLayer = Some s /\ eErr st' <> CE_None) \/
  (exists fr,
     rasters st' = rasters st ++ [fr] /\ FID fr = s + 1 /\
     table_seq (ls_world st') hDS osRasterLayer = Some (s + 1) /\
     ((metadata st' = metadata st /\ eErr st' <> CE_None) \/
      (exists fm, metadata st' = metadata st ++ [fm] /\ FID fm = s + 1))).
Proof.
  intros Hne Hs Hpos st'. unfold st', tile_block. clear st'.
  destruct (RasterIO poSrcDS _ _ _ _) as [err buffer].
  destruct (CPLErr_eqb err CE_None) eqn:Herr; cbn [negb].
  2:{ left. simpl. apply CPLErr_eqb_neq in Herr. done. }
  destruct (TileCreateCopy env _ _ _) as [pabyData|]; [|left; by simpl].
  destruct (OGR_L_CreateFeature env hDS osRasterLayer _ (ls_world st))
    as [[w1 ok1] fid] eqn:H1.
  pose proof (create_feature_rows _ _ _ _ _ _ _ _ H1) as Hr1.
  pose proof (create_feature_other _ _ _ _ _ _ _ _ _ Hne H1) as Hm1.
  destruct ok1; cbn [negb].
  2:{ left. simpl. rewrite Hr1, Hm1, app_nil_r.
      by rewrite (create_feature_failed _ _ _ _ _ _ _ H1). }
  destruct (create_feature_next env hDS osRasterLayer
              {| FID := OGRNullFID; fields := RasterFields pabyData |} (ls_world st) w1 fid s
              eq_refl Hs ltac:(lia) H1) as [-> Hs1].
  rewrite wrap32_id by (unfold in_range, INT_MIN, INT_MAX in *; lia).
  destruct (OGR_L_CreateFeature env hDS osMetadataLayer _ w1) as [[w2 ok2] fid2] eqn:H2.
  pose proof (create_feature_rows _ _ _ _ _ _ _ _ H2) as Hm2.
  pose proof (create_feature_other _ _ _ _ _ _ _ _ _ (not_eq_sym Hne) H2) as Hr2.
  pose proof (create_feature_seq_other _ _ _ _ _ _ _ _ _ (not_eq_sym Hne) H2) as Hs2.
  assert (Hid : fid2 = s + 1).
  { apply (create_feature_keeps_id _ _ _ _ _ _ _ _) in H2; [exact H2|].
    simpl. unfold OGRNullFID. lia. }
  right. exists (stored (s + 1) {| FID := OGRNullFID; fields := RasterFields pabyData |}).
  cbn [ls_world eErr]. rewrite Hr2, Hr1, Hs2, Hs1, Hm2, Hm1.
  split; [done|]. split; [done|]. split; [done|].
  destruct ok2.
  - right. eexists. split; [done|]. by rewrite Hid.
  - left. rewrite app_nil_r. split; [done|]. by destruct pfnProgress as [f|]; [destruct (f _)|].
Qed.

Lemma passes_ids bs st s :
  osRasterLayer <> osMetadataLayer ->
  table_seq (ls_world st) hDS osRasterLayer = Some s -> 0 <= s ->
  s + Z.of_nat (length bs) <= INT_MAX ->
  let st' := fold_left pass bs st in
  exists lr lm,
    rasters st' = rasters st ++ lr /\ metadata st' = metadata st ++ lm /\
    map FID lr = seqZ (s + 1) (Z.of_nat (length lr)) /\
    map FID lm = take (length lm) (map FID lr) /\
    (length lr <= length bs)%nat /\
    (eErr st' = CE_None -> length lm = length lr).
Proof.
  intros Hne. revert st s. induction bs as [|b bs IH]; intros st s Hs Hpos Hmax; simpl.
  { exists [], []. rewrite !app_nil_r. by repeat split. }
  simpl in Hmax.
  destruct (CPLErr_eqb (eErr st) CE_None) eqn:He.
  2:{ apply CPLErr_eqb_neq in He. rewrite pass_skipped by done.
      rewrite passes_skipped by done.
      exists [], []. rewrite !app_nil_r. repeat split; try done. simpl. lia. }
  apply CPLErr_eqb_eq in He. rewrite pass_entered by done.
  destruct (tile_block_ids (snd b) (fst b) st s Hne Hs ltac:(lia))
    as [(Hr & Hm & Hs' & Herr) | (fr & Hr & Hfr & Hs' & Hmeta)].
  - rewrite passes_skipped by done. exists [], []. rewrite !app_nil_r.
    repeat split; try done. simpl. lia.
  - destruct Hmeta as [[Hm Herr] | (fm & Hm & Hfm)].
    + rewrite passes_skipped by done. exists [fr], []. rewrite app_nil_r.
      split; [done|]. split; [done|]. split.
      { cbn [map length]. rewrite Hfr. rewrite (seqZ_cons (s + 1)) by lia.
        by rewrite seqZ_nil by lia. }
      split; [done|]. split; [simpl; lia|]. done.
    + destruct (IH (body (snd b) (fst b) st) (s + 1) Hs' ltac:(lia) ltac:(lia))
        as (lr & lm & Hlr & Hlm & Hids & Hpre & Hlen & Hok).
      exists (fr :: lr), (fm :: lm).
      rewrite Hlr, Hr, Hlm, Hm, <- !app_assoc. simpl.
      split; [done|]. split; [done|]. split.
      * rewrite Hfr, Hids. rewrite (seqZ_cons (s + 1)) by lia. f_equal. f_equal; lia.
      * split; [by rewrite Hfm, Hfr, Hpre|]. split; [lia|]. intros H. by rewrite Hok.
Qed.

(** X12. Every metadata row the loop adds carries the identifier of
    the raster row added in the same pass (lines 648 and 663). The
    raster rows added take the identifiers after the last one the raster
    table gave out; the identifiers of the metadata rows added are those
    of the first raster rows added, and of all of them when the loop
    ends without error (a pass that fails after its raster row leaves
    one raster row without metadata row). The raster table is there, its
    identifiers are not negative and stay within an [int]. *)
Theorem metadata_ids_follow_rasters (w : World) (s : Z) :
  osRasterLayer <> osMetadataLayer ->
  table_seq w hDS osRasterLayer = Some s -> 0 <= s ->
  0 <= nXBlocks <= INT_MAX -> 0 <= nYBlocks <= INT_MAX ->
  s + nXBlocks * nYBlocks <= INT_MAX ->
  exists lr lm,
    table_rows (ls_world (loop w)) hDS osRasterLayer = table_rows w hDS osRasterLayer ++ lr /\
    table_rows (ls_world (loop w)) hDS osMetadataLayer
      = table_rows w hDS osMetadataLayer ++ lm /\
    map FID lr = seqZ (s + 1) (Z.of_nat (length lr)) /\
    map FID lm = take (length lm) (map FID lr) /\
    (eErr (loop w) = CE_None -> map FID lm = map FID lr).
Proof.
  intros Hne Hs Hpos HX HY Hmax.
  assert (Hlen : Z.of_nat (length (row_major nXBlocks nYBlocks)) = nXBlocks * nYBlocks)
    by (rewrite row_major_length; lia).
  rewrite block_loop_passes by lia.
  destruct (passes_ids (row_major nXBlocks nYBlocks)
              {| ls_world := w; eErr := CE_None; nTileId := 0; nBlocks := 0 |} s Hne Hs Hpos)
    as (lr & lm & Hlr & Hlm & Hids & Hpre & _ & Hok).
  { lia. }
  exists lr, lm. split; [exact Hlr|]. split; [exact Hlm|]. split; [exact Hids|].
  split; [exact Hpre|]. intros He. rewrite Hpre, (Hok He), <- (length_map FID lr).
  apply firstn_all.
Qed.

End TileIds.

(** ** The stages composed *)

Lemma world_eq (a b : World) :
  fs a = fs b -> txn a = txn b -> log a = log b -> a = b.
Proof. destruct a, b; simpl; by intros -> -> ->. Qed.

Lemma scan_tokens_frame tokens name w :
  fs (fst (scan_tokens tokens name w)) = fs w /\
  txn (fst (scan_tokens tokens name w)) = txn w.
Proof.
  revert name w. induction tokens as [|t r IH]; intros name w; [done|].
  simpl. destruct (STARTS_WITH_CI t "table="); [apply IH|].
  destruct (IH name (CPLError CE_Warning ("Invalid option : " ++ t) w)) as [H1 H2].
  by rewrite H1, H2.
Qed.

(** The analysis of the specifier logs and reads, and writes no file. *)
Lemma analyze_filename_frame pszFilename w :
  fs (fst (analyze_filename pszFilename w)) = fs w /\
  txn (fst (analyze_filename pszFilename w)) = txn w.
Proof.
  unfold analyze_filename.
  destruct (CSLTokenizeStringComplex (without_prefix pszFilename)) as [|t0 r].
  - destruct (string_empty _); [destruct (VSIStat _ w)|]; done.
  - destruct (scan_tokens r "" w) as [w1 name] eqn:Hs.
    pose proof (scan_tokens_frame r "" w) as [Hf Ht]. rewrite Hs in Hf, Ht. simpl in Hf, Ht.
    destruct (string_empty name); [destruct (VSIStat t0 w1)|]; done.
Qed.

Lemma log_only_refl w : log_only w w.
Proof. split; [done|]. split; [done|]. by exists []. Qed.

Lemma log_only_error c msg w : log_only w (CPLError c msg w).
Proof.
  split; [done|]. split; [done|]. exists [EvError c msg]. split; [done|].
  by repeat constructor.
Qed.

Lemma log_only_trans a b c : log_only a b -> log_only b c -> log_only a c.
Proof.
  intros (Hf1 & Ht1 & n1 & Hl1 & Hs1) (Hf2 & Ht2 & n2 & Hl2 & Hs2).
  split; [congruence|]. split; [congruence|].
  exists (n2 ++ n1). split; [by rewrite Hl2, Hl1, app_assoc|].
  by apply Forall_app.
Qed.

Lemma add_option_frame papszOptions tile name drv w :
  log_only w (fst (RasterliteAddTileDriverOptionsForDriver papszOptions tile name drv w)).
Proof.
  unfold RasterliteAddTileDriverOptionsForDriver.
  destruct (CSLFetchNameValue papszOptions name); [|apply log_only_refl].
  destruct (EQUAL _ drv); [apply log_only_refl|apply log_only_error].
Qed.

Lemma tile_options_frame papszOptions w :
  log_only w (fst (RasterliteGetTileDriverOptions papszOptions w)).
Proof.
  unfold RasterliteGetTileDriverOptions.
  set (drv := CSLFetchNameValueDef papszOptions "DRIVER" "GTiff").
  match goal with
  | |- context [let '(w1, o1) := ?q in _] => set (first := q)
  end.
  assert (H1 : log_only w (fst first)).
  { unfold first. destruct (CSLFetchNameValue papszOptions "QUALITY"); [|apply log_only_refl].
    destruct (EQUAL drv "GTiff"); [apply log_only_refl|].
    destruct (EQUAL drv "JPEG" || EQUAL drv "WEBP"); [apply log_only_refl|].
    apply log_only_error. }
  destruct first as [w1 o1]. simpl in H1.
  pose proof (add_option_frame papszOptions o1 "COMPRESS" "GTiff" w1) as H2.
  destruct (RasterliteAddTileDriverOptionsForDriver papszOptions o1 "COMPRESS" "GTiff" w1)
    as [w2 o2].
  simpl in H2.
  pose proof (add_option_frame papszOptions o2 "PHOTOMETRIC" "GTiff" w2) as H3.
  eapply log_only_trans; [exact H1|]. eapply log_only_trans; [exact H2|exact H3].
Qed.

Lemma log_only_opened p d t l m w' :
  log_only (opened p d t l m) w' ->
  exists new, w' = opened p d t (new ++ l) m /\ Forall setup_event new.
Proof.
  intros (Hf & Ht & new & Hl & Hs). exists new. split; [|done].
  by apply world_eq.
Qed.

Lemma warn_overlaps_frame env p osTableName g nXSize nYSize w d :
  fs w !! p = Some (SQLiteDB d) ->
  log_only w (warn_overlaps env (Some p) osTableName g nXSize nYSize w).
Proof.
  intros Hp.
  assert (Hfs : <[p := SQLiteDB d]> (fs w) = fs w) by (by apply insert_id).
  unfold warn_overlaps, GDALDatasetExecuteSQL, store_of. rewrite Hp.
  cbn [sql_exec]. rewrite Hfs.
  match goal with
  | |- context [EvSQL ?q :: log w] => set (query := q)
  end.
  assert (Hq : log_only w {| fs := fs w; txn := txn w; log := EvSQL query :: log w |}).
  { split; [done|]. split; [done|]. exists [EvSQL query]. split; [done|].
    by repeat constructor. }
  destruct (negb _); [|exact Hq].
  eapply log_only_trans; [exact Hq|apply log_only_error].
Qed.

Lemma create_feature_accepts env hDS layer f w :
  is_Some (table_seq w hDS layer) ->
  (forall t, CreateFeatureOK env layer t f = true) ->
  exists w' id, OGR_L_CreateFeature env hDS layer f w = (w', true, id).
Proof.
  intros [s Hs] Hok. unfold table_seq in Hs. unfold OGR_L_CreateFeature.
  destruct hDS as [p|]; [|done].
  destruct (store_of w (Some p)) as [d|]; [|done]. simpl in Hs.
  destruct (tables d !! layer) as [t|]; [|done].
  rewrite Hok. eauto.
Qed.

Lemma create_feature_tables env hDS layer layer' f w w' ok id :
  OGR_L_CreateFeature env hDS layer f w = (w', ok, id) ->
  is_Some (table_seq w hDS layer') -> is_Some (table_seq w' hDS layer').
Proof.
  intros H Hs. destruct (decide (layer = layer')) as [<-|Hne].
  - destruct ok; [|by rewrite (create_feature_failed _ _ _ _ _ _ _ H)].
    destruct (create_feature_done _ _ _ _ _ _ _ H) as (p & d & t & -> & Hd & Ht & _ & Hfs).
    unfold table_seq, store_of. rewrite Hfs, lookup_insert_eq. simpl.
    rewrite lookup_insert_eq. eauto.
  - by rewrite (create_feature_seq_other _ _ _ _ _ _ _ _ _ Hne H).
Qed.

Section Cooperative.

Variable env : Env.
Variable poSrcDS : SrcDS.
Variable hDS : GDALDatasetH.
Variable pszDriverName : string.
Variable papszTileDriverOptions : list string.
Variable osRasterLayer osMetadataLayer : string.
Variable adfGeoTransform : GeoTransform.
Variable nBands nDataTypeSize : Z.
Variable nXSize nYSize nBlockXSize nBlockYSize : Z.
Variable nXBlocks nYBlocks nTotalBlocks : Z.
Variable pfnProgress : option (double -> bool).

Local Abbreviation body :=
  (tile_block env poSrcDS hDS pszDriverName papszTileDriverOptions osRasterLayer
     osMetadataLayer adfGeoTransform nBands nDataTypeSize nXSize nYSize nBlockXSize
     nBlockYSize nTotalBlocks pfnProgress).
Local Abbreviation pass :=
  (step env poSrcDS hDS pszDriverName papszTileDriverOptions osRasterLayer
     osMetadataLayer adfGeoTransform nBands nDataTypeSize nXSize nYSize nBlockXSize
     nBlockYSize nTotalBlocks pfnProgress).
Local Abbreviation succeeds :=
  (block_succeeds env poSrcDS hDS pszDriverName papszTileDriverOptions osRasterLayer
     osMetadataLayer adfGeoTransform nBands nDataTypeSize nXSize nYSize nBlockXSize
     nBlockYSize nTotalBlocks pfnProgress).
Local Abbreviation all_succeed :=
  (run_succeeds env poSrcDS hDS pszDriverName papszTileDriverOptions osRasterLayer
     osMetadataLayer adfGeoTransform nBands nDataTypeSize nXSize nYSize nBlockXSize
     nBlockYSize nTotalBlocks pfnProgress).
Local Abbreviation loop :=
  (block_loop env poSrcDS hDS pszDriverName papszTileDriverOptions osRasterLayer
     osMetadataLayer adfGeoTransform nBands nDataTypeSize nXSize nYSize nBlockXSize
     nBlockYSize nXBlocks nYBlocks nTotalBlocks pfnProgress).
Local Abbreviation transaction :=
  (insert_tiles env poSrcDS hDS pszDriverName papszTileDriverOptions osRasterLayer
     osMetadataLayer adfGeoTransform nBands nDataTypeSize nXSize nYSize nBlockXSize
     nBlockYSize nXBlocks nYBlocks nTotalBlocks pfnProgress).
Local Abbreviation both_tables w :=
  (is_Some (table_seq w hDS osRasterLayer) /\ is_Some (table_seq w hDS osMetadataLayer)).

(** With collaborators that never fail and both tables there, every
    step of a pass succeeds, and the tables are still there after it. *)
Lemma tile_block_cooperative y x st :
  cooperative env poSrcDS pfnProgress -> both_tables (ls_world st) ->
  succeeds y x st /\ both_tables (ls_world (body y x st)).
Proof.
  intros (Hread & Henc & Hins & Hprog) [Hr Hm].
  unfold block_succeeds, tile_block.
  destruct (RasterIO poSrcDS _ _ _ _) as [err buffer] eqn:Hio.
  pose proof (Hread (int_mul x nBlockXSize) (int_mul y nBlockYSize)
                (req_size x nBlockXSize nXSize) (req_size y nBlockYSize nYSize)) as He.
  rewrite Hio in He. simpl in He. subst err. cbn [CPLErr_eqb negb].
  destruct (Henc pszDriverName papszTileDriverOptions
              {| mem_xsize := req_size x nBlockXSize nXSize;
                 mem_ysize := req_size y nBlockYSize nYSize;
                 mem_bands := nBands; mem_type_size := nDataTypeSize;
                 mem_buffer := buffer |}) as [pabyData Hc].
  rewrite Hc.
  destruct (create_feature_accepts env hDS osRasterLayer
              {| FID := OGRNullFID; fields := RasterFields pabyData |} (ls_world st) Hr
              (fun t => Hins _ t _)) as (w1 & fid & H1).
  rewrite H1. cbn [negb].
  pose proof (create_feature_tables _ _ _ osRasterLayer _ _ _ _ _ H1 Hr) as Hr1.
  pose proof (create_feature_tables _ _ _ osMetadataLayer _ _ _ _ _ H1 Hm) as Hm1.
  destruct (create_feature_accepts env hDS osMetadataLayer
              (metadata_feature poSrcDS adfGeoTransform nBlockXSize nBlockYSize
                 (wrap32 fid) (nTileId st) x y (req_size x nBlockXSize nXSize)
                 (req_size y nBlockYSize nYSize)) w1 Hm1
              (fun t => Hins _ t _)) as (w2 & fid2 & H2).
  rewrite H2.
  pose proof (create_feature_tables _ _ _ osRasterLayer _ _ _ _ _ H2 Hr1) as Hr2.
  pose proof (create_feature_tables _ _ _ osMetadataLayer _ _ _ _ _ H2 Hm1) as Hm2.
  split.
  - exists buffer, pabyData, w1, fid, w2, fid2. repeat split; try done.
    intros f Hf. by apply Hprog.
  - by cbn [ls_world].
Qed.

Lemma passes_cooperative bs st :
  cooperative env poSrcDS pfnProgress -> both_tables (ls_world st) ->
  all_succeed bs st.
Proof.
  intros Hco. revert st. induction bs as [|b bs IH]; intros st Hb; simpl; [done|].
  destruct (tile_block_cooperative (snd b) (fst b) st Hco Hb) as [Hs Hb'].
  split; [exact Hs|]. by apply IH.
Qed.

Hypothesis HnXBlocks : nXBlocks = block_count nXSize nBlockXSize.
Hypothesis HnYBlocks : nYBlocks = block_count nYSize nBlockYSize.

(** The transaction of the tiles on an open store that has both tables,
    with collaborators that never fail. *)
Lemma insert_tiles_cooperative pszFilename w p d tr tm :
  hDS = Some p -> fs w !! p = Some (SQLiteDB d) -> txn w = None ->
  osRasterLayer <> osMetadataLayer ->
  tables d !! osRasterLayer = Some tr -> tables d !! osMetadataLayer = Some tm ->
  cooperative env poSrcDS pfnProgress ->
  0 < nXSize -> 0 < nYSize -> 0 < nBlockXSize -> 0 < nBlockYSize ->
  nXSize + nBlockXSize <= INT_MAX -> nYSize + nBlockYSize <= INT_MAX ->
  let N := ceil_div nXSize nBlockXSize * ceil_div nYSize nBlockYSize in
  N <= INT_MAX -> 0 <= seq tr -> seq tr + N <= INT_MAX ->
  let out := transaction pszFilename w in
  snd out = (if GDALOpen env pszFilename then Some pszFilename else None) /\
  txn (fst out) = None /\
  log (fst out) = EvClose p :: EvSQL Commit :: EvSQL Begin :: log w /\
  same_files_but p w (fst out) /\
  exists lr lm,
    table_rows (fst out) hDS osRasterLayer = rows tr ++ lr /\
    table_rows (fst out) hDS osMetadataLayer = rows tm ++ lm /\
    map tile_id_of lm = map Some (seqZ 0 N) /\
    map FID lr = seqZ (seq tr + 1) N /\
    map FID lm = map FID lr.
Proof.
  intros Hh Hp Htxn Hne Htr Htm Hco HX HY HbX HbY HmaxX HmaxY N HN Hseq HseqN out.
  unfold out. clear out.
  destruct (insert_tiles_unfold env poSrcDS hDS pszDriverName papszTileDriverOptions
              osRasterLayer osMetadataLayer adfGeoTransform nBands nDataTypeSize
              nXSize nYSize nBlockXSize nBlockYSize nXBlocks nYBlocks nTotalBlocks
              pfnProgress HnXBlocks HnYBlocks pszFilename w p d Hh Hp Htxn)
    as (_ & dk & Hdk & Hrun).
  set (w1 := {| fs := <[p := SQLiteDB d]> (fs w); txn := Some d;
                log := EvSQL Begin :: log w |}) in *.
  set (st0 := {| ls_world := w1; eErr := CE_None; nTileId := 0; nBlocks := 0 |}).
  assert (HnX : nXBlocks = ceil_div nXSize nBlockXSize)
    by (rewrite HnXBlocks; by apply block_count_ceil).
  assert (HnY : nYBlocks = ceil_div nYSize nBlockYSize)
    by (rewrite HnYBlocks; by apply block_count_ceil).
  pose proof (ceil_div_pos nXSize nBlockXSize HX HbX) as Hnx.
  pose proof (ceil_div_pos nYSize nBlockYSize HY HbY) as Hny.
  set (bs := row_major nXBlocks nYBlocks).
  assert (Hlen : Z.of_nat (length bs) = N).
  { unfold bs, N. rewrite row_major_length, HnX, HnY. lia. }
  assert (Hloop : loop w1 = fold_left pass bs st0).
  { apply (loop_passes env poSrcDS hDS pszDriverName papszTileDriverOptions
             osRasterLayer osMetadataLayer adfGeoTransform nBands nDataTypeSize
             nXSize nYSize nBlockXSize nBlockYSize nXBlocks nYBlocks nTotalBlocks
             pfnProgress HnXBlocks HnYBlocks). }
  assert (Hstore1 : store_of w1 hDS = Some d).
  { rewrite Hh. unfold store_of, w1. simpl. by rewrite lookup_insert_eq. }
  assert (Hrows1 : forall layer, table_rows w1 hDS layer
                     = match tables d !! layer with Some t => rows t | None => [] end).
  { intros layer. unfold table_rows. by rewrite Hstore1. }
  assert (Hboth : both_tables w1).
  { unfold table_seq. rewrite Hstore1. simpl. rewrite Htr, Htm. eauto. }
  assert (Hend : eErr (fold_left pass bs st0) = CE_None).
  { apply passes_ok; [done|]. by apply passes_cooperative. }
  rewrite Hrun, Hloop, Hend. cbn [CPLErr_eqb fst snd txn log fs].
  split; [done|]. split; [done|]. split; [done|].
  pose proof (passes_frame env poSrcDS hDS pszDriverName papszTileDriverOptions
                osRasterLayer osMetadataLayer adfGeoTransform nBands nDataTypeSize
                nXSize nYSize nBlockXSize nBlockYSize nTotalBlocks pfnProgress bs st0)
    as (_ & _ & Hfiles & _).
  split.
  { intros q Hq. cbn [fs]. rewrite lookup_insert_ne by done.
    rewrite (Hfiles p w1 Hh); [|done|done].
    unfold w1. cbn [fs]. by rewrite lookup_insert_ne. }
  assert (Hfinal : forall layer,
            table_rows {| fs := <[p := SQLiteDB dk]> (fs (ls_world (fold_left pass bs st0)));
                          txn := None;
                          log := EvClose p :: EvSQL Commit :: EvSQL Begin :: log w |}
              hDS layer = table_rows (ls_world (fold_left pass bs st0)) hDS layer).
  { intros layer. unfold table_rows. rewrite <- Hloop, Hdk. rewrite Hh.
    unfold store_of. cbn [fs]. by rewrite lookup_insert_eq. }
  destruct (passes_rows_ok env poSrcDS hDS pszDriverName papszTileDriverOptions
              osRasterLayer osMetadataLayer adfGeoTransform nBands nDataTypeSize
              nXSize nYSize nBlockXSize nBlockYSize nTotalBlocks pfnProgress bs st0
              Hne eq_refl Hend) as (lm & Hlm & Hfields); cbn [nTileId st0]; [lia|lia|].
  destruct (passes_ids env poSrcDS hDS pszDriverName papszTileDriverOptions
              osRasterLayer osMetadataLayer adfGeoTransform nBands nDataTypeSize
              nXSize nYSize nBlockXSize nBlockYSize nTotalBlocks pfnProgress bs st0
              (seq tr) Hne)
    as (lr & lm' & Hlr & Hlm' & Hids & Hpre & Hle & Hsame); [| lia | lia |].
  { cbn [ls_world st0]. unfold table_seq. rewrite Hstore1. simpl. by rewrite Htr. }
  specialize (Hsame Hend).
  assert (lm' = lm) by (rewrite Hlm in Hlm'; by apply app_inv_head in Hlm').
  subst lm'.
  assert (Hlmlen : length lm = length bs).
  { rewrite <- (length_map fields lm), Hfields. apply length_imap. }
  exists lr, lm. rewrite !Hfinal, Hlr, Hlm. cbn [ls_world st0]. rewrite !Hrows1, Htr, Htm.
  split; [done|]. split; [done|].
  assert (Hall : map FID lm = map FID lr).
  { rewrite Hpre, Hsame, <- (length_map FID lr). apply firstn_all. }
  split; [|split; [|exact Hall]].
  - unfold tile_id_of.
    change (map (fun f => fields_tile_id (fields f)) lm)
      with (map (fields_tile_id ∘ fields) lm).
    rewrite <- (map_map fields fields_tile_id), Hfields.
    change (map fields_tile_id ?x) with (fields_tile_id <$> x).
    rewrite fmap_imap. simpl.
    rewrite (imap_ext _ (fun j _ => Some (Z.of_nat j))) by done.
    rewrite (imap_seq_0 bs (fun j => Some (Z.of_nat j))).
    unfold seqZ. rewrite <- Hlen, Nat2Z.id.
    change (map Some ?x) with (Some <$> x).
    rewrite <- list_fmap_compose. apply list_fmap_ext. intros i j _. simpl.
    f_equal. lia.
  - rewrite Hids. f_equal. rewrite <- Hsame, Hlmlen. exact Hlen.
Qed.

End Cooperative.

(** Where [ingest] arrives once the schema manager has returned an open
    store with both tables and the tile buffer is allocated: at the
    transaction of the tiles, with only events of setup logged since. *)
Lemma ingest_with_tables env pszFilename poSrcDS papszOptions pfnProgress pszDriverName
  adfGeoTransform nBlockXSize nBlockYSize osTableName p w d2 l2 m :
  let registered := RasterliteInsertSRID env (Some p) (GetProjectionRef poSrcDS) w in
  RasterliteCreateTables env (Some p) osTableName (snd registered)
    (CPLTestBool (CSLFetchNameValueDef papszOptions "WIPE" "NO")) (fst registered)
    = (opened p d2 None l2 m, Some p) ->
  is_Some (tables d2 !! rasters_of osTableName) ->
  is_Some (tables d2 !! metadata_of osTableName) ->
  (forall a b c, VSIMalloc3 env a b c = true) ->
  exists new opts,
    Forall setup_event new /\
    ingest env pszFilename poSrcDS papszOptions pfnProgress pszDriverName adfGeoTransform
      nBlockXSize nBlockYSize osTableName (Some p) w =
    insert_tiles env poSrcDS (Some p) pszDriverName opts
      (rasters_of osTableName) (metadata_of osTableName) adfGeoTransform
      (RasterCount poSrcDS) (int_div (DataTypeSize poSrcDS) 8)
      (RasterXSize poSrcDS) (RasterYSize poSrcDS) nBlockXSize nBlockYSize
      (block_count (RasterXSize poSrcDS) nBlockXSize)
      (block_count (RasterYSize poSrcDS) nBlockYSize)
      (int_mul (block_count (RasterXSize poSrcDS) nBlockXSize)
         (block_count (RasterYSize poSrcDS) nBlockYSize))
      pfnProgress pszFilename (opened p d2 None (new ++ l2) m).
Proof.
  intros registered Hct Hr Hm Hmalloc. unfold ingest. fold registered.
  destruct registered as [wa nSRSId]. cbn [fst snd] in Hct. rewrite Hct.
  rewrite !opened_layer, !bool_decide_eq_true_2 by done. cbn [negb orb].
  rewrite Hmalloc. cbn [negb].
  destruct (log_only_opened p d2 None l2 m _
              (warn_overlaps_frame env p osTableName adfGeoTransform (RasterXSize poSrcDS)
                 (RasterYSize poSrcDS) (opened p d2 None l2 m) d2
                 ltac:(unfold opened; simpl; by rewrite lookup_insert_eq)))
    as (new1 & -> & Hn1).
  destruct (log_only_opened p d2 None (new1 ++ l2) m _
              (tile_options_frame papszOptions (opened p d2 None (new1 ++ l2) m)))
    as (new2 & Hw2 & Hn2).
  destruct (RasterliteGetTileDriverOptions papszOptions _) as [w2 opts].
  cbn [fst] in Hw2. subst w2.
  exists (new2 ++ new1), opts. split; [by apply Forall_app|].
  by rewrite <- app_assoc.
Qed.

Lemma block_size_pos papszOptions nXSize nYSize :
  0 < nXSize -> 0 < nYSize ->
  0 < fst (block_size papszOptions nXSize nYSize) /\
  0 < snd (block_size papszOptions nXSize nYSize).
Proof.
  intros HX HY. unfold block_size.
  destruct (CPLTestBool _); [|done]. simpl. rewrite !clamp_block_minmax. lia.
Qed.


(** Past the checks of lines 315-365 the operation is the analysis of
    the specifier, the opening of the store and [ingest]. *)
Lemma create_copy_accepted env pszFilename poSrcDS papszOptions pfnProgress w :
  accepted env poSrcDS papszOptions ->
  exists adfGeoTransform,
    source_geotransform poSrcDS = Some adfGeoTransform /\
    RasterliteCreateCopy env pszFilename poSrcDS papszOptions pfnProgress w =
      match analyze_filename pszFilename w with
      | (w, None) => (w, None)
      | (w, Some (osDBName, osTableName, bExists)) =>
          match open_store env osDBName bExists w with
          | (w, None) => (w, None)
          | (w, Some p) =>
              ingest env pszFilename poSrcDS papszOptions pfnProgress
                (CSLFetchNameValueDef papszOptions "DRIVER" "GTiff") adfGeoTransform
                (fst (block_size papszOptions (RasterXSize poSrcDS) (RasterYSize poSrcDS)))
                (snd (block_size papszOptions (RasterXSize poSrcDS) (RasterYSize poSrcDS)))
                osTableName (Some p) w
          end
      end.
Proof.
  intros (Hb & Hm & Hv & Hd & Hmem & [g Hg]). exists g. split; [done|].
  unfold RasterliteCreateCopy. apply Z.eqb_neq in Hb.
  rewrite Hb, Hm, Hv, Hd, Hmem, Hg. cbn [orb negb].
  by destruct (block_size papszOptions (RasterXSize poSrcDS) (RasterYSize poSrcDS)).
Qed.


(** ** The transaction of a run and the rows of earlier runs *)

Lemma table_rows_opened p d t l m layer :
  table_rows (opened p d t l m) (Some p) layer = rows_in d layer.
Proof. apply opened_rows. Qed.

Lemma table_rows_files w w' hDS layer :
  fs w' = fs w -> table_rows w' hDS layer = table_rows w hDS layer.
Proof. intros H. unfold table_rows, store_of. by rewrite H. Qed.

Lemma create_table_rows name d layer : rows_in (create_table name d) layer = rows_in d layer.
Proof.
  unfold create_table, rows_in. destruct (tables d !! name) eqn:Hn; [done|].
  cbn [tables set_tables]. destruct (decide (name = layer)) as [<-|Hne].
  - by rewrite lookup_insert_eq, Hn.
  - by rewrite lookup_insert_ne.
Qed.

Lemma delete_rows_other name d layer :
  layer <> name ->
  rows_in (set_tables d (alter delete_rows name (tables d))) layer = rows_in d layer.
Proof. intros Hne. unfold rows_in. cbn [tables set_tables]. by rewrite lookup_alter_ne. Qed.

Lemma delete_rows_here name d :
  rows_in (set_tables d (alter delete_rows name (tables d))) name = [].
Proof.
  unfold rows_in. cbn [tables set_tables]. rewrite lookup_alter_eq.
  by destruct (tables d !! name).
Qed.

(** What the schema manager leaves when it returns a handle: the store
    open, with no transaction, and the rows of every table as they were,
    but for the rows of the two tables when WIPE is set and the raster
    table was there. *)
Lemma create_tables_handle env p T nSRSId bWipe d l m :
  snd (RasterliteCreateTables env (Some p) T nSRSId bWipe (opened p d None l m)) <> None ->
  exists d2 l2,
    RasterliteCreateTables env (Some p) T nSRSId bWipe (opened p d None l m)
      = (opened p d2 None l2 m, Some p) /\
    (forall layer, layer <> rasters_of T -> layer <> metadata_of T ->
                   rows_in d2 layer = rows_in d layer) /\
    (bWipe = false -> forall layer, rows_in d2 layer = rows_in d layer) /\
    (bWipe = true -> is_Some (tables d !! rasters_of T) ->
     rows_in d2 (rasters_of T) = [] /\ rows_in d2 (metadata_of T) = []).
Proof.
  pose proof (rasters_metadata_differ T) as Hne.
  destruct (tables d !! rasters_of T) as [tr|] eqn:Hr.
  - (* the reuse branch *)
    rewrite create_tables_reuse by (rewrite Hr; eauto).
    rewrite check_existing_opened. cbn zeta.
    assert (Hwipe : forall d0 : Data,
              (forall layer, rows_in d0 layer = rows_in d layer) ->
              let d2 := set_tables
                          (set_tables d0 (alter delete_rows (rasters_of T) (tables d0)))
                          (alter delete_rows (metadata_of T)
                             (tables (set_tables d0
                                        (alter delete_rows (rasters_of T) (tables d0))))) in
              (forall layer, layer <> rasters_of T -> layer <> metadata_of T ->
                             rows_in d2 layer = rows_in d layer) /\
              rows_in d2 (rasters_of T) = [] /\ rows_in d2 (metadata_of T) = []).
    { intros d0 Hd0 d2. unfold d2. split; [|split].
      - intros layer H1 H2. rewrite delete_rows_other by done.
        rewrite delete_rows_other by done. apply Hd0.
      - rewrite delete_rows_other by done. apply delete_rows_here.
      - apply delete_rows_here. }
    destruct (select_result env _) as [lst|];
      [destruct (negb (_ =? nSRSId))|]; destruct bWipe;
      rewrite ?opened_exec; cbn [sql_exec fst snd]; intros Hh; try done.
    + destruct (Hwipe (set_geometry_columns d
                         (map (bind_srid nSRSId (metadata_of T)) (geometry_columns d)))
                  ltac:(done)) as (H1 & H2 & H3).
      eexists _, _. split; [reflexivity|]. split; [exact H1|]. split; [done|]. by intros _ _.
    + destruct (Hwipe d ltac:(done)) as (H1 & H2 & H3).
      eexists _, _. split; [reflexivity|]. split; [exact H1|]. split; [done|]. by intros _ _.
    + eexists _, _. split; [reflexivity|]. split; [done|]. split; [done|]. done.
    + destruct (Hwipe d ltac:(done)) as (H1 & H2 & H3).
      eexists _, _. split; [reflexivity|]. split; [exact H1|]. split; [done|]. by intros _ _.
    + eexists _, _. split; [reflexivity|]. split; [done|]. split; [done|]. done.
  - (* the create branch *)
    unfold RasterliteCreateTables. rewrite opened_layer, Hr.
    rewrite bool_decide_eq_false_2 by (by intros [? ?]).
    cbn [negb]. unfold create_tables, GDALGetDescription.
    rewrite opened_exec. cbn [sql_exec fst snd].
    rewrite opened_exec. cbn [sql_exec fst snd].
    rewrite opened_exec.
    set (d1 := create_table (metadata_of T) (create_table (rasters_of T) d)).
    assert (Hd1 : forall layer, rows_in d1 layer = rows_in d layer).
    { intros layer. unfold d1. by rewrite !create_table_rows. }
    assert (Hadd : snd (fst (sql_exec env (AddGeometryColumn (metadata_of T) nSRSId) d1 None))
                   = None /\
                   forall layer,
                     rows_in (fst (fst (sql_exec env (AddGeometryColumn (metadata_of T) nSRSId)
                                          d1 None))) layer = rows_in d layer).
    { cbn [sql_exec]. destruct (Spatialite env); [|done].
      destruct (tables d1 !! metadata_of T); [|done].
      destruct (existsb _ _); done. }
    destruct Hadd as [Hat Har].
    destruct (sql_exec env (AddGeometryColumn (metadata_of T) nSRSId) d1 None)
      as [[d2 t2] r2]. cbn [fst snd] in Hat, Har |- *. subst t2.
    destruct r2 as [r2|]; [|by rewrite opened_error].
    rewrite opened_exec.
    assert (Hidx : fst (sql_exec env (CreateSpatialIndex (metadata_of T)) d2 None) = (d2, None))
      by (cbn [sql_exec]; by destruct (Spatialite env)).
    destruct (sql_exec env (CreateSpatialIndex (metadata_of T)) d2 None) as [[d3 t3] r3].
    cbn [fst snd] in Hidx |- *. injection Hidx as -> ->.
    destruct r3 as [r3|]; [|done].
    rewrite opened_exec.
    assert (Hst : fst (sql_exec env UpdateLayerStatistics d2 None) = (d2, None))
      by (cbn [sql_exec]; by destruct (Spatialite env)).
    destruct (sql_exec env UpdateLayerStatistics d2 None) as [[d4 t4] r4].
    cbn [fst snd] in Hst |- *. injection Hst as -> ->.
    rewrite opened_close, opened_reopen. intros _.
    eexists _, _. split; [reflexivity|]. split; [by intros layer _ _|].
    split; [done|]. by intros _ [? ?].
Qed.

(** Past the schema manager, the layer lookups and the allocation,
    [ingest] is the transaction of the tiles, entered in the world the
    overlap advisory and the tile driver options leave. *)
Lemma ingest_to_transaction env pszFilename poSrcDS papszOptions pfnProgress pszDriverName
  adfGeoTransform nBlockXSize nBlockYSize osTableName p w wp :
  let registered := RasterliteInsertSRID env (Some p) (GetProjectionRef poSrcDS) w in
  let prepared := RasterliteCreateTables env (Some p) osTableName (snd registered)
                    (CPLTestBool (CSLFetchNameValueDef papszOptions "WIPE" "NO"))
                    (fst registered) in
  prepared = (wp, Some p) ->
  reaches_transaction env poSrcDS nBlockXSize nBlockYSize osTableName prepared ->
  let options := RasterliteGetTileDriverOptions papszOptions
                   (warn_overlaps env (Some p) osTableName adfGeoTransform
                      (RasterXSize poSrcDS) (RasterYSize poSrcDS) wp) in
  ingest env pszFilename poSrcDS papszOptions pfnProgress pszDriverName adfGeoTransform
    nBlockXSize nBlockYSize osTableName (Some p) w =
  insert_tiles env poSrcDS (Some p) pszDriverName (snd options)
    (rasters_of osTableName) (metadata_of osTableName) adfGeoTransform
    (RasterCount poSrcDS) (int_div (DataTypeSize poSrcDS) 8)
    (RasterXSize poSrcDS) (RasterYSize poSrcDS) nBlockXSize nBlockYSize
    (block_count (RasterXSize poSrcDS) nBlockXSize)
    (block_count (RasterYSize poSrcDS) nBlockYSize)
    (int_mul (block_count (RasterXSize poSrcDS) nBlockXSize)
       (block_count (RasterYSize poSrcDS) nBlockYSize))
    pfnProgress pszFilename (fst options).
Proof.
  intros registered prepared Hprep (_ & Hr & Hm & Hmalloc) options.
  unfold options. clear options. unfold ingest. fold registered.
  destruct registered as [wa nSRSId]. cbn [fst snd] in prepared.
  fold prepared. rewrite Hprep in Hr, Hm |- *. cbn [fst snd] in Hr, Hm.
  rewrite Hr, Hm, Hmalloc. cbn [negb orb].
  by destruct (RasterliteGetTileDriverOptions papszOptions _).
Qed.


(** * Properties of the GPSBabel data source *)

Section GPSBabelFacts.

Import GPSBabel.

(** ** The driver name check (lines 105-120) *)

Lemma valid_from_forall l w :
  valid_from l w =
    if forallb valid_char l then (w, true)
    else (CPLError CE_Failure CPLE_AppDefined "Invalid GPSBabel driver name" w, false).
Proof.
  induction l as [|ch r IH]; [done|]. simpl.
  destruct (valid_char ch); simpl; [exact IH|done].
Qed.

(** X15. A driver name passes the check exactly when each of its
    characters is a letter, a digit or one of [_ = . ,]; the empty name
    passes. A name that passes leaves the world as it is, a name that
    does not is answered by one error, however many of its characters
    are refused. A name that passes holds no hyphen, blank, slash,
    colon, quote, semicolon or bar. *)
Theorem valid_driver_name (pszGPSBabelDriverName : string) (w : World) :
  let out := IsValidDriverName pszGPSBabelDriverName w in
  (snd out = true <-> Forall (fun ch => valid_char ch = true) (chars pszGPSBabelDriverName)) /\
  (snd out = true -> fst out = w) /\
  (snd out = false ->
   fst out = CPLError CE_Failure CPLE_AppDefined "Invalid GPSBabel driver name" w) /\
  (snd out = true ->
   forall ch, In ch (chars pszGPSBabelDriverName) ->
     ch <> "-"%char /\ ch <> " "%char /\ ch <> "/"%char /\ ch <> ":"%char /\
     ch <> ascii_of_nat 34 /\ ch <> "'"%char /\ ch <> ";"%char /\ ch <> "|"%char).
Proof.
  intros out. unfold out, IsValidDriverName. rewrite valid_from_forall.
  destruct (forallb valid_char (chars pszGPSBabelDriverName)) eqn:Hf; cbn [fst snd].
  - rewrite forallb_forall in Hf.
    split; [split; [intros _|done]|].
    { apply List.Forall_forall. exact Hf. }
    split; [done|]. split; [done|].
    intros _ ch Hin. specialize (Hf ch Hin).
    repeat split; intros ->; vm_compute in Hf; discriminate.
  - split; [split; [done|]|].
    { intros Hall. rewrite List.Forall_forall in Hall.
      assert (forallb valid_char (chars pszGPSBabelDriverName) = true)
        by (by apply forallb_forall).
      congruence. }
    split; [done|]. split; [done|]. done.
Qed.

(** ** The stages of [Open] (lines 126-363) *)

Lemma reported_refl w : reported w w.
Proof. split; [done|]. by exists []. Qed.

Lemma reported_error c n msg w : reported w (CPLError c n msg w).
Proof. split; [done|]. exists [EvError c n msg]. split; [done|]. by repeat constructor. Qed.

Lemma reported_trans a b c : reported a b -> reported b c -> reported a c.
Proof.
  intros (Hf1 & n1 & Hl1 & Hs1) (Hf2 & n2 & Hl2 & Hs2).
  split; [congruence|].
  exists (n2 ++ n1). split; [by rewrite Hl2, Hl1, app_assoc|]. by apply Forall_app.
Qed.

Lemma valid_name_effect name w :
  reported w (fst (IsValidDriverName name w)) /\
  snd (IsValidDriverName name w) = forallb valid_char (chars name).
Proof.
  unfold IsValidDriverName. rewrite valid_from_forall.
  destruct (forallb valid_char (chars name)); simpl.
  - split; [apply reported_refl|done].
  - split; [apply reported_error|done].
Qed.

Lemma same_layers_refl st : same_layers st st.
Proof. done. Qed.

(** What the first stage leaves of a fresh data source: nothing known
    yet but perhaps the file name, or both names known, the driver name
    checked when the data source name has the prefix. *)
Lemma open_names_effect name din opts st w :
  let out := open_names name din opts st w in
  reported w (fst (fst out)) /\ same_layers st (snd (fst out)) /\
  (snd out = true -> fresh st ->
   (STARTS_WITH_CI name GPSBABEL_PREFIX = true /\
    pszGPSBabelDriverName (snd (fst out)) = None) \/
   (exists d f, pszGPSBabelDriverName (snd (fst out)) = Some d /\
                pszFilename (snd (fst out)) = Some f /\
                (STARTS_WITH_CI name GPSBABEL_PREFIX = true ->
                 forallb valid_char (chars d) = true))).
Proof.
  intros out. unfold out, open_names. clear out.
  destruct (STARTS_WITH_CI name GPSBABEL_PREFIX) eqn:Hpre; cbn [negb].
  { destruct (CSLFetchNameValue opts "FILENAME") as [file|];
      destruct (CSLFetchNameValue opts "GPSBABEL_DRIVER") as [v|]; cbn [pszFilename set_filename].
    - destruct (valid_name_effect (or_empty (CSLFetchNameValue opts "DRIVER")) w) as [Hr Hv].
      destruct (IsValidDriverName (or_empty (CSLFetchNameValue opts "DRIVER")) w) as [w' ok].
      cbn [fst snd] in *. split; [exact Hr|]. split; [done|].
      intros -> _. right. eexists _, _. split; [reflexivity|]. split; [reflexivity|]. done.
    - split; [apply reported_refl|]. split; [done|].
      intros _ (Hd & _). left. by split.
    - destruct (pszFilename st) as [file|] eqn:Hf.
      + destruct (valid_name_effect (or_empty (CSLFetchNameValue opts "DRIVER")) w)
          as [Hr Hv].
        destruct (IsValidDriverName (or_empty (CSLFetchNameValue opts "DRIVER")) w)
          as [w' ok].
        cbn [fst snd] in *. split; [exact Hr|]. split; [done|].
        intros _ (_ & Hfn & _). congruence.
      + cbn [fst snd]. split; [apply reported_error|]. split; [done|]. done.
    - split; [apply reported_refl|]. split; [done|].
      intros _ (Hd & _). left. by split. }
  cbn [fst snd]. split; [apply reported_refl|]. split; [done|].
  intros _ _. right. eexists _, _. split; [reflexivity|]. split; [reflexivity|]. done.
Qed.

Lemma features_loop_effect toks f bErr w :
  reported w (fst (fst (features_loop toks f bErr w))).
Proof.
  revert f bErr w. induction toks as [|t r IH]; intros f bErr w; simpl.
  { apply reported_refl. }
  destruct (EQUAL t "waypoints"); [apply IH|].
  destruct (EQUAL t "tracks"); [apply IH|].
  destruct (EQUAL t "routes"); [apply IH|].
  eapply reported_trans; [apply reported_error|apply IH].
Qed.

(** What the second stage leaves: with features to go on with, both
    names are known; a name it read off the data source name passed
    the check. *)
Lemma open_syntax_effect env name st w :
  let out := open_syntax env name st w in
  reported w (fst (fst out)) /\ same_layers st (snd (fst out)) /\
  (forall f, snd out = Some f ->
     (forall d, pszGPSBabelDriverName st = Some d -> snd (fst out) = st) /\
     (pszGPSBabelDriverName st = None ->
      exists d file, pszGPSBabelDriverName (snd (fst out)) = Some d /\
                     pszFilename (snd (fst out)) = Some file /\
                     forallb valid_char (chars d) = true)).
Proof.
  intros out. unfold out, open_syntax. clear out.
  destruct (pszGPSBabelDriverName st) as [d|] eqn:Hd.
  { cbn [fst snd]. split; [apply reported_refl|]. split; [done|].
    intros f _. split; [done|]. done. }
  destruct (strchr _ ":") as [sep|].
  2:{ cbn [fst snd]. split; [apply reported_error|]. split; [done|]. done. }
  set (after := skip (String.length GPSBABEL_PREFIX) name).
  set (drv := String.substring 0 sep after).
  destruct (valid_name_effect drv w) as [Hr Hv].
  destruct (IsValidDriverName drv w) as [w1 ok]. cbn [fst snd] in Hr, Hv. subst ok.
  destruct (forallb valid_char (chars drv)) eqn:Hvalid; cbn [negb].
  2:{ cbn [fst snd]. split; [exact Hr|]. split; [done|]. done. }
  set (parsed := if STARTS_WITH_CI (skip (S sep) after) FEATURES_EQUAL then _ else _).
  assert (Hparsed : reported w1 (fst parsed)).
  { unfold parsed. destruct (STARTS_WITH_CI _ FEATURES_EQUAL); [|apply reported_refl].
    destruct (strchr _ ":") as [next|]; [|apply reported_error].
    pose proof (features_loop_effect
                  (CSLTokenizeString env
                     (String.substring 0 next
                        (skip (String.length FEATURES_EQUAL) (skip (S sep) after))))
                  {| bExplicitFeatures := true; bWaypoints := false;
                     bTracks := false; bRoutes := false |} false w1) as Hloop.
    destruct (features_loop _ _ _ _) as [[w2 f2] bErr]. cbn [fst] in Hloop.
    by destruct bErr. }
  destruct parsed as [w2 [[f rest]|]]; cbn [fst snd] in *.
  2:{ split; [by eapply reported_trans|]. split; [done|]. done. }
  destruct (pszFilename (set_driver st (Some drv))) as [file|] eqn:Hfile; cbn [fst snd].
  - split; [by eapply reported_trans|]. split; [done|].
    intros f' _. split; [done|]. intros _. by exists drv, file.
  - split; [by eapply reported_trans|]. split; [done|].
    intros f' _. split; [done|]. intros _. by exists drv, rest.
Qed.

(** What one process run leaves: its output in [tmp], other files as
    they were, and in the log the run and perhaps its error. *)
Lemma spawn_effect env quiet argv fin tmp w :
  let out := spawn env quiet argv fin tmp w in
  (forall path, path <> tmp -> files (fst out) !! path = files w !! path) /\
  is_Some (files (fst out) !! tmp) /\
  exists errs, log (fst out) = errs ++ EvSpawn argv fin tmp :: log w /\ Forall is_error errs /\
               (quiet = true -> errs = []).
Proof.
  intros out. unfold out, spawn. clear out.
  destruct (CPLSpawn env argv _) as [[status output] [[[c n] msg]|]]; [destruct quiet|];
    cbn [fst files log CPLError].
  - split; [by intros path Hp; rewrite lookup_insert_ne|].
    split; [rewrite lookup_insert_eq; eauto|]. by exists [].
  - split; [by intros path Hp; rewrite lookup_insert_ne|].
    split; [rewrite lookup_insert_eq; eauto|].
    exists [EvError c n msg]. split; [done|]. split; [by repeat constructor|done].
  - split; [by intros path Hp; rewrite lookup_insert_ne|].
    split; [rewrite lookup_insert_eq; eauto|]. by exists [].
Qed.

Lemma conversion_event_error f driver tmp e : is_error e -> conversion_event f driver tmp e.
Proof. by destruct e. Qed.

(** The conversion writes no file but [tmp], and runs nothing but
    [gpsbabel] on the command lines of [GetArgv]. *)
Lemma convert_effect env f driver filename tmp w :
  let out := convert env f driver filename tmp w in
  (forall path, path <> tmp -> files (fst out) !! path = files w !! path) /\
  exists new, log (fst out) = new ++ log w /\ Forall (conversion_event f driver tmp) new.
Proof.
  intros out. unfold out, convert. clear out.
  set (argv := GetArgv (bExplicitFeatures f) (bWaypoints f) (bRoutes f) (bTracks f) driver).
  assert (Hspawn : forall quiet file fin w0,
            let o := spawn env quiet (argv file) fin tmp w0 in
            (forall path, path <> tmp -> files (fst o) !! path = files w0 !! path) /\
            exists new, log (fst o) = new ++ log w0 /\
                        Forall (conversion_event f driver tmp) new).
  { intros quiet file fin w0 o.
    destruct (spawn_effect env quiet (argv file) fin tmp w0) as (Hf & _ & errs & Hl & He & _).
    split; [exact Hf|]. exists (errs ++ [EvSpawn (argv file) fin tmp]).
    split; [by rewrite <- app_assoc|].
    apply Forall_app. split.
    - eapply Forall_impl; [exact He|]. apply conversion_event_error.
    - repeat constructor. by exists file. }
  destruct (IsSpecialFile filename).
  { specialize (Hspawn false filename None w).
    destruct (spawn env false (argv filename) None tmp w) as [w1 bRet]. exact Hspawn. }
  destruct (files w !! filename) as [content|].
  2:{ cbn [fst]. split; [done|]. exists [EvError CE_Failure CPLE_AppDefined
                                          ("Cannot open file " ++ filename)].
      split; [done|]. by repeat constructor. }
  pose proof (Hspawn true "-" (Some filename) w) as H1.
  destruct (spawn env true (argv "-") (Some filename) tmp w) as [w1 bRet].
  cbn [fst] in H1. destruct H1 as (Hf1 & new1 & Hl1 & Hn1).
  destruct (last_error w1) as [[c n] msg].
  assert (Herr : forall c' n' msg',
            (forall path, path <> tmp ->
               files (CPLError c' n' msg' w1) !! path = files w !! path) /\
            exists new, log (CPLError c' n' msg' w1) = new ++ log w /\
                        Forall (conversion_event f driver tmp) new).
  { intros c' n' msg'. split; [exact Hf1|].
    exists (EvError c' n' msg' :: new1). split; [simpl; by rewrite Hl1|].
    by constructor. }
  destruct bRet; cbn [negb].
  { cbn [fst]. split; [exact Hf1|]. by exists new1. }
  destruct (contains msg _); cbn [negb]; [|apply Herr].
  destruct (VSIStat env filename); cbn [negb]; [|apply Herr].
  pose proof (Hspawn false filename None w1) as H2.
  destruct (spawn env false (argv filename) None tmp w1) as [w2 bRet2].
  cbn [fst] in *. destruct H2 as (Hf2 & new2 & Hl2 & Hn2).
  split.
  - intros path Hp. by rewrite Hf2, Hf1.
  - exists (new2 ++ new1). split; [by rewrite Hl2, Hl1, app_assoc|]. by apply Forall_app.
Qed.

(** *** The layers *)

Lemma take_layer_ok ds name k st :
  (k < 5)%nat -> layers_ok k st ->
  layers_ok k (take_layer ds name st) \/ layers_ok (S k) (take_layer ds name st).
Proof.
  intros Hk (Hn & Hlen & Hall). unfold take_layer.
  destruct (GetLayerByName ds name) as [poLayer|]; [|by left].
  destruct (GetFeatureCount poLayer =? 0) eqn:Hc; cbn [negb]; [by left|].
  apply Z.eqb_neq in Hc. right. unfold layers_ok, push_layer. cbn [nLayers apoLayers].
  rewrite Hn, Hlen.
  assert (Hin : (0 <=? Z.of_nat k) && (Z.of_nat k <? Z.of_nat 5) = true).
  { apply andb_true_intro. split; [apply Z.leb_le|apply Z.ltb_lt]; lia. }
  rewrite Hin, Nat2Z.id.
  split; [unfold int_add; rewrite wrap32_id; [lia|unfold in_range, INT_MIN, INT_MAX; lia]|].
  split; [by rewrite length_insert|].
  rewrite (take_S_r _ _ (Some poLayer)) by (apply list_lookup_insert_eq; lia).
  rewrite take_insert_ge by lia.
  apply Forall_app. split; [exact Hall|]. repeat constructor. by exists poLayer.
Qed.

Lemma take_layers_ok ds f st :
  layers_ok 0 st -> exists k, (k <= 5)%nat /\ layers_ok k (take_layers ds f st).
Proof.
  intros H0. unfold take_layers.
  assert (Hstep : forall name k st0, (k < 5)%nat -> layers_ok k st0 ->
            exists k', (k <= k' <= S k)%nat /\ layers_ok k' (take_layer ds name st0)).
  { intros name k st0 Hk Hok.
    destruct (take_layer_ok ds name k st0 Hk Hok); [exists k|exists (S k)]; split; (lia || done). }
  set (st1 := if bWaypoints f then take_layer ds "waypoints" st else st).
  assert (H1 : exists k, (k <= 1)%nat /\ layers_ok k st1).
  { unfold st1. destruct (bWaypoints f); [|by exists 0%nat; split; [lia|]].
    destruct (Hstep "waypoints" 0%nat st ltac:(lia) H0) as (k & Hk & Hok).
    exists k. split; [lia|done]. }
  destruct H1 as (k1 & Hk1 & Hok1).
  set (st2 := if bRoutes f then take_layer ds "route_points" (take_layer ds "routes" st1)
              else st1).
  assert (H2 : exists k, (k <= 3)%nat /\ layers_ok k st2).
  { unfold st2. destruct (bRoutes f); [|by exists k1; split; [lia|]].
    destruct (Hstep "routes" k1 st1 ltac:(lia) Hok1) as (k & Hk & Hok).
    destruct (Hstep "route_points" k _ ltac:(lia) Hok) as (k' & Hk' & Hok').
    exists k'. split; [lia|done]. }
  destruct H2 as (k2 & Hk2 & Hok2).
  destruct (bTracks f); [|by exists k2; split; [lia|]].
  destruct (Hstep "tracks" k2 st2 ltac:(lia) Hok2) as (k & Hk & Hok).
  destruct (Hstep "track_points" k _ ltac:(lia) Hok) as (k' & Hk' & Hok').
  exists k'. split; [lia|done].
Qed.

Lemma get_layer_range k st i :
  layers_ok k st -> (k <= 5)%nat ->
  (is_Some (GetLayer st i) <-> 0 <= i < nLayers st).
Proof.
  intros (Hn & Hlen & Hall) Hk. unfold GetLayer. rewrite Hn.
  destruct (i <? 0) eqn:Hneg; cbn [orb].
  { apply Z.ltb_lt in Hneg. split; [by intros [? ?]|lia]. }
  apply Z.ltb_ge in Hneg.
  destruct (i >=? Z.of_nat k) eqn:Hge.
  { apply Z.geb_le in Hge. split; [by intros [? ?]|lia]. }
  rewrite Z.geb_leb in Hge. apply Z.leb_gt in Hge.
  split; [lia|]. intros _.
  rewrite Forall_lookup in Hall.
  assert (is_Some (take k (apoLayers st) !! Z.to_nat i)) as [slot Hslot]
    by (apply lookup_lt_is_Some_2; rewrite length_take; lia).
  destruct (Hall _ _ Hslot) as (poLayer & -> & _).
  rewrite lookup_take_lt in Hslot by lia. rewrite Hslot. simpl. eauto.
Qed.

(** Taking layers leaves the names of the data source. *)
Lemma take_layer_names ds name st :
  pszGPSBabelDriverName (take_layer ds name st) = pszGPSBabelDriverName st /\
  pszFilename (take_layer ds name st) = pszFilename st /\
  osTmpFileName (take_layer ds name st) = osTmpFileName st.
Proof.
  unfold take_layer. destruct (GetLayerByName ds name) as [poLayer|]; [|done].
  by destruct (negb (GetFeatureCount poLayer =? 0)).
Qed.

Lemma take_layers_names ds f st :
  pszGPSBabelDriverName (take_layers ds f st) = pszGPSBabelDriverName st /\
  pszFilename (take_layers ds f st) = pszFilename st /\
  osTmpFileName (take_layers ds f st) = osTmpFileName st.
Proof.
  unfold take_layers.
  destruct (bWaypoints f), (bRoutes f), (bTracks f);
    repeat match goal with
    | |- context [take_layer ds ?n ?s] =>
        destruct (take_layer_names ds n s) as (-> & -> & ->)
    end; done.
Qed.

(** The third stage on a data source that has its two names and no
    layer yet. *)
Lemma open_run_effect env f st w d file :
  pszGPSBabelDriverName st = Some d -> pszFilename st = Some file ->
  layers_ok 0 st ->
  let out := open_run env f st w in
  let st' := snd (fst out) in
  (forall path, path <> temp_name env ->
     files (fst (fst out)) !! path = files w !! path) /\
  (exists new, log (fst (fst out)) = new ++ log w /\
               Forall (conversion_event f d (temp_name env)) new) /\
  pszGPSBabelDriverName st' = Some d /\ pszFilename st' = Some file /\
  osTmpFileName st' = temp_name env /\
  snd out = Some (0 <? nLayers st') /\
  exists k, (k <= 5)%nat /\ layers_ok k st'.
Proof.
  intros Hd Hf H0 out st'. unfold st', out, open_run. clear st' out.
  cbn [pszGPSBabelDriverName pszFilename set_tmp osTmpFileName]. rewrite Hd, Hf.
  set (st0 := set_tmp st (temp_name env)).
  assert (Hst0 : layers_ok 0 st0) by exact H0.
  assert (Hn0 : nLayers st0 = 0) by (by destruct H0).
  destruct (convert_effect env f d file (temp_name env) w) as (Hfiles & Hlog).
  destruct (convert env f d file (temp_name env) w) as [w1 [bRet|]]; cbn [fst snd] in *.
  2:{ split; [done|]. split; [done|]. rewrite Hn0. repeat (split; [done|]). exists 0%nat; split; [lia|done]. }
  split; [done|]. split; [done|].
  destruct bRet.
  2:{ rewrite Hn0. repeat (split; [done|]). exists 0%nat; split; [lia|done]. }
  set (st1 := set_dataset st0 (files w1 !! temp_name env ≫= GDALOpenEx env)).
  assert (H1 : layers_ok 0 st1) by exact H0.
  assert (Hn1 : nLayers st1 = 0) by (by destruct H0).
  destruct (poGPXDS st1) as [ds|].
  2:{ rewrite Hn1. repeat (split; [done|]). exists 0%nat; split; [lia|done]. }
  destruct (take_layers_ok ds f st1 H1) as (k & Hk & Hok).
  assert (Hkeep : pszGPSBabelDriverName (take_layers ds f st1) = Some d /\
                  pszFilename (take_layers ds f st1) = Some file /\
                  osTmpFileName (take_layers ds f st1) = temp_name env).
  { destruct (take_layers_names ds f st1) as (-> & -> & ->). done. }
  destruct Hkeep as (? & ? & ?).
  repeat (split; [done|]). by exists k.
Qed.

Lemma fresh_layers_ok st : fresh st -> layers_ok 0 st.
Proof. intros (_ & _ & _ & _ & Hn & Hlen). by repeat split. Qed.

Lemma same_layers_ok k st st' : same_layers st st' -> layers_ok k st -> layers_ok k st'.
Proof. intros (_ & _ & Ha & Hn) (H1 & H2 & H3). unfold layers_ok. by rewrite Ha, Hn. Qed.

(** A fresh data source is opened in stages: the call fails before the
    conversion with errors reported and nothing else done, or it comes
    to the third stage with both names known, the driver name checked
    when the data source name has the prefix. *)
Lemma open_stages env name din opts st w :
  fresh st ->
  (exists w' st', Open env name din opts st w = (w', st', Some false) /\
                  reported w w' /\ same_layers st st') \/
  (exists f w2 st2 d file,
     Open env name din opts st w = open_run env f st2 w2 /\
     reported w w2 /\ same_layers st st2 /\
     pszGPSBabelDriverName st2 = Some d /\ pszFilename st2 = Some file /\
     (STARTS_WITH_CI name GPSBABEL_PREFIX = true -> forallb valid_char (chars d) = true)).
Proof.
  intros Hfresh. unfold Open.
  destruct (open_names_effect name din opts st w) as (Hr1 & Hs1 & Hn1).
  destruct (open_names name din opts st w) as [[w1 st1] ok]. cbn [fst snd] in *.
  destruct ok; cbn [negb]; [|left; exists w1, st1; split; [reflexivity|]; split; assumption].
  specialize (Hn1 eq_refl Hfresh).
  destruct (open_syntax_effect env name st1 w1) as (Hr2 & Hs2 & Hn2).
  destruct (open_syntax env name st1 w1) as [[w2 st2] [f|]]; cbn [fst snd] in *.
  2:{ left. exists w2, st2. split; [done|]. split; [by eapply reported_trans|].
      destruct Hs1 as (? & ? & ? & ?), Hs2 as (? & ? & ? & ?). repeat split; congruence. }
  right. destruct (Hn2 f eq_refl) as [Hkeep Hparse].
  assert (Hsame : same_layers st st2).
  { destruct Hs1 as (? & ? & ? & ?), Hs2 as (? & ? & ? & ?). repeat split; congruence. }
  destruct Hn1 as [[Hpre Hnone] | (d & file & Hd & Hf & Hv)].
  - destruct (Hparse Hnone) as (d & file & Hd & Hf & Hv).
    exists f, w2, st2, d, file. split; [done|]. split; [by eapply reported_trans|].
    split; [exact Hsame|]. split; [exact Hd|]. split; [exact Hf|]. intros _. exact Hv.
  - rewrite (Hkeep d Hd) in *.
    exists f, w2, st1, d, file. split; [done|]. split; [by eapply reported_trans|].
    split; [exact Hs1|]. split; [exact Hd|]. split; [exact Hf|]. exact Hv.
Qed.

(** X16. [Open] on a data source that has not been opened always
    returns, and returns TRUE exactly when it has taken a layer. It
    takes at most five layers, so that every write to [apoLayers] is
    inside the array; each slot in use holds a layer that has features;
    and [GetLayer] gives a layer exactly for the indices from 0 to
    [nLayers] - 1. *)
Theorem open_layers_in_bounds (env : Env) (pszDatasourceName : string)
  (pszGPSBabelDriverNameIn : option string) (papszOpenOptionsIn : list string)
  (st : OGRGPSBabelDataSource) (w : World) :
  fresh st ->
  let out := Open env pszDatasourceName pszGPSBabelDriverNameIn papszOpenOptionsIn st w in
  let st' := snd (fst out) in
  snd out = Some (0 <? nLayers st') /\
  0 <= nLayers st' <= 5 /\
  length (apoLayers st') = 5%nat /\
  Forall has_features (exposed st') /\
  (forall iLayer, is_Some (GetLayer st' iLayer) <-> 0 <= iLayer < nLayers st').
Proof.
  intros Hfresh out st'. unfold st', out. clear st' out.
  assert (Hfinal : forall k st', (k <= 5)%nat -> layers_ok k st' ->
            0 <= nLayers st' <= 5 /\ length (apoLayers st') = 5%nat /\
            Forall has_features (exposed st') /\
            (forall iLayer, is_Some (GetLayer st' iLayer) <-> 0 <= iLayer < nLayers st')).
  { intros k st' Hk Hok. pose proof Hok as (Hn & Hlen & Hall).
    split; [lia|]. split; [done|]. split.
    - unfold exposed. by rewrite Hn, Nat2Z.id.
    - intros i. by apply (get_layer_range k). }
  destruct (open_stages env pszDatasourceName pszGPSBabelDriverNameIn papszOpenOptionsIn
              st w Hfresh)
    as [(w' & st' & -> & _ & Hs) | (f & w2 & st2 & d & file & -> & _ & Hs & Hd & Hf & _)].
  - cbn [fst snd].
    pose proof (same_layers_ok 0 st st' Hs (fresh_layers_ok st Hfresh)) as Hok.
    pose proof Hok as (Hn & _ & _). simpl in Hn.
    split; [by rewrite Hn|]. apply (Hfinal 0%nat); [lia|done].
  - pose proof (same_layers_ok 0 st st2 Hs (fresh_layers_ok st Hfresh)) as Hok.
    destruct (open_run_effect env f st2 w2 d file Hd Hf Hok)
      as (_ & _ & _ & _ & _ & Hres & k & Hk & Hk').
    split; [exact Hres|]. by apply (Hfinal k).
Qed.

(** X17. When the data source name has the prefix [GPSBABEL:], every
    process [Open] runs is [gpsbabel] on a command line of [GetArgv]
    whose driver name, the argument after [-i], has passed the check of
    [IsValidDriverName]: the driver name read off the data source name
    or given as an open option cannot bring an option of its own onto
    the command line. *)
Theorem open_checks_driver_name (env : Env) (pszDatasourceName : string)
  (pszGPSBabelDriverNameIn : option string) (papszOpenOptionsIn : list string)
  (st : OGRGPSBabelDataSource) (w : World) :
  fresh st ->
  STARTS_WITH_CI pszDatasourceName GPSBABEL_PREFIX = true ->
  let out := Open env pszDatasourceName pszGPSBabelDriverNameIn papszOpenOptionsIn st w in
  exists new,
    log (fst (fst out)) = new ++ log w /\
    forall argv fin fout, In (EvSpawn argv fin fout) new ->
      exists driver file e wp rt tr,
        pszGPSBabelDriverName (snd (fst out)) = Some driver /\
        Forall (fun ch => valid_char ch = true) (chars driver) /\
        argv = GetArgv e wp rt tr driver file.
Proof.
  intros Hfresh Hpre out. unfold out. clear out.
  destruct (open_stages env pszDatasourceName pszGPSBabelDriverNameIn papszOpenOptionsIn
              st w Hfresh)
    as [(w' & st' & -> & (_ & new & Hl & Hn) & _)
       | (f & w2 & st2 & d & file & -> & (_ & new & Hl & Hn) & Hs & Hd & Hf & Hv)].
  - cbn [fst]. exists new. split; [done|].
    intros argv fin fout Hin. rewrite List.Forall_forall in Hn. by apply Hn in Hin.
  - pose proof (same_layers_ok 0 st st2 Hs (fresh_layers_ok st Hfresh)) as Hok.
    destruct (open_run_effect env f st2 w2 d file Hd Hf Hok)
      as (_ & (new2 & Hl2 & Hn2) & Hd' & _).
    exists (new2 ++ new). split; [by rewrite Hl2, Hl, app_assoc|].
    intros argv fin fout Hin. apply in_app_or in Hin as [Hin|Hin].
    + rewrite List.Forall_forall in Hn2. apply Hn2 in Hin as (_ & file' & ->).
      exists d, file', (bExplicitFeatures f), (bWaypoints f), (bRoutes f), (bTracks f).
      split; [done|]. split; [|done].
      apply List.Forall_forall. apply forallb_forall. by apply Hv.
    + rewrite List.Forall_forall in Hn. by apply Hn in Hin.
Qed.

(** X18. [Open] writes no file but its temporary file, and the
    destructor removes it: after [Open] and the destructor every file
    other than the temporary one is as it was before, and the temporary
    file, when it has a name, is not there. The temporary file name is
    empty when [Open] failed before the conversion. *)
Theorem open_then_destroy (env : Env) (pszDatasourceName : string)
  (pszGPSBabelDriverNameIn : option string) (papszOpenOptionsIn : list string)
  (st : OGRGPSBabelDataSource) (w : World) :
  fresh st ->
  let out := Open env pszDatasourceName pszGPSBabelDriverNameIn papszOpenOptionsIn st w in
  let st' := snd (fst out) in
  let w' := destroy st' (fst (fst out)) in
  (osTmpFileName st' = "" \/ osTmpFileName st' = temp_name env) /\
  (forall path, path <> osTmpFileName st' ->
     files (fst (fst out)) !! path = files w !! path /\ files w' !! path = files w !! path) /\
  (osTmpFileName st' <> "" -> files w' !! osTmpFileName st' = None).
Proof.
  intros Hfresh out st' w'. unfold w', st', out. clear w' st' out.
  assert (Hdestroy : forall st1 w1,
            files (destroy st1 w1) =
              if string_empty (osTmpFileName st1) then files w1
              else delete (osTmpFileName st1) (files w1)).
  { intros st1 w1. unfold destroy, CloseDependentDatasets.
    destruct (poGPXDS st1); cbn [osTmpFileName set_dataset];
      by destruct (string_empty (osTmpFileName st1)). }
  destruct (open_stages env pszDatasourceName pszGPSBabelDriverNameIn papszOpenOptionsIn
              st w Hfresh)
    as [(w1 & st1 & -> & (Hfiles & _) & Hs) | (f & w2 & st2 & d & file & -> & (Hfiles & _) & Hs & Hd & Hf & _)].
  - cbn [fst snd]. destruct Hs as (Htmp & _). destruct Hfresh as (_ & _ & Hempty & _).
    rewrite Hdestroy, Htmp, Hempty. cbn [string_empty].
    split; [by left|]. split; [by rewrite Hfiles|]. done.
  - pose proof (same_layers_ok 0 st st2 Hs (fresh_layers_ok st Hfresh)) as Hok.
    destruct (open_run_effect env f st2 w2 d file Hd Hf Hok)
      as (Hf2 & _ & _ & _ & Htmp & _).
    rewrite Hdestroy, Htmp. split; [by right|].
    destruct (string_empty (temp_name env)) eqn:He.
    + apply string_empty_iff in He. split.
      { intros path Hp. by rewrite Hf2, Hfiles. }
      done.
    + split.
      { intros path Hp. rewrite lookup_delete_ne by done. by rewrite Hf2, Hfiles. }
      intros _. by rewrite lookup_delete_eq.
Qed.

(** *** The data source name *)

Lemma starts_with_ci_prefix pre s P :
  String.length pre = String.length P -> EQUAL pre P = true ->
  STARTS_WITH_CI (pre ++ s) P = true.
Proof.
  intros Hlen Heq. unfold STARTS_WITH_CI.
  rewrite <- Hlen, substring_prefix, Heq, string_length_app. simpl.
  apply Nat.leb_le. lia.
Qed.

Lemma chars_app a b : chars (a ++ b) = chars a ++ chars b.
Proof. induction a as [|c a IH]; simpl; [done|]. by rewrite IH. Qed.

Lemma length_chars a : length (chars a) = String.length a.
Proof. induction a as [|c a IH]; simpl; [done|]. by rewrite IH. Qed.

Lemma strchr_from_app i la lb c :
  forallb (fun x => negb (Ascii.eqb x c)) la = true ->
  strchr_from i (la ++ c :: lb) c = Some (i + length la)%nat.
Proof.
  revert i. induction la as [|x la IH]; intros i H; simpl.
  - rewrite Ascii.eqb_refl. f_equal. lia.
  - simpl in H. apply andb_prop in H as [Hx Hla].
    apply negb_true_iff in Hx. rewrite Hx, IH by done. f_equal. lia.
Qed.

Lemma strchr_None s c :
  strchr s c = None -> forallb (fun x => negb (Ascii.eqb x c)) (chars s) = true.
Proof.
  unfold strchr. generalize 0%nat. induction (chars s) as [|x l IH]; intros i H; [done|].
  simpl in *. destruct (Ascii.eqb x c); [done|]. simpl. by apply (IH (S i)).
Qed.

Lemma strchr_app a b c :
  forallb (fun x => negb (Ascii.eqb x c)) (chars a) = true ->
  strchr (a ++ String c b) c = Some (String.length a).
Proof.
  intros H. unfold strchr. rewrite chars_app. simpl.
  rewrite strchr_from_app by done. by rewrite length_chars.
Qed.

Lemma valid_no_colon l :
  forallb valid_char l = true -> forallb (fun x => negb (Ascii.eqb x ":")) l = true.
Proof.
  intros H. apply forallb_forall. intros x Hx.
  rewrite forallb_forall in H. specialize (H x Hx).
  destruct (Ascii.eqb_spec x ":") as [->|]; [|done]. vm_compute in H. discriminate.
Qed.

Lemma skip_S_prefix a c b : skip (S (String.length a)) (a ++ String c b) = b.
Proof.
  unfold skip. rewrite string_length_app. cbn [String.length].
  replace (String.length a + S (String.length b) - S (String.length a))%nat
    with (String.length b) by lia.
  induction a as [|x a IH]; simpl.
  - apply substring_all.
  - exact IH.
Qed.

Lemma open_names_no_options name din opts st w :
  STARTS_WITH_CI name GPSBABEL_PREFIX = true ->
  CSLFetchNameValue opts "FILENAME" = None ->
  CSLFetchNameValue opts "GPSBABEL_DRIVER" = None ->
  open_names name din opts st w = (w, st, true).
Proof. intros Hpre Hf Hd. unfold open_names. by rewrite Hpre, Hf, Hd. Qed.

(** X19. The data source name [GPSBABEL:driver:file] is taken apart
    into the driver name and the file name it was made of: with a driver
    name that passes the check, no open option and a file name that does
    not begin with [features=], [Open] goes on to the conversion with
    these two names and all classes of features. The case of the prefix
    does not matter. *)
Theorem open_parses_name (env : Env) (scheme driver file : string)
  (pszGPSBabelDriverNameIn : option string) (papszOpenOptionsIn : list string)
  (st : OGRGPSBabelDataSource) (w : World) :
  fresh st ->
  CSLFetchNameValue papszOpenOptionsIn "FILENAME" = None ->
  CSLFetchNameValue papszOpenOptionsIn "GPSBABEL_DRIVER" = None ->
  String.length scheme = 9%nat -> EQUAL scheme GPSBABEL_PREFIX = true ->
  forallb valid_char (chars driver) = true ->
  STARTS_WITH_CI file FEATURES_EQUAL = false ->
  Open env (scheme ++ driver ++ ":" ++ file) pszGPSBabelDriverNameIn papszOpenOptionsIn st w
    = open_run env all_features (named st driver file) w.
Proof.
  intros (Hd & Hfn & _) Hof Hod Hlen Heq Hvalid Hfeat. unfold Open.
  rewrite open_names_no_options by (try done; by apply starts_with_ci_prefix).
  cbn [negb]. unfold open_syntax. rewrite Hd.
  change (String.length GPSBABEL_PREFIX) with 9%nat. rewrite <- Hlen, skip_prefix.
  change (driver ++ ":" ++ file)%string with (driver ++ String ":" file)%string.
  rewrite strchr_app by (by apply valid_no_colon).
  rewrite substring_prefix, skip_S_prefix.
  unfold IsValidDriverName. rewrite valid_from_forall, Hvalid. cbn [negb].
  rewrite Hfeat. cbn [pszFilename set_driver]. by rewrite Hfn.
Qed.

Lemma equal_exclusive t a b :
  upper a <> upper b -> EQUAL t a = true -> EQUAL t b = false.
Proof.
  unfold EQUAL. intros Hne Ha. apply String.eqb_eq in Ha.
  apply String.eqb_neq. congruence.
Qed.

Lemma features_loop_spec toks f bErr w :
  features_loop toks f bErr w =
    ({| files := files w;
        last_error := if forallb known_feature toks then last_error w
                      else (CE_Failure, CPLE_AppDefined,
                            "Wrong value for 'features' options");
        log := repeat wrong_feature
                 (length (List.filter (fun t => negb (known_feature t)) toks)) ++ log w |},
     {| bExplicitFeatures := bExplicitFeatures f;
        bWaypoints := bWaypoints f || existsb (fun t => EQUAL t "waypoints") toks;
        bTracks := bTracks f || existsb (fun t => EQUAL t "tracks") toks;
        bRoutes := bRoutes f || existsb (fun t => EQUAL t "routes") toks |},
     bErr || negb (forallb known_feature toks)).
Proof.
  revert f bErr w. induction toks as [|t r IH]; intros f bErr w.
  { simpl. rewrite !orb_false_r. by destruct f, w. }
  cbn [features_loop forallb List.filter existsb].
  destruct (EQUAL t "waypoints") eqn:Hw.
  { assert (Hk : known_feature t = true) by (unfold known_feature; by rewrite Hw).
    rewrite (equal_exclusive t "waypoints" "tracks"), (equal_exclusive t "waypoints" "routes")
      by done.
    rewrite IH, Hk. cbn [negb andb orb bExplicitFeatures bWaypoints bTracks bRoutes].
    by rewrite !orb_true_r. }
  destruct (EQUAL t "tracks") eqn:Ht.
  { assert (Hk : known_feature t = true) by (unfold known_feature; by rewrite Hw, Ht).
    rewrite (equal_exclusive t "tracks" "routes") by done.
    rewrite IH, Hk. cbn [negb andb orb bExplicitFeatures bWaypoints bTracks bRoutes].
    by rewrite !orb_true_r. }
  destruct (EQUAL t "routes") eqn:Hr.
  { assert (Hk : known_feature t = true) by (unfold known_feature; by rewrite Hw, Ht, Hr).
    rewrite IH, Hk. cbn [negb andb orb bExplicitFeatures bWaypoints bTracks bRoutes].
    by rewrite !orb_true_r. }
  assert (Hk : known_feature t = false) by (unfold known_feature; by rewrite Hw, Ht, Hr).
  rewrite IH, Hk.
  cbn [negb andb orb length files last_error log CPLError].
  rewrite orb_true_r. f_equal. f_equal.
  assert (Hrep : forall n (l : list Event),
            repeat wrong_feature (S n) ++ l = repeat wrong_feature n ++ wrong_feature :: l).
  { intros n l. cbn [repeat]. rewrite repeat_cons, <- app_assoc. done. }
  rewrite Hrep. unfold wrong_feature at 2.
  by destruct (forallb known_feature r).
Qed.

(** X20. The data source name
    [GPSBABEL:driver:features=list:file]. When every token of the list
    is waypoints, tracks or routes (in any case), [Open] goes on to the
    conversion with the classes the tokens name and no other. When a
    token is none of them [Open] returns FALSE after one error for each
    such token: no process is run and no file written, and the driver
    name stays set. *)
Theorem open_explicit_features (env : Env) (scheme driver equal features file : string)
  (pszGPSBabelDriverNameIn : option string) (papszOpenOptionsIn : list string)
  (st : OGRGPSBabelDataSource) (w : World) :
  fresh st ->
  CSLFetchNameValue papszOpenOptionsIn "FILENAME" = None ->
  CSLFetchNameValue papszOpenOptionsIn "GPSBABEL_DRIVER" = None ->
  String.length scheme = 9%nat -> EQUAL scheme GPSBABEL_PREFIX = true ->
  forallb valid_char (chars driver) = true ->
  String.length equal = 9%nat -> EQUAL equal FEATURES_EQUAL = true ->
  strchr features ":" = None ->
  let name := (scheme ++ driver ++ ":" ++ equal ++ features ++ ":" ++ file)%string in
  let toks := CSLTokenizeString env features in
  let out := Open env name pszGPSBabelDriverNameIn papszOpenOptionsIn st w in
  (forallb known_feature toks = true ->
   out = open_run env (requested toks) (named st driver file) w) /\
  (forallb known_feature toks = false ->
   snd out = Some false /\ snd (fst out) = set_driver st (Some driver) /\
   files (fst (fst out)) = files w /\
   log (fst (fst out)) =
     repeat wrong_feature (length (List.filter (fun t => negb (known_feature t)) toks))
       ++ log w).
Proof.
  intros (Hd & Hfn & _) Hof Hod Hlen Heq Hvalid Hlen2 Heq2 Hnocolon name toks out.
  unfold out, name. clear out name. unfold Open.
  rewrite open_names_no_options by (try done; by apply starts_with_ci_prefix).
  cbn [negb]. unfold open_syntax. rewrite Hd.
  change (String.length GPSBABEL_PREFIX) with 9%nat. rewrite <- Hlen, skip_prefix.
  change (driver ++ ":" ++ equal ++ features ++ ":" ++ file)%string
    with (driver ++ String ":" (equal ++ features ++ String ":" file))%string.
  rewrite strchr_app by (by apply valid_no_colon).
  rewrite substring_prefix, skip_S_prefix.
  unfold IsValidDriverName. rewrite valid_from_forall, Hvalid. cbn [negb].
  rewrite starts_with_ci_prefix by done.
  change (String.length FEATURES_EQUAL) with 9%nat. rewrite <- Hlen2, skip_prefix.
  rewrite strchr_app by (by apply strchr_None).
  rewrite substring_prefix, skip_S_prefix. fold toks.
  rewrite features_loop_spec. cbn [orb bExplicitFeatures bWaypoints bTracks bRoutes].
  fold (requested toks).
  destruct (forallb known_feature toks) eqn:Hall; cbn [negb].
  - split; [|done]. intros _. cbn [pszFilename set_driver]. rewrite Hfn.
    assert (Hnone : List.filter (fun t => negb (known_feature t)) toks = []).
    { clear -Hall. induction toks as [|t r IH]; [done|].
      simpl in *. apply andb_prop in Hall as [-> Hr]. simpl. by apply IH. }
    rewrite Hnone. unfold named. by destruct w.
  - split; [done|]. intros _. by cbn.
Qed.

(** X21. With the prefix and the open option GPSBABEL_DRIVER, [Open]
    needs the open option FILENAME and fails with an error without it.
    With it, the driver name is the value of the open option DRIVER (the
    empty name when that option is not given), whatever the value of
    GPSBABEL_DRIVER, and it is checked before anything is run. *)
Theorem open_with_options (env : Env) (pszDatasourceName : string)
  (pszGPSBabelDriverNameIn : option string) (papszOpenOptionsIn : list string)
  (st : OGRGPSBabelDataSource) (w : World) (v : string) :
  fresh st ->
  STARTS_WITH_CI pszDatasourceName GPSBABEL_PREFIX = true ->
  CSLFetchNameValue papszOpenOptionsIn "GPSBABEL_DRIVER" = Some v ->
  let out := Open env pszDatasourceName pszGPSBabelDriverNameIn papszOpenOptionsIn st w in
  let driver := or_empty (CSLFetchNameValue papszOpenOptionsIn "DRIVER") in
  (CSLFetchNameValue papszOpenOptionsIn "FILENAME" = None ->
   out = (CPLError CE_Failure CPLE_AppDefined "Missing FILENAME" w, st, Some false)) /\
  (forall file, CSLFetchNameValue papszOpenOptionsIn "FILENAME" = Some file ->
   out = if forallb valid_char (chars driver)
         then open_run env all_features (named st driver file) w
         else (CPLError CE_Failure CPLE_AppDefined "Invalid GPSBabel driver name" w,
               named st driver file, Some false)).
Proof.
  intros (Hd & Hfn & _) Hpre Hopt out driver. unfold out, driver. clear out driver.
  unfold Open, open_names. rewrite Hpre, Hopt. cbn [negb]. split.
  - intros ->. by rewrite Hfn.
  - intros file ->. cbn [pszFilename set_filename].
    unfold IsValidDriverName. rewrite valid_from_forall.
    destruct (forallb valid_char _); cbn [negb]; [|done].
    unfold open_syntax. done.
Qed.

(** X22. A file that is not a special file is first piped into
    [gpsbabel]. When that run fails, the error it recorded decides: an
    error that does not say that the format cannot be piped is reported
    and the conversion has failed; otherwise a file that is not a real
    file makes [Open] fail with an error of its own, and a real file is
    converted again, by name and without input, the status of that run
    being the result. *)
Theorem convert_piped_fallback (env : Env) (f : Features) (driver filename tmp : string)
  (w : World) (content output : list ascii) (c : CPLErr) (n : CPLErrorNum) (msg : string) :
  IsSpecialFile filename = false ->
  files w !! filename = Some content ->
  let argv := GetArgv (bExplicitFeatures f) (bWaypoints f) (bRoutes f) (bTracks f) driver in
  CPLSpawn env (argv "-") (Some content) = (false, output, Some (c, n, msg)) ->
  let w1 := {| files := <[tmp := output]> (files w); last_error := (c, n, msg);
               log := EvSpawn (argv "-") (Some filename) tmp :: log w |} in
  let out := convert env f driver filename tmp w in
  let piped := contains msg "This format cannot be used in piped commands" in
  (piped = false -> out = (CPLError c n msg w1, Some false)) /\
  (piped = true -> VSIStat env filename = false ->
   out = (CPLError CE_Failure CPLE_NotSupported
            ("Driver " ++ driver ++ " only supports real (non virtual) files") w1, None)) /\
  (piped = true -> VSIStat env filename = true ->
   out = (fst (spawn env false (argv filename) None tmp w1),
          Some (snd (spawn env false (argv filename) None tmp w1)))).
Proof.
  intros Hsp Hfile argv Hspawn w1 out piped. unfold out, piped. clear out piped.
  assert (Hs1 : spawn env true (argv "-") (Some filename) tmp w = (w1, false)).
  { unfold spawn. cbn [mbind option_bind]. by rewrite Hfile, Hspawn. }
  unfold convert. rewrite Hsp, Hfile. fold argv. rewrite Hs1.
  cbn [last_error w1 negb].
  destruct (contains msg _); cbn [negb].
  - split; [done|]. split.
    + intros _ ->. done.
    + intros _ ->. cbn [negb]. by destruct (spawn env false (argv filename) None tmp w1).
  - split; [done|]. split; done.
Qed.

End GPSBabelFacts.

(** * Witnesses and counterexamples *)



(** The sample transaction inserts nine metadata rows numbered 0 to 8. *)
Lemma tile_ids_row_major_witness :
  exists l,
    table_rows (fst (Sample.transaction Sample.world)) (Some "db.sqlite") "t_metadata"
      = table_rows Sample.world (Some "db.sqlite") "t_metadata" ++ l /\
    Z.of_nat (length l) = 9 /\
    map tile_id_of l = map Some (seqZ 0 9).
Proof.
  destruct (tile_ids_row_major Sample.env Sample.src (Some "db.sqlite") "GTiff" []
              "t_rasters" "t_metadata" identity_geotransform 1 1 600 600 256 256
              3 3 9 None eq_refl eq_refl "db.sqlite,table=t" Sample.world
              "db.sqlite" Sample.store) as (l & H1 & H2 & H3 & H4).
  - reflexivity.
  - reflexivity.
  - reflexivity.
  - discriminate.
  - lia.
  - lia.
  - lia.
  - lia.
  - vm_compute. discriminate.
  - vm_compute. discriminate.
  - vm_compute. discriminate.
  - exists (EvClose "db.sqlite"). vm_compute. reflexivity.
  - exists l. split; [exact H1|]. split; [exact H2 | exact H4].
Defined.

(** The sample loop ends without error: it has added nine rows, and the
    row of the block at column 2 of block-row 1, the sixth, is 88 wide
    and 256 high with the corners of its rectangle. *)
Lemma block_rectangle_formula_witness :
  exists l,
    table_rows (ls_world (Sample.loop Sample.world)) (Some "db.sqlite") "t_metadata"
      = table_rows Sample.world (Some "db.sqlite") "t_metadata" ++ l /\
    Z.of_nat (length l) = 9 /\
    forall f, l !! 5%nat = Some f ->
      exists m,
        fields f = MetaFields m /\ tile_id m = 5 /\ width m = 88 /\ height m = 256 /\
        let minx := (0 + double_of_int (2 * 256) * 1)%float in
        let maxx := (0 + double_of_int (2 * 256 + width m) * 1)%float in
        let maxy := (0 + double_of_int (1 * 256) * -1)%float in
        let miny := (0 + double_of_int (1 * 256 + height m) * -1)%float in
        geometry m = [(minx, miny); (minx, maxy); (maxx, maxy); (maxx, miny); (minx, miny)].
Proof.
  destruct (block_rectangle_formula Sample.env Sample.src (Some "db.sqlite") "GTiff" []
              "t_rasters" "t_metadata" identity_geotransform 1 1 600 600 256 256
              3 3 9 None eq_refl eq_refl Sample.world) as (l & H1 & _ & H3 & H4).
  - discriminate.
  - lia.
  - lia.
  - lia.
  - lia.
  - vm_compute. discriminate.
  - vm_compute. discriminate.
  - vm_compute. discriminate.
  - exists l. split; [exact H1|]. split; [apply H3; vm_compute; reflexivity|].
    intros f Hf.
    assert (Hn : ceil_div 600 256 = 3) by reflexivity.
    destruct (H4 2 1) as [_ H5]; [rewrite Hn; lia | rewrite Hn; lia |].
    assert (Hidx : Z.to_nat (1 * ceil_div 600 256 + 2) = 5%nat) by reflexivity.
    rewrite Hidx in H5.
    destruct (H5 f Hf) as (m & Hm & Ht & Hw & Hh & Hg).
    exists m. split; [exact Hm|]. split; [rewrite Ht, Hn; reflexivity|].
    split; [rewrite Hw; reflexivity|].
    split; [rewrite Hh; reflexivity|].
    rewrite Hw, Hh in Hg |- *. exact Hg.
Defined.

(** The nine rows of the sample loop: the third, at column 2 of
    block-row 0, is 88 wide and 256 high. *)
Lemma tile_size_bounds_witness :
  exists l,
    table_rows (ls_world (Sample.loop Sample.world)) (Some "db.sqlite") "t_metadata"
      = table_rows Sample.world (Some "db.sqlite") "t_metadata" ++ l /\
    Z.of_nat (length l) = 9 /\
    forall f, l !! 2%nat = Some f ->
      exists m, fields f = MetaFields m /\ tile_id m = 2 /\ width m = 88 /\ height m = 256.
Proof.
  destruct (tile_size_bounds Sample.env Sample.src (Some "db.sqlite") "GTiff" []
              "t_rasters" "t_metadata" identity_geotransform 1 1 600 600 256 256
              3 3 9 None eq_refl eq_refl Sample.world) as (l & H1 & _ & H3 & H4).
  - discriminate.
  - lia.
  - lia.
  - lia.
  - lia.
  - vm_compute. discriminate.
  - vm_compute. discriminate.
  - vm_compute. discriminate.
  - exists l. split; [exact H1|]. split; [apply H3; vm_compute; reflexivity|].
    intros f Hf.
    destruct (H4 2%nat f Hf)
      as (bx & by_ & m & Hb & _ & _ & Hm & Ht & _ & _ & _ & Hx & Hy & _).
    vm_compute in Hb. injection Hb as <- <-.
    exists m. split; [exact Hm|]. split; [exact Ht|].
    split; [apply Hx; reflexivity | apply Hy; vm_compute; reflexivity].
Defined.

(** The rows the sample loop adds record 1 for the coefficient -1. *)
Lemma pixel_y_size_negated_witness :
  exists l,
    table_rows (ls_world (Sample.loop Sample.world)) (Some "db.sqlite") "t_metadata"
      = table_rows Sample.world (Some "db.sqlite") "t_metadata" ++ l /\
    Forall (fun f => exists m, fields f = MetaFields m /\ pixel_y_size m = 1%float) l.
Proof.
  destruct (pixel_y_size_negated Sample.env Sample.src (Some "db.sqlite") "GTiff" []
              "t_rasters" "t_metadata" identity_geotransform 1 1 600 600 256 256
              3 3 9 None eq_refl eq_refl Sample.world) as (l & H1 & H2).
  - discriminate.
  - exists l. split; [exact H1|].
    eapply Forall_impl; [exact H2|].
    intros f (m & Hm & Hp & _). exists m. split; [exact Hm | exact Hp].
Defined.

(** C6, counterexample. The south-up raster passes the checks and is
    ingested; the metadata row records -1 for the coefficient 1, which
    is neither its absolute value nor positive. *)
Lemma pixel_y_size_counterexample :
  let out := RasterliteCreateCopy Sample.env "south.sqlite" Sample.south_up [] None
               Sample.no_files in
  accepted Sample.env Sample.south_up [] /\
  snd out = Some "south.sqlite" /\
  exists f m g,
    In f (table_rows (fst out) (Some "south.sqlite") "south_metadata") /\
    fields f = MetaFields m /\
    source_geotransform Sample.south_up = Some g /\
    pixel_y_size m <> PrimFloat.abs (gt5 g) /\
    PrimFloat.ltb 0 (pixel_y_size m) = false.
Proof.
  cbn zeta. split; [|split].
  - unfold accepted. cbn zeta.
    split; [discriminate|]. split; [reflexivity|]. split; [reflexivity|].
    split; [reflexivity|]. split; [reflexivity|]. vm_compute. eauto.
  - vm_compute. reflexivity.
  - eexists _, _, _. split; [vm_compute; left; reflexivity|].
    split; [reflexivity|]. split; [reflexivity|]. split.
    + intros H. apply (f_equal (fun x => PrimFloat.ltb 0 x)) in H.
      vm_compute in H. discriminate.
    + vm_compute. reflexivity.
Qed.

(** The specifier [db.sqlite] names an existing store and gives no
    table name: the operation fails. *)
Lemma ambiguous_target_witness :
  VSIStat "db.sqlite" Sample.world = true /\
  snd (RasterliteCreateCopy Sample.env "db.sqlite" Sample.src [] None Sample.world) = None.
Proof.
  split; [reflexivity|].
  refine (proj1 (proj1 (ambiguous_target Sample.env "db.sqlite" Sample.src [] None
                          Sample.world _) _ _)).
  - vm_compute. constructor.
  - vm_compute. discriminate.
  - reflexivity.
Defined.

(** C9, counterexample. The specifier made of one comma names the store
    file [,], which exists, and has no [table=] token; the operation
    does not fail: it ingests into the tables named after the comma. *)
Lemma ambiguous_target_counterexample :
  let w := Sample.world_of "," Sample.fresh_store in
  let out := RasterliteCreateCopy Sample.env "," Sample.src [] None w in
  store_path "," = "," /\
  VSIStat "," w = true /\
  no_table_token (CSLTokenizeStringComplex (without_prefix ",")) /\
  snd out = Some "," /\
  ~ In (EvError CE_Failure "Database already exists. Explicit table name must be specified")
      (log (fst out)) /\
  length (table_rows (fst out) (Some ",") ",_metadata") = 9%nat.
Proof.
  cbn zeta. split; [reflexivity|]. split; [reflexivity|]. split; [vm_compute; constructor|].
  split; [vm_compute; reflexivity|]. split.
  - vm_compute. intros H. repeat (destruct H as [H|H]; [discriminate H|]). exact H.
  - vm_compute. reflexivity.
Qed.






(** * Witnesses of the further properties *)

(** QUALITY and COMPRESS for the default tile driver. *)
Lemma tile_options_gtiff_witness :
  RasterliteGetTileDriverOptions ["QUALITY=75"; "COMPRESS=JPEG"] Sample.no_files
    = (Sample.no_files, ["JPEG_QUALITY=75"; "COMPRESS=JPEG"]).
Proof. exact (tile_options_gtiff ["QUALITY=75"; "COMPRESS=JPEG"] Sample.no_files eq_refl). Defined.

(** QUALITY and COMPRESS for the PNG tile driver: nothing is handed on, and
    two warnings are logged. *)
Lemma tile_options_other_witness :
  let out := RasterliteGetTileDriverOptions ["DRIVER=PNG"; "QUALITY=75"; "COMPRESS=LZW"]
               Sample.no_files in
  snd out = [] /\
  log (fst out) = [EvError CE_Warning "Unexpected option 'COMPRESS' for driver 'PNG'";
                   EvError CE_Warning "Unexpected option 'QUALITY' for driver 'PNG'"].
Proof.
  destruct (tile_options_other ["DRIVER=PNG"; "QUALITY=75"; "COMPRESS=LZW"]
              Sample.no_files eq_refl) as (H1 & _ & _ & H4).
  split; [exact H1 | exact H4].
Defined.

(** A source without bands is refused. *)
Lemma configuration_errors_witness :
  snd (RasterliteCreateCopy Sample.env "x.sqlite" Sample.no_bands [] None Sample.no_files)
    = None.
Proof.
  refine (proj1 (configuration_errors Sample.env "x.sqlite" Sample.no_bands [] None
                   Sample.no_files _)).
  intros (H & _). apply H. reflexivity.
Defined.

(** Two [table=] tokens among others: the second gives the name. *)
Lemma last_table_token_wins_witness :
  snd (scan_tokens ["table=a"; "x"; "table=b"; "y"] "" Sample.no_files) = "b".
Proof.
  refine (proj1 (last_table_token_wins ["table=a"; "x"] ["y"] "table=b" "" Sample.no_files
                   _ _)).
  - reflexivity.
  - repeat constructor.
Defined.

(** The scheme in small letters. *)
Lemma scheme_prefix_optional_witness :
  analyze_filename "rasterlite:db.sqlite,table=t" Sample.world
    = analyze_filename "db.sqlite,table=t" Sample.world.
Proof.
  refine (scheme_prefix_optional "rasterlite:" "db.sqlite,table=t" Sample.world _ _ _);
    reflexivity.
Defined.

(** EPSG:4326 registered twice in a registry that knows it. *)
Lemma insert_srid_idempotent_witness :
  let w := Sample.world_of "db.sqlite" Sample.store_4326 in
  let first := RasterliteInsertSRID Sample.env (Some "db.sqlite") (Some "GEOGCS") w in
  snd (RasterliteInsertSRID Sample.env (Some "db.sqlite") (Some "GEOGCS") (fst first))
    = snd first.
Proof.
  refine (proj1 (insert_srid_idempotent Sample.env "db.sqlite"
                   (Sample.world_of "db.sqlite" Sample.store_4326) Sample.store_4326
                   (Some "GEOGCS") _)).
  reflexivity.
Defined.




(** The advisory on the sample store. *)
Lemma overlap_advisory_witness :
  fs (warn_overlaps Sample.env (Some "db.sqlite") "t" identity_geotransform 600 600
        Sample.world) = fs Sample.world.
Proof.
  refine (proj1 (overlap_advisory Sample.env "db.sqlite" "t" identity_geotransform 600 600
                   Sample.world Sample.store _)).
  reflexivity.
Defined.

(** The nine blocks of the sample raster: nine raster rows and nine
    metadata rows under the same identifiers. *)
Lemma metadata_ids_follow_rasters_witness :
  exists lr lm,
    table_rows (ls_world (Sample.loop Sample.world)) (Some "db.sqlite") "t_rasters" = lr /\
    table_rows (ls_world (Sample.loop Sample.world)) (Some "db.sqlite") "t_metadata" = lm /\
    map FID lm = map FID lr.
Proof.
  destruct (metadata_ids_follow_rasters Sample.env Sample.src (Some "db.sqlite") "GTiff" []
              "t_rasters" "t_metadata" identity_geotransform 1 1 600 600 256 256
              3 3 9 None Sample.world 0) as (lr & lm & H1 & H2 & _ & _ & H5).
  - discriminate.
  - reflexivity.
  - lia.
  - unfold INT_MAX. lia.
  - unfold INT_MAX. lia.
  - unfold INT_MAX. lia.
  - exists lr, lm. split; [exact H1|]. split; [exact H2|]. apply H5. vm_compute. reflexivity.
Defined.

(** The sample environment cooperates. *)
Lemma sample_cooperative : cooperative Sample.env Sample.src None.
Proof.
  split; [intros; reflexivity|]. split; [intros; simpl; eauto|].
  split; [intros; reflexivity|]. intros f x H. discriminate.
Defined.



Section GPSBabelWitnesses.

Import GPSBabel.

(** A track file opened through the NMEA driver. *)
Lemma open_layers_in_bounds_witness :
  let st' := snd (fst (Open GPSSample.env "GPSBabel:nmea:track.txt" None []
                         GPSSample.unopened GPSSample.world)) in
  0 <= nLayers st' <= 5 /\ Forall has_features (exposed st').
Proof.
  destruct (open_layers_in_bounds GPSSample.env "GPSBabel:nmea:track.txt" None []
              GPSSample.unopened GPSSample.world)
    as (_ & H2 & _ & H4 & _).
  - repeat split; reflexivity.
  - split; [exact H2 | exact H4].
Defined.

(** The same call: what it logs comes after what was logged. *)
Lemma open_checks_driver_name_witness :
  exists new,
    log (fst (fst (Open GPSSample.env "GPSBabel:nmea:track.txt" None []
                     GPSSample.unopened GPSSample.world)))
      = new ++ log GPSSample.world.
Proof.
  destruct (open_checks_driver_name GPSSample.env "GPSBabel:nmea:track.txt" None []
              GPSSample.unopened GPSSample.world) as (new & H & _).
  - repeat split; reflexivity.
  - reflexivity.
  - exists new. exact H.
Defined.

(** The temporary file of the same call is gone after the destructor. *)
Lemma open_then_destroy_witness :
  let out := Open GPSSample.env "GPSBabel:nmea:track.txt" None []
               GPSSample.unopened GPSSample.world in
  files (destroy (snd (fst out)) (fst (fst out))) !! "/vsimem/gpsbabel" = None.
Proof.
  destruct (open_then_destroy GPSSample.env "GPSBabel:nmea:track.txt" None []
              GPSSample.unopened GPSSample.world) as (_ & _ & H).
  - repeat split; reflexivity.
  - apply H. vm_compute. discriminate.
Defined.

(** The name [GPSBabel:nmea:track.txt] taken apart. *)
Lemma open_parses_name_witness :
  Open GPSSample.env "GPSBabel:nmea:track.txt" None [] GPSSample.unopened GPSSample.world
    = open_run GPSSample.env all_features (named GPSSample.unopened "nmea" "track.txt")
        GPSSample.world.
Proof.
  refine (open_parses_name GPSSample.env "GPSBabel:" "nmea" "track.txt" None []
            GPSSample.unopened GPSSample.world _ _ _ _ _ _ _);
    try reflexivity.
  repeat split; reflexivity.
Defined.

(** Waypoints and tracks asked for, the case of the words mixed. *)
Lemma open_explicit_features_witness :
  Open GPSSample.env "GPSBabel:nmea:features=waypoints Tracks:track.txt" None []
    GPSSample.unopened GPSSample.world
    = open_run GPSSample.env
        {| bExplicitFeatures := true; bWaypoints := true; bTracks := true; bRoutes := false |}
        (named GPSSample.unopened "nmea" "track.txt") GPSSample.world.
Proof.
  refine (proj1 (open_explicit_features GPSSample.env "GPSBabel:" "nmea" "features="
                   "waypoints Tracks" "track.txt" None [] GPSSample.unopened GPSSample.world
                   _ _ _ _ _ _ _ _ _) _);
    try reflexivity.
  repeat split; reflexivity.
Defined.

(** GPSBABEL_DRIVER without FILENAME. *)
Lemma open_with_options_witness :
  Open GPSSample.env "GPSBabel:" None ["GPSBABEL_DRIVER=nmea"]
    GPSSample.unopened GPSSample.world
    = (CPLError CE_Failure CPLE_AppDefined "Missing FILENAME" GPSSample.world,
       GPSSample.unopened, Some false).
Proof.
  refine (proj1 (open_with_options GPSSample.env "GPSBabel:" None ["GPSBABEL_DRIVER=nmea"]
                   GPSSample.unopened GPSSample.world "nmea" _ _ _) _);
    try reflexivity.
  repeat split; reflexivity.
Defined.

(** A format that cannot be piped, on a file that is not a real file. *)
Lemma convert_piped_fallback_witness :
  snd (convert GPSSample.env_no_pipe all_features "nmea" "track.txt" "/vsimem/gpsbabel"
         GPSSample.world) = None.
Proof.
  destruct (convert_piped_fallback GPSSample.env_no_pipe all_features "nmea" "track.txt"
              "/vsimem/gpsbabel" GPSSample.world [] [] CE_Failure CPLE_AppDefined
              "This format cannot be used in piped commands") as (_ & H & _).
  - reflexivity.
  - reflexivity.
  - reflexivity.
  - rewrite H; reflexivity.
Defined.

End GPSBabelWitnesses.
